(** * microbox: a shallow embedding of the container bring-up code

    The development follows the C sources of microbox (utils.c, parse.c,
    seccomp.c, fs.c, netlink.c, netns.c, sandbox.c).  Every C function that
    matters for the properties below is written as a Rocq function with the
    name it has in the source.  Code that talks to the kernel runs in a small
    state monad: the state is the list of system calls made so far, each
    with its return value, together with [errno]; what the kernel answers is
    decided by an oracle, so a property proved for every oracle holds
    whatever the kernel does. *)

From Stdlib Require Import ZArith List String Ascii Bool Lia DecimalString Floats.
Import ListNotations.

Open Scope string_scope.
Open Scope list_scope.
Open Scope Z_scope.

Infix "+++" := String.append (right associativity, at level 60).

(* ================================================================== *)
(** * C library: constants, formatting, string helpers                 *)
(* ================================================================== *)

Module Libc.

  (** errno values (asm-generic/errno-base.h, errno.h). *)
Definition ENOENT : Z := 2.
Definition ENOMEM : Z := 12.
Definition EBUSY : Z := 16.
Definition EEXIST : Z := 17.
Definition ENODEV : Z := 19.
Definition ENOTDIR : Z := 20.
Definition EINVAL : Z := 22.
Definition ERANGE : Z := 34.
Definition ENOSYS : Z := 38.
Definition EMSGSIZE : Z := 90.

Definition EXIT_SUCCESS : Z := 0.
Definition EXIT_FAILURE : Z := 1.

Definition UINT_MAX : Z := 2 ^ 32 - 1.
Definition INT_MAX : Z := 2 ^ 31 - 1.
Definition ULLONG_MAX : Z := 2 ^ 64 - 1.
Definition UINT64_MAX : Z := 2 ^ 64 - 1.
Definition PATH_MAX : Z := 4096.

  (** open(2) flags. *)
Definition O_RDONLY : Z := 0.
Definition O_WRONLY : Z := 1.
Definition O_CREAT : Z := 64.
Definition O_DIRECTORY : Z := 65536.
Definition O_CLOEXEC : Z := 524288.
Definition F_OK : Z := 0.

  (** mount(2) flags. *)
Definition MS_RDONLY : Z := 1.
Definition MS_NOSUID : Z := 2.
Definition MS_NODEV : Z := 4.
Definition MS_NOEXEC : Z := 8.
Definition MS_REMOUNT : Z := 32.
Definition MS_BIND : Z := 4096.
Definition MS_REC : Z := 16384.
Definition MS_PRIVATE : Z := 262144.
Definition MNT_DETACH : Z := 2.

  (** st_mode file type bits. *)
Definition S_IFMT : Z := 61440.
Definition S_IFCHR : Z := 8192.
Definition S_IFDIR : Z := 16384.
Definition S_IFBLK : Z := 24576.
Definition S_IFREG : Z := 32768.
Definition S_ISDIR (m : Z) : bool := Z.land m S_IFMT =? S_IFDIR.
Definition S_ISREG (m : Z) : bool := Z.land m S_IFMT =? S_IFREG.
Definition S_ISCHR (m : Z) : bool := Z.land m S_IFMT =? S_IFCHR.
Definition S_ISBLK (m : Z) : bool := Z.land m S_IFMT =? S_IFBLK.

  (** waitid(2). *)
Definition P_PIDFD : Z := 3.
Definition WEXITED : Z := 4.
Definition CLD_EXITED : Z := 1.
Definition CLD_KILLED : Z := 2.
Definition CLD_DUMPED : Z := 3.

  (** clone3(2). *)
Definition CLONE_NEWTIME : Z := 128.
Definition CLONE_PIDFD : Z := 4096.
Definition CLONE_NEWNS : Z := 131072.
Definition CLONE_NEWCGROUP : Z := 33554432.
Definition CLONE_NEWUTS : Z := 67108864.
Definition CLONE_NEWIPC : Z := 134217728.
Definition CLONE_NEWUSER : Z := 268435456.
Definition CLONE_NEWPID : Z := 536870912.
Definition CLONE_NEWNET : Z := 1073741824.
Definition SIGCHLD : Z := 17.
Definition SIGSEGV : Z := 11.

  (** netlink. *)
Definition AF_UNSPEC : Z := 0.
Definition AF_NETLINK : Z := 16.
Definition SOCK_RAW : Z := 3.
Definition NETLINK_ROUTE : Z := 0.
Definition NLMSG_ERROR : Z := 2.
Definition RTM_DELLINK : Z := 17.
Definition NLM_F_REQUEST : Z := 1.
Definition NLM_F_ACK : Z := 4.
Definition MSG_TRUNC : Z := 32.

  (** printf's %d, %u and PRIu64 on a value that is in range for the
      conversion: the decimal digits, with a minus sign for a negative
      number. *)
Definition dec (z : Z) : string := NilZero.string_of_int (Z.to_int z).

  (** The value an [int] parameter gets from a 32-bit unsigned argument
      (what %d prints for a uid_t). *)
Definition as_int (u : Z) : Z :=
    let w := u mod 2 ^ 32 in if w <? 2 ^ 31 then w else w - 2 ^ 32.

  (** snprintf(buf, size, ...) keeps at most size-1 characters. *)
Definition snprintf (size : Z) (formatted : string) : string :=
    substring 0 (Z.to_nat (size - 1)) formatted.

Definition zero_char : ascii := Ascii.zero.

  (** [*p] for a pointer into a C string: the character there, NUL at the
      end. *)
Definition deref (s : string) : ascii :=
    match s with
    | String c _ => c
    | EmptyString => zero_char
    end.

Definition isspace (c : ascii) : bool :=
    let n := Z.of_nat (nat_of_ascii c) in
    (n =? 32) || ((9 <=? n) && (n <=? 13)).

Definition digit_val (c : ascii) : option Z :=
    let n := Z.of_nat (nat_of_ascii c) in
    if (48 <=? n) && (n <=? 57) then Some (n - 48) else None.

Fixpoint skip_spaces (s : string) : string :=
    match s with
    | String c s' => if isspace c then skip_spaces s' else s
    | EmptyString => s
    end.

  (** The longest prefix of decimal digits: its value (added to [acc] in
      Horner form), whether there was a digit at all, and what follows. *)
Fixpoint scan_digits (s : string) (acc : Z) (any : bool) : Z * bool * string :=
    match s with
    | String c s' =>
        match digit_val c with
        | Some d => scan_digits s' (acc * 10 + d) true
        | None => (acc, any, s)
        end
    | EmptyString => (acc, any, s)
    end.

  (** strtoull(nptr, &endptr, 10) as ISO C describes it: white space, an
      optional sign, digits.  Without digits nothing is consumed and 0 is
      returned; a value that does not fit gives ULLONG_MAX with errno set to
      ERANGE; a minus sign negates in unsigned arithmetic.  The result is the
      value, the rest of the string at [endptr], and errno afterwards. *)
Definition strtoull (nptr : string) (errno0 : Z) : Z * string * Z :=
    let s1 := skip_spaces nptr in
    let '(neg, s2) :=
      match s1 with
      | String "-"%char r => (true, r)
      | String "+"%char r => (false, r)
      | _ => (false, s1)
      end in
    let '(v, any, rest) := scan_digits s2 0 false in
    if negb any then (0, nptr, errno0)
    else if v >? ULLONG_MAX then (ULLONG_MAX, rest, ERANGE)
    else ((if neg then (2 ^ 64 - v) mod 2 ^ 64 else v), rest, errno0).

  (** dirname(3): trailing slashes are dropped, then the last component,
    then the slashes before it; "." when no slash is left in front and "/"
    when only slashes are. *)
Fixpoint drop_while (p : ascii -> bool) (l : list ascii) : list ascii :=
  match l with
  | c :: l' => if p c then drop_while p l' else l
  | [] => []
  end.

Definition is_slash (c : ascii) : bool := Ascii.eqb c "/"%char.

Definition dirname (path : string) : string :=
  let r := rev (list_ascii_of_string path) in
  match drop_while is_slash r with
  | [] => match r with [] => "." | _ => "/" end
  | r1 =>
      match drop_while (fun c => negb (is_slash c)) r1 with
      | [] => "."
      | r2 =>
          match drop_while is_slash r2 with
          | [] => "/"
          | r3 => string_of_list_ascii (rev r3)
          end
      end
  end.

End Libc.

(* ================================================================== *)
(** * Data types of the program (sandbox.h, net.h, netns.h, seccomp)   *)
(* ================================================================== *)

Module Data.

Inductive mnt_mode_t := MNT_RO | MNT_RW.
Inductive fs_mode_t := FS_TMPFS | FS_HOST | FS_ROOTFS.
Inductive net_mode_t := NET_NONE | NET_HOST | NET_PRIVATE | NET_BRIDGE | NET_INVALID.

Definition net_mode_eqb (a b : net_mode_t) : bool :=
    match a, b with
    | NET_NONE, NET_NONE | NET_HOST, NET_HOST | NET_PRIVATE, NET_PRIVATE
    | NET_BRIDGE, NET_BRIDGE | NET_INVALID, NET_INVALID => true
    | _, _ => false
    end.

Definition fs_mode_eqb (a b : fs_mode_t) : bool :=
    match a, b with
    | FS_TMPFS, FS_TMPFS | FS_HOST, FS_HOST | FS_ROOTFS, FS_ROOTFS => true
    | _, _ => false
    end.

Record mount_spec_t := {
    host : string;
    dest : string;
    mode : mnt_mode_t
  }.

Record env_var_t := {
    name : string;
    value : string
  }.

Record overlayfs_t := {
    lowerdir : string;
    upperdir : string;
    workdir : string;
    mergedir : string
  }.

  (** sandbox_options_t.  A [char*] that may be NULL is an [option]; an
      array with its length field is a list (the parser never stores a NULL
      inside the counted part of an array). *)
Record sandbox_options_t := {
    fs_mode : fs_mode_t;
    net_mode : net_mode_t;
    rootfs : option string;
    hostname : option string;
    cpus : float;
    memory : Z;
    mounts : list mount_spec_t;
    mount_proc : bool;
    mount_dev : bool;
    env : option (list env_var_t);
    syscalls_allow : list string;
    syscalls_deny : list string;
    cmd : list string
  }.

Record sandbox_process_t := {
    pidfd : Z;
    pid : Z
  }.

Record netns_config_t := {
    bridge_name : string;
    veth_host : string;
    veth_container : string;
    container_ip : Z;
    bridge_ip : Z;
    prefix_len : Z
  }.

Record netlink_handle_t := {
    nl_fd : Z;
    nl_seq : Z;
    nl_pid : Z
  }.

  (** libseccomp: a filter context is a default action, the rules added
      so far, oldest first, and its attributes.  Of the attributes only
      SCMP_FLTATR_CTL_NNP is kept: it is the one seccomp_load reads. *)
Inductive scmp_action :=
  | SCMP_ACT_ALLOW
  | SCMP_ACT_ERRNO (e : Z).

Record scmp_filter_ctx := {
    def_action : scmp_action;
    rules : list (Z * scmp_action);
    attr_ctl_nnp : Z
  }.

Definition __NR_SCMP_ERROR : Z := -1.

End Data.

(* ================================================================== *)
(** * System calls, the kernel oracle and the monad                    *)
(* ================================================================== *)

Module Sys.
Import Data.

Inductive syscall : Type :=
  | Open (path : string) (flags mode : Z)
  | Close (fd : Z)
  | Write (fd : Z) (buf : string)
  | Read (fd : Z) (count : Z)
  | Pipe
  | Mkdir (path : string) (mode : Z)
  | Mkdirat (dirfd : Z) (path : string) (mode : Z)
  | Rmdir (path : string)
  | Stat (path : string)
  | Access (path : string) (mode : Z)
  | Unlink (path : string)
  | Symlink (target linkpath : string)
  | Chdir (path : string)
  | Mount (source : option string) (target : string) (fstype : option string)
          (flags : Z) (data : option string)
  | Umount2 (target : string) (flags : Z)
  | PivotRoot (new_root put_old : string)
  | Sethostname (name : string)
  | Getuid
  | Getgid
  | Getpid
  | Getppid
  | Clone3 (flags exit_signal : Z)
  | Waitid (idtype id options : Z)
  | Kill (pid sig : Z)
  | Prctl (option arg2 : Z)
  | Execve (path : string) (argv envp : list string)
  | Socket (domain type protocol : Z)
  | Bind (fd nl_pid : Z)
  | Sendmsg (fd nlmsg_type nlmsg_flags nlmsg_seq ifi_index : Z)
  | Recvmsg (fd : Z)
  | IfNametoindex (ifname : string)
    (* libseccomp *)
  | SeccompInit (def : scmp_action)
  | SeccompRuleAdd (ctx : scmp_filter_ctx) (action : scmp_action) (nr : Z)
  | SeccompLoad (ctx : scmp_filter_ctx)
  | SeccompRelease (ctx : scmp_filter_ctx)
    (* netns.c: the netlink and firewall conversations of the bridge mode,
       each kept as one step whose result is its return code *)
  | SetupBridgeNetwork (cfg : netns_config_t)
  | MoveVethToContainer (cfg : netns_config_t) (container_pid : Z)
  | ConfigureContainerNetwork (cfg : netns_config_t).

  (** A call together with what it returned: a value >= 0, or -errno. *)
Definition event : Type := syscall * Z.

  (** What the environment answers.  [k_ret] gives the result of a call from
      the history before it; the other fields are what the kernel stores
      through pointer arguments, libseccomp's syscall table, and, in
      [k_env_past], what lies in memory after the array opts->env: the
      entries up to the first one whose name is NULL, or None when that
      memory cannot be read that far (see child_merged_env). *)
Record kernel := {
    k_ret : list event -> syscall -> Z;
    k_stat_mode : list event -> string -> Z;
    k_siginfo : list event -> Z * Z;
    k_pipe_fds : list event -> Z * Z;
    k_pidfd : list event -> Z;
    k_nlmsg : list event -> Z * Z * Z;
    k_resolve : string -> Z;
    k_env_past : option (list env_var_t)
  }.

Record pstate := {
    trace : list event;
    errno : Z
  }.

Definition M (A : Type) : Type := pstate -> A * pstate.

Definition ret {A} (a : A) : M A := fun s => (a, s).

Definition bind {A B} (m : M A) (f : A -> M B) : M B :=
    fun s => let (a, s') := m s in f a s'.

Definition get_errno : M Z := fun s => (errno s, s).

Definition set_errno (e : Z) : M unit :=
    fun s => (tt, {| trace := trace s; errno := e |}).

Definition get_trace : M (list event) := fun s => (trace s, s).

Definition init : pstate := {| trace := []; errno := 0 |}.

Section Calls.
Variable K : kernel.

    (** A libc system call wrapper: the call is appended to the trace; a
        negative answer -e becomes return value -1 with errno = e, and a
        successful call leaves errno alone. *)
Definition sys (c : syscall) : M Z :=
      fun s =>
        let r := k_ret K (trace s) c in
        if r <? 0
        then (-1, {| trace := trace s ++ [(c, r)]; errno := - r |})
        else (r, {| trace := trace s ++ [(c, r)]; errno := errno s |}).

    (** A call whose result is used as it is and that does not touch
        errno: a library function that reports failure through its return
        value, or a system call that cannot fail (getuid, getgid, getpid,
        getppid). *)
Definition lib (c : syscall) : M Z :=
      fun s =>
        let r := k_ret K (trace s) c in
        (r, {| trace := trace s ++ [(c, r)]; errno := errno s |}).

    (** Values delivered through pointer arguments by the last call. *)
Definition stat_mode (path : string) : M Z :=
      fun s => (k_stat_mode K (trace s) path, s).
Definition siginfo : M (Z * Z) := fun s => (k_siginfo K (trace s), s).
Definition pipe_fds : M (Z * Z) := fun s => (k_pipe_fds K (trace s), s).
Definition out_pidfd : M Z := fun s => (k_pidfd K (trace s), s).
Definition nlmsg : M (Z * Z * Z) := fun s => (k_nlmsg K (trace s), s).
End Calls.

  (** How a C function that may terminate the process ends: it returns,
      the process exits, another program takes the process over, or a
      signal ends the process. *)
Inductive outcome :=
  | Returned (rc : Z)
  | Exited (status : Z)
  | Execed
  | Signalled (sig : Z).

  (** The events a computation adds to the trace. *)
Definition emitted {A} (m : M A) (s : pstate) : list event :=
    skipn (List.length (trace s)) (trace (snd (m s))).

End Sys.

Declare Scope monad_scope.
Delimit Scope monad_scope with monad.
Notation "x <- c1 ;; c2" := (Sys.bind c1 (fun x => c2))
  (at level 61, c1 at next level, right associativity) : monad_scope.
Notation "' pat <- c1 ;; c2" := (Sys.bind c1 (fun x => match x with pat => c2 end))
  (at level 61, pat pattern, c1 at next level, right associativity) : monad_scope.
Notation "c1 ;; c2" := (Sys.bind c1 (fun _ => c2))
  (at level 61, right associativity) : monad_scope.
Open Scope monad_scope.

(* ================================================================== *)
(** * utils.c                                                          *)
(* ================================================================== *)

Module Utils.
Import Libc Data Sys.

Section WithKernel.
Variable K : kernel.

Definition mkdir_safe (path : string) (mode : Z) : M Z :=
      r <- sys K (Mkdir path mode) ;;
      e <- get_errno ;;
      if (r =? -1) && negb (e =? EEXIST) then ret (-1) else ret 0.

Definition maybe_mkdir (path : string) (mode : Z) : M Z :=
      set_errno 0 ;;
      r <- sys K (Mkdir path mode) ;;
      if r =? 0 then ret 0
      else
        e <- get_errno ;;
        if negb (e =? EEXIST) then ret (-1)
        else
          r <- sys K (Stat path) ;;
          if negb (r =? 0) then ret (-1)
          else
            m <- stat_mode K path ;;
            if negb (S_ISDIR m) then set_errno ENOTDIR ;; ret (-1)
            else set_errno 0 ;; ret 0.

    (** The loop of mkdirp: [rest] is the path from index [i] on; at every
        slash the prefix before it is created. *)
Fixpoint mkdirp_loop (path rest : string) (i : nat) : M Z :=
      match rest with
      | EmptyString => ret 0
      | String c rest' =>
          if Ascii.eqb c "/"%char then
            r <- maybe_mkdir (substring 0 i path) 511 ;;
            if negb (r =? 0) then ret (-1)
            else mkdirp_loop path rest' (S i)
          else mkdirp_loop path rest' (S i)
      end.

    (** mkdirp.  The loop starts at the second character; the callers never
        pass an empty path.  The failure of strdup is not modelled. *)
Definition mkdirp (path : string) : M Z :=
      set_errno 0 ;;
      r <- mkdirp_loop path (match path with String _ t => t | EmptyString => EmptyString end) 1 ;;
      if negb (r =? 0) then ret (-1)
      else
        r <- maybe_mkdir path 511 ;;
        if negb (r =? 0) then ret (-1) else ret 0.

Definition write_file (path data : string) : M Z :=
      fd <- sys K (Open path O_WRONLY 0) ;;
      if fd <? 0 then e <- get_errno ;; ret (- e)
      else
        n <- sys K (Write fd data) ;;
        if negb (n =? Z.of_nat (String.length data)) then
          sys K (Close fd) ;;
          e <- get_errno ;; ret (- e)
        else
          sys K (Close fd) ;;
          ret 0.

Definition is_directory (path : option string) : M bool :=
      match path with
      | None => set_errno EINVAL ;; ret false
      | Some p =>
          if (String.length p =? 0)%nat then set_errno EINVAL ;; ret false
          else
            r <- sys K (Access p F_OK) ;;
            if r <? 0 then ret false
            else
              r <- sys K (Stat p) ;;
              if negb (r =? 0) then ret false
              else m <- stat_mode K p ;; ret (S_ISDIR m)
      end.

End WithKernel.
End Utils.

(* ================================================================== *)
(** * parse.c                                                          *)
(* ================================================================== *)

Module Parse.
Import Libc Data Sys.

(** strtoull run in the monad: it reads and may set errno. *)
Definition strtoull_m (nptr : string) : M (Z * string) :=
  e <- get_errno ;;
  let '(v, endptr, e') := strtoull nptr e in
  set_errno e' ;;
  ret (v, endptr).

Definition is_char (c : ascii) (x : string) : bool :=
  match x with
  | String d EmptyString => Ascii.eqb c d
  | _ => false
  end.

(** parse_memory.  [memory] is None for a NULL pointer.  The product at the
    end is a uint64_t product. *)
Definition parse_memory (memory : option string) : M Z :=
  match memory with
  | None => ret 0
  | Some memory =>
      ' (result, endptr) <- strtoull_m memory ;;
      e <- get_errno ;;
      if (result =? ULLONG_MAX) && (e =? ERANGE) then ret 0
      else
        let c := deref endptr in
        let after_suffix (multiplier : Z) : M Z :=
          if (multiplier >? 1) && (result >? UINT64_MAX / multiplier) then ret 0
          else ret ((result * multiplier) mod 2 ^ 64) in
        if is_char c "k" || is_char c "K" then after_suffix 1024
        else if is_char c "m" || is_char c "M" then after_suffix (1024 * 1024)
        else if is_char c "g" || is_char c "G" then after_suffix (1024 * 1024 * 1024)
        else if negb (is_char c "b") && negb (is_char c "B")
                && negb (Ascii.eqb c zero_char) then ret 0
        else after_suffix 1
  end.

(** The --memory branch of cli_parse_options: [opt_mem] is the argument
    when the option was given; the options record is continued with the
    parsed size, or the process exits. *)
Definition cli_parse_memory (opt_mem : option string) : M (Z + outcome) :=
  match opt_mem with
  | None => ret (inl 0)
  | Some sval =>
      m <- parse_memory (Some sval) ;;
      if m =? 0 then ret (inr (Exited EXIT_FAILURE)) else ret (inl m)
  end.

End Parse.

(** The reading of a memory size that parse_memory is compared with: the
    value of a string of decimal digits, and the factor a suffix character
    stands for. *)
Module ParseSpec.
Import Libc.

Definition is_digit (c : ascii) : bool :=
  match digit_val c with Some _ => true | None => false end.

Fixpoint all_digits (ds : string) : bool :=
  match ds with
  | String c ds' => is_digit c && all_digits ds'
  | EmptyString => true
  end.

Fixpoint decimal_value_acc (ds : string) (acc : Z) : Z :=
  match ds with
  | String c ds' =>
      match digit_val c with
      | Some d => decimal_value_acc ds' (acc * 10 + d)
      | None => acc
      end
  | EmptyString => acc
  end.

Definition decimal_value (ds : string) : Z := decimal_value_acc ds 0.

Definition char_in (c : ascii) (cs : list ascii) : bool :=
  existsb (Ascii.eqb c) cs.

(** k/K, m/M, g/G, then b/B or the end of the string. *)
Definition suffix_multiplier (c : ascii) : option Z :=
  if char_in c ["k"; "K"]%char then Some 1024
  else if char_in c ["m"; "M"]%char then Some (1024 * 1024)
  else if char_in c ["g"; "G"]%char then Some (1024 * 1024 * 1024)
  else if char_in c ["b"; "B"; zero_char]%char then Some 1
  else None.

(** A suffix, in the sense of the option's documentation: what follows the
    number.  It is unknown when it is none of k, K, m, M, g, G, b, B and
    not empty. *)
Definition known_suffixes : list string :=
  [""; "k"; "K"; "m"; "M"; "g"; "G"; "b"; "B"].

Definition unknown_suffix (suffix : string) : bool :=
  negb (is_digit (deref suffix))
  && negb (existsb (String.eqb suffix) known_suffixes).

End ParseSpec.

Module ParseSpecSize.
Import Libc ParseSpec.

(** The size a number [v] with first suffix character [c] stands for;
    0 is the error value. *)
Definition expected_size (v : Z) (c : ascii) : Z :=
  match suffix_multiplier c with
  | Some mult => if v * mult <=? UINT64_MAX then v * mult else 0
  | None => 0
  end.

End ParseSpecSize.

(* ================================================================== *)
(** * seccomp.c                                                        *)
(* ================================================================== *)

Module Seccomp.
Import Libc Data Sys.

Definition docker_default_denylist : list string :=
  [ (* module & kexec *)
    "create_module"; "init_module"; "finit_module"; "delete_module";
    "kexec_load"; "kexec_file_load";
    (* keyring & bpf *)
    "add_key"; "request_key"; "keyctl";
    "bpf";
    (* ptrace & process vm *)
    "ptrace"; "process_vm_readv"; "process_vm_writev";
    (* time & clock adjustments *)
    "adjtimex"; "clock_adjtime"; "settimeofday"; "stime";
    (* reboot, quotas, nfs, sysfs, legacy *)
    "reboot"; "quotactl"; "nfsservctl"; "sysfs"; "_sysctl";
    (* personality tweaks *)
    "personality";
    (* mount-related / root switching *)
    "mount"; "umount"; "umount2"; "pivot_root";
    (* namespace / isolation escape hatches *)
    "setns"; "unshare";
    (* open-by-handle *)
    "open_by_handle_at";
    (* perf & fanotify *)
    "perf_event_open"; "fanotify_init";
    (* handle name lookups and cookies *)
    "name_to_handle_at"; "lookup_dcookie";
    (* userfault / vm86 & low-level io privs *)
    "userfaultfd"; "vm86"; "vm86old"; "iopl"; "ioperm";
    (* memory policy & page moving *)
    "set_mempolicy"; "move_pages";
    (* kcmp *)
    "kcmp";
    (* accounting & new clone *)
    "acct"; "clone3" ].

(** name_in_list: 1 if [name] is in [list], compared with strcmp. *)
Fixpoint name_in_list (name : string) (list : list string) : bool :=
  match list with
  | [] => false
  | x :: rest => if String.eqb name x then true else name_in_list name rest
  end.

Definition docker_default_denylist_len : nat := List.length docker_default_denylist.

Definition microbox_get_docker_default_denylist : list string :=
  docker_default_denylist.

(** What seccomp_load asks of the kernel for a context, as libseccomp
    documents it (seccomp_load(3), and SCMP_FLTATR_CTL_NNP in
    seccomp_attr_set(3)): unless the attribute is 0, no-new-privs is set
    first, with prctl(PR_SET_NO_NEW_PRIVS, 1), and the filter is handed to
    the kernel after it. *)
Inductive load_request :=
  | SetNoNewPrivs (value : Z)
  | InstallFilter (ctx : scmp_filter_ctx).

Definition seccomp_load_requests (ctx : scmp_filter_ctx) : list load_request :=
  if attr_ctl_nnp ctx =? 0 then [InstallFilter ctx]
  else [SetNoNewPrivs 1; InstallFilter ctx].

Section WithKernel.
Variable K : kernel.

(** libseccomp.  seccomp_init gives a fresh context or NULL, with the
    attributes at their defaults: SCMP_FLTATR_CTL_NNP is on (1), and only
    seccomp_attr_set, which the code never calls, changes it.
    seccomp_rule_add extends the context when it succeeds. *)
Definition seccomp_init (def : scmp_action) : M (option scmp_filter_ctx) :=
  r <- lib K (SeccompInit def) ;;
  if r <? 0 then ret None
  else ret (Some {| def_action := def; rules := []; attr_ctl_nnp := 1 |}).

Definition seccomp_rule_add (ctx : scmp_filter_ctx) (action : scmp_action) (nr : Z)
  : M (Z * scmp_filter_ctx) :=
  rc <- lib K (SeccompRuleAdd ctx action nr) ;;
  if rc <? 0 then ret (rc, ctx)
  else ret (rc, {| def_action := def_action ctx;
                   rules := rules ctx ++ [(nr, action)];
                   attr_ctl_nnp := attr_ctl_nnp ctx |}).

Definition seccomp_load (ctx : scmp_filter_ctx) : M Z := lib K (SeccompLoad ctx).

Definition seccomp_release (ctx : scmp_filter_ctx) : M unit :=
  lib K (SeccompRelease ctx) ;; ret tt.

Definition seccomp_syscall_resolve_name (name : string) : Z := k_resolve K name.

(** The for loop of microbox_setup_seccomp.  The result is [Some rc] when
    the loop body returned from the function (after releasing the
    context), and None with the context built when the loop ran to its
    end. *)
Fixpoint add_deny_rules (deny : list string) (allow_ovr : option (list string))
    (ctx : scmp_filter_ctx) : M (option Z * scmp_filter_ctx) :=
  match deny with
  | [] => ret (None, ctx)
  | name :: rest =>
      if (String.length name =? 0)%nat then add_deny_rules rest allow_ovr ctx
      else if match allow_ovr with
              | Some allow => name_in_list name allow
              | None => false
              end
      then add_deny_rules rest allow_ovr ctx
      else
        let nr := seccomp_syscall_resolve_name name in
        if nr =? __NR_SCMP_ERROR then add_deny_rules rest allow_ovr ctx
        else
          ' (rc, ctx') <- seccomp_rule_add ctx (SCMP_ACT_ERRNO ENOSYS) nr ;;
          if rc <? 0 then
            seccomp_release ctx' ;;
            e <- get_errno ;;
            ret (Some (- e), ctx')
          else add_deny_rules rest allow_ovr ctx'
  end.

Definition microbox_setup_seccomp (deny : list string)
    (allow_ovr : option (list string)) : M Z :=
  octx <- seccomp_init SCMP_ACT_ALLOW ;;
  match octx with
  | None => ret (- ENOMEM)
  | Some ctx =>
      ' (early, ctx) <- add_deny_rules deny allow_ovr ctx ;;
      match early with
      | Some rc => ret rc
      | None =>
          rc <- seccomp_load ctx ;;
          if rc <? 0 then
            seccomp_release ctx ;;
            e <- get_errno ;;
            ret (- e)
          else
            seccomp_release ctx ;;
            ret 0
      end
  end.

End WithKernel.

(** What a loaded filter answers for a syscall number: the action of the
    first rule for that number, the default action without one. *)
Fixpoint rule_for (nr : Z) (rs : list (Z * scmp_action)) : option scmp_action :=
  match rs with
  | [] => None
  | (n, a) :: rest => if n =? nr then Some a else rule_for nr rest
  end.

Definition filter_action (f : scmp_filter_ctx) (nr : Z) : scmp_action :=
  match rule_for nr (rules f) with
  | Some a => a
  | None => def_action f
  end.

(** The filters loaded into the kernel by the calls of a trace. *)
Fixpoint loaded_filters (tr : list event) : list scmp_filter_ctx :=
  match tr with
  | [] => []
  | (SeccompLoad ctx, r) :: rest =>
      if r <? 0 then loaded_filters rest else ctx :: loaded_filters rest
  | _ :: rest => loaded_filters rest
  end.

End Seccomp.

(* ================================================================== *)
(** * fs.c                                                             *)
(* ================================================================== *)

Module Fs.
Import Libc Data Sys Utils.

Definition dev_dirs : list string :=
  ["/dev/null"; "/dev/zero"; "/dev/random"; "/dev/urandom"; "/dev/tty"].

Definition path_join (path1 path2 : string) : string :=
  path1 +++ "/" +++ path2.

(** Computations that may return from the enclosing C function: Some rc is
    a return with value rc, None falls through to the next statement. *)
Definition and_then (block : M (option Z)) (rest : M Z) : M Z :=
  r <- block ;;
  match r with
  | Some rc => ret rc
  | None => rest
  end.

Section WithKernel.
Variable K : kernel.

(** microbox_bind_mount.  [base] and the fields of [spec] are not NULL at
    any call site, so the EINVAL guard is left out. *)
Definition microbox_bind_mount (base : string) (spec : mount_spec_t) : M Z :=
  let target := snprintf PATH_MAX (base +++ dest spec) in
  r <- sys K (Stat (host spec)) ;;
  if r <? 0 then ret (-1)
  else
    st_mode <- stat_mode K (host spec) ;;
    and_then
      (if S_ISDIR st_mode then
         r <- mkdirp K target ;;
         if r <? 0 then ret (Some (-1)) else ret None
       else if S_ISREG st_mode || S_ISCHR st_mode || S_ISBLK st_mode then
         r <- mkdirp K (dirname target) ;;
         if r <? 0 then ret (Some (-1))
         else
           fd <- sys K (Open target O_CREAT 420) ;;
           if fd <? 0 then ret (Some (-1))
           else sys K (Close fd) ;; ret None
       else ret (Some (-1)))
      (r <- sys K (Mount (Some (host spec)) target None (Z.lor MS_BIND MS_REC) None) ;;
       if r <? 0 then ret (-1)
       else
         match mode spec with
         | MNT_RO =>
             r <- sys K (Mount None target None
                           (Z.lor (Z.lor (Z.lor MS_BIND MS_REMOUNT) MS_RDONLY) MS_NOSUID)
                           None) ;;
             if r <? 0 then ret (-1) else ret 0
         | MNT_RW => ret 0
         end).

Definition microsandbox_create_tmpfs (path : string) : M Z :=
  r <- mkdir_safe K path 493 ;;
  if r <? 0 then ret (-1)
  else
    r <- sys K (Mount (Some "tmpfs") path (Some "tmpfs") (Z.lor MS_NOSUID MS_NODEV)
                  (Some "mode=700,size=512m")) ;;
    if r <? 0 then ret (-1) else ret 0.

(** microsandbox_create_overlayfs; None is the NULL result.  The three
    mkdirat calls are joined by ||, so the first failure skips the rest. *)
Definition microsandbox_create_overlayfs (src mountpoint : string)
  : M (option overlayfs_t) :=
  let upper := "upper" in
  let work := "work" in
  let merged := "merged" in
  let fs := {| lowerdir := src;
               upperdir := path_join mountpoint upper;
               workdir := path_join mountpoint work;
               mergedir := path_join mountpoint merged |} in
  fd <- sys K (Open mountpoint (Z.lor (Z.lor O_DIRECTORY O_RDONLY) O_CLOEXEC) 0) ;;
  if fd <? 0 then ret None
  else
    r1 <- sys K (Mkdirat fd upper 493) ;;
    failed <- (if r1 <? 0 then ret true
               else
                 r2 <- sys K (Mkdirat fd work 493) ;;
                 if r2 <? 0 then ret true
                 else
                   r3 <- sys K (Mkdirat fd merged 493) ;;
                   ret (r3 <? 0)) ;;
    if failed : bool then sys K (Close fd) ;; ret None
    else
      sys K (Close fd) ;;
      let o := "lowerdir=" +++ src +++ ",upperdir=" +++ upperdir fs
               +++ ",workdir=" +++ workdir fs in
      r <- sys K (Mount (Some "overlay") (mergedir fs) (Some "overlay") 0 (Some o)) ;;
      if r <? 0 then ret None else ret (Some fs).

Definition microbox_bind_mount_proc (base : string) : M Z :=
  let target := snprintf PATH_MAX (base +++ "/proc") in
  r <- mkdirp K target ;;
  if r <? 0 then e <- get_errno ;; ret (- e)
  else
    r <- sys K (Mount (Some "proc") target (Some "proc")
                  (Z.lor (Z.lor MS_NOSUID MS_NOEXEC) MS_NODEV) None) ;;
    if r <? 0 then e <- get_errno ;; ret (- e) else ret 0.

(** The first part of microbox_bind_mount_dev: the tmpfs on /dev, devpts
    on /dev/pts, the ptmx symlink and the tmpfs on /dev/shm.  Some rc is a
    return from microbox_bind_mount_dev. *)
Definition dev_filesystems (base : string) : M (option Z) :=
  let target := snprintf PATH_MAX (base +++ "/dev") in
  let fail : M (option Z) := e <- get_errno ;; ret (Some (- e)) in
  r <- mkdirp K target ;;
  if r <? 0 then fail
  else
    r <- sys K (Mount (Some "tmpfs") target (Some "tmpfs") (Z.lor MS_NOSUID MS_NOEXEC)
                  (Some "mode=755,size=2m")) ;;
    if r <? 0 then fail
    else
      let pts := snprintf PATH_MAX (base +++ "/dev/pts") in
      r <- mkdirp K pts ;;
      if r <? 0 then fail
      else
        r <- sys K (Mount (Some "devpts") pts (Some "devpts") (Z.lor MS_NOSUID MS_NOEXEC)
                      (Some "newinstance,ptmxmode=0666,mode=620")) ;;
        e <- get_errno ;;
        if (r <? 0) && negb (e =? EINVAL) then fail
        else
          let ptmx := snprintf PATH_MAX (base +++ "/dev/ptmx") in
          sys K (Unlink ptmx) ;;
          r <- sys K (Symlink "pts/ptmx" ptmx) ;;
          if r <? 0 then fail
          else
            let shm := snprintf PATH_MAX (base +++ "/dev/shm") in
            r <- mkdirp K shm ;;
            if r <? 0 then fail
            else
              r <- sys K (Mount (Some "tmpfs") shm (Some "tmpfs")
                            (Z.lor MS_NOSUID MS_NOEXEC) (Some "mode=1777,size=64m")) ;;
              if r <? 0 then fail else ret None.

(** The loop over the device allowlist: the value of every
    microbox_bind_mount call is dropped. *)
Fixpoint bind_mount_devices (base : string) (devs : list string) : M unit :=
  match devs with
  | [] => ret tt
  | d :: rest =>
      microbox_bind_mount base {| host := d; dest := d; mode := MNT_RW |} ;;
      bind_mount_devices base rest
  end.

Definition microbox_bind_mount_dev (base : string) : M Z :=
  and_then (dev_filesystems base)
           (bind_mount_devices base dev_dirs ;; ret 0).

(** The loops over opts->mounts. *)
Fixpoint bind_user_mounts (base : string) (ms : list mount_spec_t) : M (option Z) :=
  match ms with
  | [] => ret None
  | m :: rest =>
      r <- microbox_bind_mount base m ;;
      if r <? 0 then ret (Some (-1)) else bind_user_mounts base rest
  end.

(** The common tail of both set-ups, from chdir into the new root on. *)
Definition enter_new_root (new_root : string) : M Z :=
  let fail : M Z := e <- get_errno ;; ret (- e) in
  r <- sys K (Chdir new_root) ;;
  if r <? 0 then fail
  else
    r <- sys K (Mkdir ".old_root" 448) ;;
    if r <? 0 then fail
    else
      r <- sys K (PivotRoot "." "./.old_root") ;;
      if r <? 0 then fail
      else
        r <- sys K (Chdir "/") ;;
        if r <? 0 then fail
        else
          r <- sys K (Umount2 "/.old_root" MNT_DETACH) ;;
          if r <? 0 then fail
          else
            r <- sys K (Rmdir "/.old_root") ;;
            if r <? 0 then fail else ret 0.

Definition microsandbox_setup_rootfs (opts : sandbox_options_t) : M Z :=
  r <- sys K (Mount None "/" None (Z.lor MS_PRIVATE MS_REC) None) ;;
  if r <? 0 then ret (-1)
  else
    isdir <- is_directory K (rootfs opts) ;;
    if negb isdir then set_errno ENOENT ;; ret (-1)
    else
      let tmpfs_mount := "/box" in
      r <- microsandbox_create_tmpfs tmpfs_mount ;;
      if r <? 0 then ret (-1)
      else
        let overlay_mount := "/box/overlay" in
        r <- sys K (Mkdir overlay_mount 493) ;;
        if r <? 0 then ret (-1)
        else
          ofs <- microsandbox_create_overlayfs
                   (match rootfs opts with Some p => p | None => "" end)
                   overlay_mount ;;
          match ofs with
          | None => ret (-1)
          | Some fs =>
              and_then (bind_user_mounts (mergedir fs) (mounts opts))
                (and_then
                   (if mount_proc opts then
                      r <- microbox_bind_mount_proc (mergedir fs) ;;
                      if r <? 0 then e <- get_errno ;; ret (Some (- e))
                      else ret None
                    else ret None)
                   (and_then
                      (if mount_dev opts then
                         r <- microbox_bind_mount_dev (mergedir fs) ;;
                         if r <? 0 then e <- get_errno ;; ret (Some (- e))
                         else ret None
                       else ret None)
                      (enter_new_root (mergedir fs))))
          end.

Definition microsandbox_setup_tmpfs (opts : sandbox_options_t) : M Z :=
  let base := "/box" in
  r <- sys K (Mount None "/" None (Z.lor MS_PRIVATE MS_REC) None) ;;
  if r <? 0 then ret (-1)
  else
    r <- microsandbox_create_tmpfs base ;;
    if r <? 0 then ret (-1)
    else
      and_then
        (if mount_proc opts then
           r <- microbox_bind_mount_proc base ;;
           if r <? 0 then ret (Some (-1)) else ret None
         else ret None)
        (and_then
           (if mount_dev opts then
              r <- microbox_bind_mount_dev base ;;
              if r <? 0 then ret (Some (-1)) else ret None
            else ret None)
           (and_then (bind_user_mounts base (mounts opts))
                     (enter_new_root base))).

Definition microsandbox_setup_fs (opts : sandbox_options_t) : M Z :=
  match fs_mode opts with
  | FS_HOST => ret 0
  | FS_TMPFS => microsandbox_setup_tmpfs opts
  | FS_ROOTFS => microsandbox_setup_rootfs opts
  end.

End WithKernel.
End Fs.

(* ================================================================== *)
(** * netlink.c (the part used when a sandbox is torn down)            *)
(* ================================================================== *)

Module Netlink.
Import Libc Data Sys.

Section WithKernel.
Variable K : kernel.

(** netlink_open on a non-NULL handle: the return code and the handle as
    the function leaves it. *)
Definition netlink_open (handle : netlink_handle_t) : M (Z * netlink_handle_t) :=
  fd <- sys K (Socket AF_NETLINK SOCK_RAW NETLINK_ROUTE) ;;
  let handle := {| nl_fd := fd; nl_seq := nl_seq handle; nl_pid := nl_pid handle |} in
  if fd <? 0 then ret (-1, handle)
  else
    pid <- lib K Getpid ;;
    let handle := {| nl_fd := fd; nl_seq := nl_seq handle; nl_pid := pid |} in
    r <- sys K (Bind fd pid) ;;
    if r <? 0 then sys K (Close fd) ;; ret (-1, handle)
    else ret (0, {| nl_fd := fd; nl_seq := 1; nl_pid := pid |}).

Definition netlink_close (handle : netlink_handle_t) : M netlink_handle_t :=
  if nl_fd handle >=? 0 then
    sys K (Close (nl_fd handle)) ;;
    ret {| nl_fd := -1; nl_seq := nl_seq handle; nl_pid := nl_pid handle |}
  else ret handle.

(** netlink_send_request for a request made of an nlmsghdr and an
    ifinfomsg. *)
Definition netlink_send_request (handle : netlink_handle_t)
    (nlmsg_type nlmsg_flags nlmsg_seq ifi_index : Z) : M Z :=
  r <- sys K (Sendmsg (nl_fd handle) nlmsg_type nlmsg_flags nlmsg_seq ifi_index) ;;
  if r <? 0 then ret (-1) else ret 0.

(** netlink_recv_response: the byte count or -1, with the type and error
    field found at the start of the buffer. *)
Definition netlink_recv_response (handle : netlink_handle_t) : M (Z * (Z * Z)) :=
  bytes <- sys K (Recvmsg (nl_fd handle)) ;;
  ' (msg_flags, resp_type, resp_error) <- nlmsg K ;;
  if bytes <? 0 then ret (-1, (resp_type, resp_error))
  else if negb (Z.land msg_flags MSG_TRUNC =? 0) then
    set_errno EMSGSIZE ;; ret (-1, (resp_type, resp_error))
  else ret (bytes, (resp_type, resp_error)).

(** netlink_get_interface_index: if_nametoindex gives 0 for a name that
    has no interface. *)
Definition netlink_get_interface_index (handle : netlink_handle_t) (ifname : string)
  : M Z :=
  index <- lib K (IfNametoindex ifname) ;;
  if index =? 0 then set_errno ENODEV ;; ret (-1)
  else ret index.

Definition netlink_delete_interface (handle : netlink_handle_t) (ifname : string)
  : M (Z * netlink_handle_t) :=
  ifindex <- netlink_get_interface_index handle ifname ;;
  if ifindex <? 0 then ret (0, handle)
  else
    let seq := nl_seq handle in
    let handle := {| nl_fd := nl_fd handle;
                     nl_seq := (seq + 1) mod 2 ^ 32;
                     nl_pid := nl_pid handle |} in
    lib K Getpid ;;
    r <- netlink_send_request handle RTM_DELLINK (Z.lor NLM_F_REQUEST NLM_F_ACK)
           seq ifindex ;;
    if r <? 0 then ret (-1, handle)
    else
      ' (bytes, (resp_type, resp_error)) <- netlink_recv_response handle ;;
      if bytes <? 0 then ret (-1, handle)
      else if (resp_type =? NLMSG_ERROR) && negb (resp_error =? 0) then
        set_errno (- resp_error) ;; ret (-1, handle)
      else ret (0, handle).

End WithKernel.
End Netlink.

(* ================================================================== *)
(** * netns.c                                                          *)
(* ================================================================== *)

Module Netns.
Import Libc Data Sys Netlink.

Definition MICROBOX_DEFAULT_BRIDGE_IP_SUBNET : Z := 2886991872.

(** htonl on a little-endian host. *)
Definition htonl (x : Z) : Z :=
  let b0 := Z.land x 255 in
  let b1 := Z.land (Z.shiftr x 8) 255 in
  let b2 := Z.land (Z.shiftr x 16) 255 in
  let b3 := Z.land (Z.shiftr x 24) 255 in
  Z.lor (Z.lor (Z.shiftl b0 24) (Z.shiftl b1 16)) (Z.lor (Z.shiftl b2 8) b3).

(** generate_interface_names; it always returns 0.  The remainder is C's
    (truncating) remainder. *)
Definition generate_interface_names (container_id : Z) : Z * netns_config_t :=
  let interface_id := Z.rem container_id 254 in
  (0, {| bridge_name := snprintf 16 "microbox0";
         veth_host := snprintf 16 ("mbx" +++ dec interface_id +++ "h");
         veth_container := snprintf 16 ("mbx" +++ dec interface_id +++ "c");
         bridge_ip := htonl (MICROBOX_DEFAULT_BRIDGE_IP_SUBNET + 1);
         container_ip := htonl (MICROBOX_DEFAULT_BRIDGE_IP_SUBNET + interface_id + 2);
         prefix_len := 16 |}).

Section WithKernel.
Variable K : kernel.

(** The bridge-mode conversations; see the constructors in [Sys]. *)
Definition microbox_setup_bridge_network (cfg : netns_config_t) : M Z :=
  lib K (SetupBridgeNetwork cfg).
Definition move_veth_to_container (cfg : netns_config_t) (container_pid : Z) : M Z :=
  lib K (MoveVethToContainer cfg container_pid).
Definition microbox_configure_container_network (cfg : netns_config_t) : M Z :=
  lib K (ConfigureContainerNetwork cfg).

Definition uninit_handle : netlink_handle_t :=
  {| nl_fd := 0; nl_seq := 0; nl_pid := 0 |}.

Definition microbox_cleanup_network_interfaces (container_id : Z) : M Z :=
  let '(rc, config) := generate_interface_names container_id in
  if negb (rc =? 0) then ret (-1)
  else
    ' (rc, nl_handle) <- netlink_open K uninit_handle ;;
    if negb (rc =? 0) then ret (-1)
    else
      ' (rc, nl_handle) <- netlink_delete_interface K nl_handle (veth_host config) ;;
      let ret_ := if negb (rc =? 0) then -1 else 0 in
      netlink_close K nl_handle ;;
      ret ret_.

End WithKernel.
End Netns.

(* ================================================================== *)
(** * sandbox.c                                                        *)
(* ================================================================== *)

Module Sandbox.
Import Libc Data Sys Utils Seccomp Fs Netlink Netns.

Definition safe_env : list env_var_t :=
  [ {| name := "PATH"; value := "/usr/bin:/bin:/usr/sbin:/sbin:/usr/local/bin" |};
    {| name := "HOME"; value := "/root" |};
    {| name := "TERM"; value := "xterm" |} ].

(** The string "\n". *)
Definition newline : string := String (ascii_of_nat 10) EmptyString.

(** (unsigned int) applied to a double: the fraction is dropped.  A value
    outside the range of unsigned int has no defined result in C; here it
    is reduced modulo 2^32, and infinities and NaN give 0. *)
Definition double_to_uint (x : float) : Z :=
  match Prim2SF x with
  | S754_finite sign m e =>
      let magnitude := if 0 <=? e then Z.shiftl (Zpos m) e
                       else Z.shiftr (Zpos m) (- e) in
      (if sign then - magnitude else magnitude) mod 2 ^ 32
  | _ => 0
  end.

(** The text setup_cgroup_limits puts into cpu.max: quota and period. *)
Definition cpu_max_text (cpus : float) : string :=
  let period := 100000 in
  let quota := double_to_uint (cpus * 100000)%float in
  dec quota +++ " " +++ dec period.

(** Paths built with snprintf into buffers that hold any int: nothing is
    cut off. *)
Definition proc_pid_path (pid : Z) (file : string) : string :=
  "/proc/" +++ dec pid +++ "/" +++ file.

Definition cgroup_dir (pid : Z) : string :=
  "/sys/fs/cgroup/microbox-" +++ dec pid.

Definition cgroup_file (pid : Z) (file : string) : string :=
  cgroup_dir pid +++ "/" +++ file.

Section WithKernel.
Variable K : kernel.

Definition setup_uid_gid_map (pid : Z) : M Z :=
  (* Deny setgroups. *)
  r <- write_file K (proc_pid_path pid "setgroups") "deny" ;;
  if r <? 0 then ret (-1)
  else
    (* Map UID 0 in the child namespace to our real UID. *)
    fd <- sys K (Open (proc_pid_path pid "uid_map") O_WRONLY 0) ;;
    if fd <? 0 then ret (-1)
    else
      uid <- lib K Getuid ;;
      let buf := "0 " +++ dec (as_int uid) +++ " 1" +++ newline in
      n <- sys K (Write fd buf) ;;
      if negb (n =? Z.of_nat (String.length buf)) then
        sys K (Close fd) ;; ret (-1)
      else
        sys K (Close fd) ;;
        (* Map GID 0 in the child namespace to our real GID. *)
        fd <- sys K (Open (proc_pid_path pid "gid_map") O_WRONLY 0) ;;
        if fd <? 0 then ret (-1)
        else
          gid <- lib K Getgid ;;
          let buf := "0 " +++ dec (as_int gid) +++ " 1" +++ newline in
          n <- sys K (Write fd buf) ;;
          if negb (n =? Z.of_nat (String.length buf)) then ret (-1)
          else
            sys K (Close fd) ;;
            ret 0.

(** One "open, write, close" of setup_cgroup_limits. *)
Definition cgroup_write (path data : string) : M (option Z) :=
  fd <- sys K (Open path O_WRONLY 0) ;;
  if fd <? 0 then e <- get_errno ;; ret (Some (- e))
  else
    n <- sys K (Write fd data) ;;
    if n <? 0 then e <- get_errno ;; ret (Some (- e))
    else sys K (Close fd) ;; ret None.

(** The first block of setup_cgroup_limits: "Enable CPU/memory
    controller". *)
Definition enable_controllers : M (option Z) :=
  fd <- sys K (Open "/sys/fs/cgroup/cgroup.subtree_control" O_WRONLY 0) ;;
  if fd >=? 0 then
    n <- sys K (Write fd "+memory") ;;
    e <- get_errno ;;
    if (n <? 0) && negb (e =? EBUSY) then ret (Some (- e))
    else
      n <- sys K (Write fd "+cpu") ;;
      e <- get_errno ;;
      if (n <? 0) && negb (e =? EBUSY) then ret (Some (- e))
      else sys K (Close fd) ;; ret None
  else ret None.

Definition setup_cgroup_limits (pid : Z) (cpus : float) (memory : Z) : M Z :=
  and_then enable_controllers
  (and_then
    (* Create cgroup directory under /sys/fs/cgroup. *)
    (r <- mkdir_safe K (cgroup_dir pid) 493 ;;
     if r =? -1 then e <- get_errno ;; ret (Some (- e)) else ret None)
  (and_then
    (* CPU limit *)
    (if (0 <? cpus)%float then cgroup_write (cgroup_file pid "cpu.max") (cpu_max_text cpus)
     else ret None)
  (and_then
    (* Memory limit *)
    (if memory >? 0 then
       r <- cgroup_write (cgroup_file pid "memory.max") (dec memory) ;;
       match r with
       | Some rc => ret (Some rc)
       | None => cgroup_write (cgroup_file pid "memory.swap.max") "0"
       end
     else ret None)
    (* Attach the process to the new cgroup. *)
    (r <- cgroup_write (cgroup_file pid "cgroup.procs") (dec pid) ;;
     match r with
     | Some rc => ret rc
     | None => ret 0
     end)))).

End WithKernel.

(** merge: env2 overrides env1 on equal names, new names are appended. *)
Fixpoint override (out : list env_var_t) (v : env_var_t) : option (list env_var_t) :=
  match out with
  | [] => None
  | o :: rest =>
      if String.eqb (name o) (name v)
      then Some ({| name := name o; value := value v |} :: rest)
      else match override rest v with
           | Some rest' => Some (o :: rest')
           | None => None
           end
  end.

Definition merge (env1 env2 : list env_var_t) : list env_var_t :=
  fold_left (fun out v => match override out v with
                          | Some out' => out'
                          | None => out ++ [v]
                          end) env2 env1.

Definition flatten_env (env : list env_var_t) : list string :=
  map (fun v => name v +++ "=" +++ value v) env.

(** merge_syscall_lists: the deny list and the allow overrides handed to
    microbox_setup_seccomp; the allow list is NULL (None) in the first
    case. *)
Definition merge_syscall_lists (opts : sandbox_options_t)
  : Z * (list string * option (list string)) :=
  let default_denylist := microbox_get_docker_default_denylist in
  if ((List.length (syscalls_deny opts) =? 0) && (List.length (syscalls_allow opts) =? 0))%nat
  then (0, (default_denylist, None))
  else (0, (default_denylist ++ syscalls_deny opts, Some (syscalls_allow opts))).

Section WithKernel.
Variable K : kernel.

Definition clone_flags (opts : sandbox_options_t) : Z :=
  let flags :=
    Z.lor (Z.lor (Z.lor (Z.lor (Z.lor (Z.lor CLONE_NEWUSER CLONE_NEWPID) CLONE_NEWUTS)
                                      CLONE_NEWIPC) CLONE_PIDFD) CLONE_NEWCGROUP)
          CLONE_NEWTIME in
  let flags := if negb (net_mode_eqb (net_mode opts) NET_HOST)
               then Z.lor flags CLONE_NEWNET else flags in
  if negb (fs_mode_eqb (fs_mode opts) FS_HOST) then Z.lor flags CLONE_NEWNS else flags.

(** merged_env in the child: safe_env, or with --env variables
    merge(safe_env, opts->env).  merge and env_len scan opts->env for an
    entry whose name is NULL.  cli_parse_options stores exactly env_len
    entries and none after them, so the scan reads on past the end of the
    array: it takes what it finds there for entries, up to a NULL name,
    and where the memory cannot be read that far the read faults and the
    child is ended by SIGSEGV (None). *)
Definition child_merged_env (opts : sandbox_options_t) : option (list env_var_t) :=
  match env opts with
  | Some e =>
      match k_env_past K with
      | Some past => Some (merge safe_env (e ++ past))
      | None => None
      end
  | None => Some safe_env
  end.

(** The child branch of microbox_sandbox_spawn ([pid == 0]).  It never
    returns: it ends in execve or in _exit(127), or in the fault of
    [child_merged_env]. *)
Definition spawn_child (opts : sandbox_options_t) (sync_pipe : Z * Z) : M outcome :=
  (* WAIT_FOR_PARENT *)
  r <- sys K (Read (fst sync_pipe) 1) ;;
  if r <? 0 then ret (Exited 127)
  else
    sys K (Close (fst sync_pipe)) ;;
    (* UTS hostname. *)
    r <- match hostname opts with
         | Some h => sys K (Sethostname h)
         | None => ret 0
         end ;;
    if r <? 0 then ret (Exited 127)
    else
      (* Setup the sandbox filesystem. *)
      r <- microsandbox_setup_fs K opts ;;
      if r <? 0 then ret (Exited 127)
      else
        (* Configure container networking *)
        r <- (if net_mode_eqb (net_mode opts) NET_BRIDGE then
                parent_pid <- lib K Getppid ;;
                let '(rc, net_config) := generate_interface_names parent_pid in
                if negb (rc =? 0) then ret (-1)
                else
                  rc <- microbox_configure_container_network K net_config ;;
                  if negb (rc =? 0) then ret (-1) else ret 0
              else ret 0) ;;
        if r <? 0 then ret (Exited 127)
        else
          (* Drop all capabilities: commented out in the source. *)
          (* Apply seccomp filter with merged syscall lists. *)
          let '(rc, (final_denylist, final_allowlist)) := merge_syscall_lists opts in
          if rc <? 0 then ret (Exited 127)
          else
            r <- microbox_setup_seccomp K final_denylist final_allowlist ;;
            if r <? 0 then ret (Exited 127)
            else
              (* Execute the user-provided binary in the sandbox. *)
              match child_merged_env opts with
              | None => ret (Signalled SIGSEGV)
              | Some merged_env =>
                  let flat_env := flatten_env merged_env in
                  r <- sys K (Execve (hd "" (cmd opts)) (cmd opts) flat_env) ;;
                  if r <? 0 then ret (Exited 127) else ret Execed
              end.

(** The parent branch, after [process->pid = pid]. *)
Definition spawn_parent (opts : sandbox_options_t) (sync_pipe : Z * Z) (pid : Z)
  : M outcome :=
  (* Setup UID/GID mapping. *)
  r <- setup_uid_gid_map K pid ;;
  if r <? 0 then e <- get_errno ;; ret (Returned (- e))
  else
    early <-
      (if net_mode_eqb (net_mode opts) NET_BRIDGE then
         uid <- lib K Getuid ;;
         if negb (uid =? 0) then ret (Some (-1))
         else
           let '(rc, net_config) := generate_interface_names pid in
           if negb (rc =? 0) then ret (Some (-1))
           else
             rc <- microbox_setup_bridge_network K net_config ;;
             if negb (rc =? 0) then ret (Some (-1))
             else
               rc <- move_veth_to_container K net_config pid ;;
               if negb (rc =? 0) then ret (Some (-1)) else ret None
       else ret None) ;;
    match early with
    | Some rc => ret (Returned rc)
    | None =>
        (* Setup cgroup limits. *)
        r <- setup_cgroup_limits K pid (cpus opts) (memory opts) ;;
        if r <? 0 then e <- get_errno ;; ret (Returned (- e))
        else
          (* Unblock child: SIGNAL_CHILD *)
          r <- sys K (Write (snd sync_pipe) "X") ;;
          if r <? 0 then ret (Exited 127)
          else
            sys K (Close (snd sync_pipe)) ;;
            ret (Returned 0)
    end.

(** microbox_sandbox_spawn.  None stands for a NULL argument.  The result
    is how the function ends in the process that runs it, with the
    sandbox_process_t as it is then. *)
Definition microbox_sandbox_spawn (opts : option sandbox_options_t)
    (process : option sandbox_process_t) : M (outcome * option sandbox_process_t) :=
  match opts, process with
  | Some opts, Some process =>
      (* MAKE_PIPE *)
      r <- sys K Pipe ;;
      if r <? 0 then ret (Exited 127, Some process)
      else
        sync_pipe <- pipe_fds K ;;
        (* Create a new process in a new namespace. *)
        pid <- sys K (Clone3 (clone_flags opts) SIGCHLD) ;;
        if pid <? 0 then
          sys K (Close (fst sync_pipe)) ;;
          sys K (Close (snd sync_pipe)) ;;
          e <- get_errno ;;
          ret (Returned (- e), Some process)
        else if pid =? 0 then
          o <- spawn_child opts sync_pipe ;;
          ret (o, Some process)
        else
          fd <- out_pidfd K ;;
          let process := {| pidfd := fd; pid := pid |} in
          o <- spawn_parent opts sync_pipe pid ;;
          ret (o, Some process)
  | _, _ => ret (Returned (- EINVAL), process)
  end.

Definition microbox_sandbox_wait (proc : option sandbox_process_t) : M Z :=
  match proc with
  | None => ret (- EINVAL)
  | Some proc =>
      (* Wait for the child process to exit. *)
      r <- sys K (Waitid P_PIDFD (pidfd proc) WEXITED) ;;
      if r =? -1 then e <- get_errno ;; ret (- e)
      else
        ' (si_code, si_status) <- siginfo K ;;
        (* Clean up network interfaces after container exits *)
        microbox_cleanup_network_interfaces K (pid proc) ;;
        if si_code =? CLD_EXITED then ret si_status
        else if (si_code =? CLD_KILLED) || (si_code =? CLD_DUMPED)
        then ret (128 + si_status)
        else ret 0
  end.

(** main, after the command line has been parsed into [opts]. *)
Definition microbox_main (opts : sandbox_options_t) : M outcome :=
  let proc := {| pidfd := -1; pid := -1 |} in
  ' (o, proc) <- microbox_sandbox_spawn (Some opts) (Some proc) ;;
  match o with
  | Returned code =>
      if code <? 0 then ret (Exited EXIT_FAILURE)
      else
        status <- microbox_sandbox_wait proc ;;
        ret (Returned status)
  | other => ret other
  end.

End WithKernel.
End Sandbox.

(* ================================================================== *)
(** * Reading a trace                                                  *)
(* ================================================================== *)

Module Observe.
Import Libc Data Sys.

(** The table of open files: descriptor and the path it was opened on,
    newest first. *)
Definition fd_table : Type := list (Z * string).

Fixpoint fd_path (fds : fd_table) (fd : Z) : option string :=
  match fds with
  | [] => None
  | (d, p) :: rest => if d =? fd then Some p else fd_path rest fd
  end.

Fixpoint fd_close (fds : fd_table) (fd : Z) : fd_table :=
  match fds with
  | [] => []
  | (d, p) :: rest => if d =? fd then fd_close rest fd else (d, p) :: fd_close rest fd
  end.

(** The write calls of a trace that go to files: path of the descriptor,
    buffer handed to write, and result. *)
Fixpoint file_writes_from (fds : fd_table) (tr : list event)
  : list (string * string * Z) :=
  match tr with
  | [] => []
  | (Open p _ _, r) :: rest =>
      file_writes_from (if r <? 0 then fds else (r, p) :: fds) rest
  | (Close fd, _) :: rest => file_writes_from (fd_close fds fd) rest
  | (Write fd buf, r) :: rest =>
      match fd_path fds fd with
      | Some p => (p, buf, r) :: file_writes_from fds rest
      | None => file_writes_from fds rest
      end
  | _ :: rest => file_writes_from fds rest
  end.

Definition file_writes (tr : list event) : list (string * string * Z) :=
  file_writes_from [] tr.

(** The table of open files after the calls of a trace. *)
Fixpoint fd_table_after (fds : fd_table) (tr : list event) : fd_table :=
  match tr with
  | [] => fds
  | (Open p _ _, r) :: rest =>
      fd_table_after (if r <? 0 then fds else (r, p) :: fds) rest
  | (Close fd, _) :: rest => fd_table_after (fd_close fds fd) rest
  | _ :: rest => fd_table_after fds rest
  end.

(** The buffers written to one path. *)
Definition writes_to (path : string) (tr : list event) : list string :=
  map (fun w => snd (fst w))
      (filter (fun w => String.eqb (fst (fst w)) path) (file_writes tr)).

Definition is_open (c : syscall) : bool :=
  match c with Open _ _ _ => true | _ => false end.
Definition is_write (c : syscall) : bool :=
  match c with Write _ _ => true | _ => false end.
Definition is_mount (c : syscall) : bool :=
  match c with Mount _ _ _ _ _ => true | _ => false end.
Definition is_pivot_root (c : syscall) : bool :=
  match c with PivotRoot _ _ => true | _ => false end.
Definition is_umount (c : syscall) : bool :=
  match c with Umount2 _ _ => true | _ => false end.
Definition is_chdir (c : syscall) : bool :=
  match c with Chdir _ => true | _ => false end.

Definition is_seccomp_load (c : syscall) : bool :=
  match c with SeccompLoad _ => true | _ => false end.

(** The first event whose call satisfies [p], with what is before and
    after it. *)
Fixpoint split_at (p : syscall -> bool) (tr : list event)
  : option (list event * event * list event) :=
  match tr with
  | [] => None
  | ev :: rest =>
      if p (fst ev) then Some ([], ev, rest)
      else match split_at p rest with
           | Some (pre, x, post) => Some (ev :: pre, x, post)
           | None => None
           end
  end.

Definition load_ev (ev : event) : bool := is_seccomp_load (fst ev).
Definition pivot_ev (ev : event) : bool := is_pivot_root (fst ev).

(** What a parent can do so that a child blocked in read on the barrier
    pipe goes on or goes away: put a byte in, close the write end [wfd], or
    send a signal to [pid]. *)
Definition touches_barrier (wfd pid : Z) (ev : event) : bool :=
  match ev with
  | (Write fd _, _) => fd =? wfd
  | (Close fd, _) => fd =? wfd
  | (Kill p _, _) => p =? pid
  | _ => false
  end.

Definition untouched (wfd pid : Z) (ev : event) : Prop :=
  touches_barrier wfd pid ev = false.

(** The control file of the root cgroup where controllers are enabled. *)
Definition subtree_control : string := "/sys/fs/cgroup/cgroup.subtree_control".

End Observe.

(* ================================================================== *)
(** * Reasoning about monadic code                                     *)
(* ================================================================== *)

Module Logic.
Import Sys.

(** [wp m s Q]: running [m] from [s] ends with a value and a state that
    satisfy [Q]. *)
Definition wp {A} (m : M A) (s : pstate) (Q : A -> pstate -> Prop) : Prop :=
  Q (fst (m s)) (snd (m s)).

(** A state given by the trace before the code under study, the events
    added since, and errno. *)
Definition st (before added : list event) (e : Z) : pstate :=
  {| trace := before ++ added; errno := e |}.

End Logic.

(* ================================================================== *)
(** * Kernels to run the code on                                       *)
(* ================================================================== *)

Module Examples.
Import Libc Data Sys.

(** A kernel where every call succeeds: open gives descriptor 3, write
    takes the whole buffer, the caller is uid and gid 1000, clone3 gives
    the parent the child pid 4242, every path is a directory, the
    child exits with status 0, and the memory after opts->env holds a NULL
    name. *)
Definition ok_ret (c : syscall) : Z :=
  match c with
  | Open _ _ _ => 3
  | Write _ buf => Z.of_nat (String.length buf)
  | Read _ n => n
  | Getuid => 1000
  | Getgid => 1000
  | Getpid => 100
  | Getppid => 100
  | Clone3 _ _ => 4242
  | Socket _ _ _ => 5
  | Recvmsg _ => 36
  | IfNametoindex _ => 7
  | _ => 0
  end.

Definition resolve_x86_64 (name : string) : Z :=
  if String.eqb name "mount" then 165
  else if String.eqb name "umount2" then 166
  else if String.eqb name "ptrace" then 101
  else if String.eqb name "reboot" then 169
  else if String.eqb name "clone3" then 435
  else if String.eqb name "bpf" then 321
  else if String.eqb name "chroot" then 161
  else __NR_SCMP_ERROR.

Definition K_ok : kernel :=
  {| k_ret := fun _ c => ok_ret c;
     k_stat_mode := fun _ _ => S_IFDIR;
     k_siginfo := fun _ => (CLD_EXITED, 0);
     k_pipe_fds := fun _ => (8, 9);
     k_pidfd := fun _ => 10;
     k_nlmsg := fun _ => (0, NLMSG_ERROR, 0);
     k_resolve := resolve_x86_64;
     k_env_past := Some [] |}.

(** [K] with the answers of [f] where it gives one. *)
Definition with_ret (f : syscall -> option Z) (K : kernel) : kernel :=
  {| k_ret := fun h c => match f c with Some r => r | None => k_ret K h c end;
     k_stat_mode := k_stat_mode K;
     k_siginfo := k_siginfo K;
     k_pipe_fds := k_pipe_fds K;
     k_pidfd := k_pidfd K;
     k_nlmsg := k_nlmsg K;
     k_resolve := k_resolve K;
     k_env_past := k_env_past K |}.

(** microbox --fs tmpfs -- /bin/true, and the same with --net bridge. *)
Definition opts_tmpfs : sandbox_options_t :=
  {| fs_mode := FS_TMPFS; net_mode := NET_NONE; rootfs := None;
     hostname := Some "microbox"; cpus := 0; memory := 0; mounts := [];
     mount_proc := false; mount_dev := false; env := None;
     syscalls_allow := []; syscalls_deny := []; cmd := ["/bin/true"] |}.

Definition opts_bridge : sandbox_options_t :=
  {| fs_mode := FS_TMPFS; net_mode := NET_BRIDGE; rootfs := None;
     hostname := Some "microbox"; cpus := 0; memory := 0; mounts := [];
     mount_proc := false; mount_dev := false; env := None;
     syscalls_allow := []; syscalls_deny := []; cmd := ["/bin/true"] |}.

(** The process that clone3 answers 0 to is the child. *)
Definition K_child : kernel :=
  with_ret (fun c => match c with Clone3 _ _ => Some 0 | _ => None end) K_ok.

(** The child again; here its read on the barrier returns 0, the end of
    file. *)
Definition K_child_eof : kernel :=
  with_ret (fun c => match c with
                     | Clone3 _ _ => Some 0
                     | Read _ _ => Some 0
                     | _ => None
                     end) K_ok.

(** The child is killed by signal 9; the child exits with status 3;
    waitid fails with ECHILD (errno 10). *)
Definition with_siginfo (si : Z * Z) (K : kernel) : kernel :=
  {| k_ret := k_ret K;
     k_stat_mode := k_stat_mode K;
     k_siginfo := fun _ => si;
     k_pipe_fds := k_pipe_fds K;
     k_pidfd := k_pidfd K;
     k_nlmsg := k_nlmsg K;
     k_resolve := k_resolve K;
     k_env_past := k_env_past K |}.

Definition K_killed9 : kernel := with_siginfo (CLD_KILLED, 9) K_ok.
Definition K_exit3 : kernel := with_siginfo (CLD_EXITED, 3) K_ok.
Definition K_waitid_fails : kernel :=
  with_ret (fun c => match c with Waitid _ _ _ => Some (-10) | _ => None end) K_ok.

(** No interface has the name asked for. *)
Definition K_no_veth : kernel :=
  with_ret (fun c => match c with IfNametoindex _ => Some 0 | _ => None end) K_ok.

Definition proc_4242 : sandbox_process_t := {| pidfd := 10; pid := 4242 |}.

(** microbox --cpus 0.5 --memory 10M, and its child with pid 4242. *)
Definition half_cpu : float := 0.5%float.
Definition ten_MiB : Z := 10485760.

(** microbox --allow-syscall ptrace --deny-syscall chroot -- /bin/true *)
Definition opts_syscalls : sandbox_options_t :=
  {| fs_mode := FS_TMPFS; net_mode := NET_NONE; rootfs := None;
     hostname := Some "microbox"; cpus := 0; memory := 0; mounts := [];
     mount_proc := false; mount_dev := false; env := None;
     syscalls_allow := ["ptrace"]; syscalls_deny := ["chroot"];
     cmd := ["/bin/true"] |}.

(** microbox --fs tmpfs --proc --dev --mount-ro /srv:/data -- /bin/true, and
    the same on the root file system /rootfs. *)
Definition opts_tmpfs_full : sandbox_options_t :=
  {| fs_mode := FS_TMPFS; net_mode := NET_NONE; rootfs := None;
     hostname := Some "microbox"; cpus := 0; memory := 0;
     mounts := [ {| host := "/srv"; dest := "/data"; mode := MNT_RO |} ];
     mount_proc := true; mount_dev := true; env := None;
     syscalls_allow := []; syscalls_deny := []; cmd := ["/bin/true"] |}.

Definition opts_rootfs_full : sandbox_options_t :=
  {| fs_mode := FS_ROOTFS; net_mode := NET_NONE; rootfs := Some "/rootfs";
     hostname := Some "microbox"; cpus := 0; memory := 0;
     mounts := [ {| host := "/srv"; dest := "/data"; mode := MNT_RO |} ];
     mount_proc := true; mount_dev := true; env := None;
     syscalls_allow := []; syscalls_deny := []; cmd := ["/bin/true"] |}.

(** Every bind mount fails (the source cannot be bound), all else
    succeeds. *)
Definition K_bind_fails : kernel :=
  with_ret (fun c => match c with
                     | Mount (Some _) _ None _ None => Some (-13)
                     | _ => None
                     end) K_ok.

(** The caller has the uid 4294967294. *)
Definition K_uid_nobody : kernel :=
  with_ret (fun c => match c with Getuid => Some 4294967294 | _ => None end) K_ok.

(** The write of "deny" stops after two bytes. *)
Definition K_short_deny : kernel :=
  with_ret (fun c => match c with
                     | Write _ "deny" => Some 2
                     | _ => None
                     end) K_ok.

End Examples.

(** What the identity mapper is expected to write, in order: path, buffer
    and result of each write. *)
Module IdentitySpec.
Import Libc Data Sys Sandbox Observe.

Definition map_text (id : Z) : string := "0 " +++ dec id +++ " 1" +++ newline.

Definition uid_gid_writes (pid uid gid r1 r2 r3 : Z) : list (string * string * Z) :=
  [ (proc_pid_path pid "setgroups", "deny", r1);
    (proc_pid_path pid "uid_map", map_text uid, r2);
    (proc_pid_path pid "gid_map", map_text gid, r3) ].

(** What holds of a run of setup_uid_gid_map with result [rc] and events
    [ext], for the real ids [uid] and [gid]: the result is 0 or -1; the
    writes to files are a beginning of the three expected ones; on success
    all three were made, the two maps completely; and on success no open
    and no write had failed. *)
Definition mapper_post (pid uid gid : Z) (rc : Z) (ext : list event) : Prop :=
  (rc = 0 \/ rc = -1) /\
  (exists r1 r2 r3 rest,
      uid_gid_writes pid uid gid r1 r2 r3 = file_writes ext ++ rest) /\
  (rc = 0 ->
   exists r1, 0 <= r1 /\
     file_writes ext
     = uid_gid_writes pid uid gid r1
         (Z.of_nat (String.length (map_text uid)))
         (Z.of_nat (String.length (map_text gid)))) /\
  (rc = 0 -> forall c r, In (c, r) ext -> is_open c || is_write c = true -> 0 <= r).

(** The map lines without the newline at the end, and the rule that every
    write which is not complete fails the step: the mapper as C7 words
    it. *)
Definition plain_map_text (id : Z) : string := "0 " +++ dec id +++ " 1".

Definition claimed_uid_gid_map (K : kernel) (pid uid gid : Z) (s : pstate) : Prop :=
  let rc := fst (setup_uid_gid_map K pid s) in
  let ext := emitted (setup_uid_gid_map K pid) s in
  (exists r1 r2 r3 rest,
      [ (proc_pid_path pid "setgroups", "deny", r1);
        (proc_pid_path pid "uid_map", plain_map_text uid, r2);
        (proc_pid_path pid "gid_map", plain_map_text gid, r3) ]
      = file_writes ext ++ rest) /\
  (forall fd buf r, In (Write fd buf, r) ext ->
                    r <> Z.of_nat (String.length buf) -> rc < 0).

End IdentitySpec.

Module TraceProps.
Import Sys Logic.

(** [emits_only P m]: whatever the state, [m] only adds events that
    satisfy [P] to the trace, and removes none. *)
Definition emits_only {A} (P : event -> Prop) (m : M A) : Prop :=
  forall before e,
    wp m (st before [] e)
       (fun _ s' => exists added e', s' = st before added e' /\ Forall P added).

Definition any_event (ev : event) : Prop := True.

End TraceProps.

(** What a run of microbox_cleanup_network_interfaces looks like, for the
    host-side interface name [ifname]: the netlink socket is opened and
    bound; then the index of [ifname] is asked for; when there is none, the
    socket is closed and the result is 0. *)
Module TeardownSpec.
Import Libc Data Sys.

Definition veth_host_name (pid : Z) : string := "mbx" +++ dec (pid mod 254) +++ "h".

(** The interface name fits its 16 byte buffer. *)
Definition name_fits (n : nat) : bool :=
  String.eqb (snprintf 16 ("mbx" +++ dec (Z.of_nat n) +++ "h"))
             ("mbx" +++ dec (Z.of_nat n) +++ "h").

(** The request to delete the interface with index [idx]: RTM_DELLINK with
    the first sequence number of the handle, sent on the socket.  When
    sendmsg fails nothing is received; either way the socket is closed at
    the end, and the result is -1 when a call failed. *)
Definition delete_requested (sock idx rc : Z) (rest : list event) : Prop :=
  exists self sent rest3,
    rest = (Getpid, self)
           :: (Sendmsg sock RTM_DELLINK (Z.lor NLM_F_REQUEST NLM_F_ACK) 1 idx, sent)
           :: rest3 /\
    (sent < 0 -> rc = -1 /\ exists c, rest3 = [(Close sock, c)]) /\
    (0 <= sent ->
     exists bytes c,
       rest3 = [(Recvmsg sock, bytes); (Close sock, c)] /\
       (bytes < 0 -> rc = -1) /\ (rc = 0 \/ rc = -1)).

(** A run of the cleanup for the interface name [ifname], with result
    [rc]: the socket is opened and bound, the index of the name is asked
    for; without an index nothing is sent and the result is 0, with one
    the deletion is requested. *)
Definition cleanup_post (ifname : string) (rc : Z) (added : list event) : Prop :=
  exists sock rest,
    added = (Socket AF_NETLINK SOCK_RAW NETLINK_ROUTE, sock) :: rest /\
    (sock < 0 -> rc = -1 /\ rest = []) /\
    (0 <= sock ->
     exists self b rest1,
       rest = (Getpid, self) :: (Bind sock self, b) :: rest1 /\
       (b < 0 -> rc = -1 /\ exists c, rest1 = [(Close sock, c)]) /\
       (0 <= b ->
        exists idx rest2,
          rest1 = (IfNametoindex ifname, idx) :: rest2 /\
          (idx = 0 -> rc = 0 /\ exists c, rest2 = [(Close sock, c)]) /\
          (0 < idx -> delete_requested sock idx rc rest2))).

End TeardownSpec.

(** What setup_cgroup_limits is expected to write. *)
Module CgroupSpec.
Import Libc Data Sys Sandbox Observe.

(** The floor of a double: the largest integer not above it.  A finite
    double is (-1)^sign * m * 2^e; infinities and NaN have no floor. *)
Definition floor_double (x : float) : option Z :=
  match Prim2SF x with
  | S754_zero _ => Some 0
  | S754_finite sign m e =>
      let num := if sign then Zneg m else Zpos m in
      Some (if 0 <=? e then num * 2 ^ e else num / 2 ^ (- e))
  | _ => None
  end.

Definition cgroup_post (pid : Z) (cpus : float) (memory : Z) (rc : Z)
    (ext : list event) : Prop :=
  let cpu_max := writes_to (cgroup_file pid "cpu.max") ext in
  let memory_max := writes_to (cgroup_file pid "memory.max") ext in
  let swap_max := writes_to (cgroup_file pid "memory.swap.max") ext in
  (* cpu.max is written only for cpus > 0, and then with quota and period *)
  ((0 <? cpus)%float = false -> cpu_max = []) /\
  ((0 <? cpus)%float = true ->
     (cpu_max = [] \/ cpu_max = [cpu_max_text cpus]) /\
     (rc = 0 -> cpu_max = [cpu_max_text cpus])) /\
  (* memory.max and memory.swap.max are written only for memory > 0 *)
  (memory <= 0 -> memory_max = [] /\ swap_max = []) /\
  (0 < memory ->
     (memory_max = [] \/ memory_max = [dec memory]) /\
     (swap_max = [] \/ swap_max = ["0"] /\ memory_max = [dec memory]) /\
     (rc = 0 -> memory_max = [dec memory] /\ swap_max = ["0"])).

(** The first block of setup_cgroup_limits writes to
    cgroup.subtree_control only, and when the function goes on, no
    descriptor is left open. *)
Definition controllers_post (res : option Z) (added : list event) : Prop :=
  Forall (fun w => fst (fst w) = subtree_control) (file_writes added) /\
  (res = None -> fd_table_after [] added = []) /\
  (forall rc, res = Some rc -> rc < 0).

End CgroupSpec.

(** The deny rule set as the specification gives it. *)
Module SeccompSpec.
Import Libc Data Sys Seccomp.

(** A name is in (default_deny ∪ user_deny) \ user_allow. *)
Definition effective_deny (opts : sandbox_options_t) (name : string) : Prop :=
  In name (docker_default_denylist ++ syscalls_deny opts) /\
  ~ In name (syscalls_allow opts).

(** The test the loop of microbox_setup_seccomp makes on a name before it
    adds a rule for it. *)
Definition gets_rule (K : kernel) (allow_ovr : option (list string)) (name : string)
  : bool :=
  negb (String.length name =? 0)%nat
  && negb (match allow_ovr with
           | Some allow => name_in_list name allow
           | None => false
           end)
  && negb (k_resolve K name =? __NR_SCMP_ERROR).

Definition deny_rules (K : kernel) (allow_ovr : option (list string))
    (deny : list string) : list (Z * scmp_action) :=
  map (fun name => (k_resolve K name, SCMP_ACT_ERRNO ENOSYS))
      (filter (gets_rule K allow_ovr) deny).

(** The calls made by the loop: rules are added, and the context is
    released when that fails. *)
Definition loop_event (ev : event) : Prop :=
  match fst ev with
  | SeccompRuleAdd _ _ _ | SeccompRelease _ => True
  | _ => False
  end.

(** The shape of a run of microbox_setup_seccomp: seccomp_init fails; or
    the loop returns early; or the loop is followed by seccomp_load and
    seccomp_release of the context [f], which has default action ALLOW,
    the deny rules and the attributes seccomp_init gave it. *)
Definition seccomp_run (K : kernel) (deny : list string)
    (allow_ovr : option (list string)) (added : list event) : Prop :=
  exists r0 loop_events,
    Forall loop_event loop_events /\
    (added = [(SeccompInit SCMP_ACT_ALLOW, r0)] \/
     added = (SeccompInit SCMP_ACT_ALLOW, r0) :: loop_events \/
     exists r r',
       let f := {| def_action := SCMP_ACT_ALLOW;
                   rules := deny_rules K allow_ovr deny;
                   attr_ctl_nnp := 1 |} in
       added = (SeccompInit SCMP_ACT_ALLOW, r0) :: loop_events
               ++ [(SeccompLoad f, r); (SeccompRelease f, r')]).

End SeccompSpec.

(** The order of the calls that build the sandbox file system. *)
Module FsSpec.
Import Libc Data Sys Observe.

(** The calls that prepare the new root: directories, files, links and
    mounts. *)
Definition setup_call (c : syscall) : bool :=
  match c with
  | Mkdir _ _ | Mkdirat _ _ _ | Stat _ | Access _ _ | Open _ _ _ | Close _
  | Unlink _ | Symlink _ _ | Mount _ _ _ _ _ => true
  | _ => false
  end.

Definition setup_event (ev : event) : Prop := setup_call (fst ev) = true.

(** What follows a pivot_root that succeeded: back to "/", the old root
    detached and its directory removed. *)
Definition after_pivot : list syscall :=
  [Chdir "/"; Umount2 "/.old_root" MNT_DETACH; Rmdir "/.old_root"].

(** The end of a run, from the change into the new root on: nothing (the
    preparation returned early); a chdir that failed; chdir and a mkdir
    that failed; or chdir and mkdir that succeeded, pivot_root, and then a
    beginning of [after_pivot]. *)
Definition pivot_tail (new_root : string) (tail : list event) : Prop :=
  tail = [] \/
  (exists r1, r1 < 0 /\ tail = [(Chdir new_root, r1)]) \/
  (exists r1 r2, 0 <= r1 /\ r2 < 0 /\
     tail = [(Chdir new_root, r1); (Mkdir ".old_root" 448, r2)]) \/
  (exists r1 r2 r3 rest n,
     0 <= r1 /\ 0 <= r2 /\
     tail = (Chdir new_root, r1) :: (Mkdir ".old_root" 448, r2)
            :: (PivotRoot "." "./.old_root", r3) :: rest /\
     map fst rest = firstn n after_pivot /\
     (r3 < 0 -> rest = [])).

(** After the first call the run is the preparation followed by such an
    end. *)
Definition prepare_then_pivot (new_root : string) (rest : list event) : Prop :=
  exists setup tail,
    rest = setup ++ tail /\ Forall setup_event setup /\ pivot_tail new_root tail.

Definition private_root_mount : syscall :=
  Mount None "/" None (Z.lor MS_PRIVATE MS_REC) None.

Definition fs_run (new_root : string) (ext : list event) : Prop :=
  exists r0 rest,
    ext = (private_root_mount, r0) :: rest /\
    prepare_then_pivot new_root rest.

Definition new_root_of (opts : sandbox_options_t) : string :=
  match fs_mode opts with
  | FS_ROOTFS => "/box/overlay/merged"
  | _ => "/box"
  end.

End FsSpec.

(** The steps of microbox_bind_mount_dev, read off a run. *)
Module DevSpec.
Import Libc Data Sys Fs.

Definition dev_tmpfs_call (base : string) : syscall :=
  Mount (Some "tmpfs") (snprintf PATH_MAX (base +++ "/dev")) (Some "tmpfs")
        (Z.lor MS_NOSUID MS_NOEXEC) (Some "mode=755,size=2m").

Definition devpts_call (base : string) : syscall :=
  Mount (Some "devpts") (snprintf PATH_MAX (base +++ "/dev/pts")) (Some "devpts")
        (Z.lor MS_NOSUID MS_NOEXEC) (Some "newinstance,ptmxmode=0666,mode=620").

Definition ptmx_call (base : string) : syscall :=
  Symlink "pts/ptmx" (snprintf PATH_MAX (base +++ "/dev/ptmx")).

Definition dev_shm_call (base : string) : syscall :=
  Mount (Some "tmpfs") (snprintf PATH_MAX (base +++ "/dev/shm")) (Some "tmpfs")
        (Z.lor MS_NOSUID MS_NOEXEC) (Some "mode=1777,size=64m").

(** The tmpfs, devpts, ptmx symlink and shm steps have succeeded in a run:
    the tmpfs was mounted on <base>/dev, devpts was mounted on
    <base>/dev/pts or refused with EINVAL, which the code lets through, the
    symlink was made, and the tmpfs was mounted on <base>/dev/shm. *)
Definition dev_steps_ok (base : string) (ext : list event) : Prop :=
  (exists r, 0 <= r /\ In (dev_tmpfs_call base, r) ext) /\
  (exists r, (0 <= r \/ r = - EINVAL) /\ In (devpts_call base, r) ext) /\
  (exists r, 0 <= r /\ In (ptmx_call base, r) ext) /\
  (exists r, 0 <= r /\ In (dev_shm_call base, r) ext).

(** The bind mount of one device of the allowlist, and a run in which
    microbox_bind_mount was called for the device: its first call is the
    stat of the host path. *)
Definition device_bind_call (base d : string) : syscall :=
  Mount (Some d) (snprintf PATH_MAX (base +++ d)) None (Z.lor MS_BIND MS_REC) None.

Definition device_tried (ext : list event) (d : string) : Prop :=
  exists r, In (Stat d, r) ext.

(** mkdir and stat answer 0 or an error, never a positive value. *)
Definition dirs_answer (K : kernel) : Prop :=
  (forall h p m, k_ret K h (Mkdir p m) <= 0) /\
  (forall h p, k_ret K h (Stat p) <= 0).

End DevSpec.

(** The child branch, from the barrier to execve. *)
Module ChildSpec.
Import Libc Data Sys Seccomp SeccompSpec.

(** The calls of the child before the seccomp builder starts: neither
    prctl, nor a libseccomp call, nor execve. *)
Definition prepare_call (c : syscall) : bool :=
  match c with
  | Prctl _ _ | SeccompInit _ | SeccompRuleAdd _ _ _ | SeccompLoad _
  | SeccompRelease _ | Execve _ _ _ => false
  | _ => true
  end.

Definition prepare_event (ev : event) : Prop := prepare_call (fst ev) = true.

(** A run of the child: the preparation, then possibly the run of
    microbox_setup_seccomp on the merged lists, then possibly execve. *)
Definition child_run (K : kernel) (deny : list string)
    (allow_ovr : option (list string)) (ext : list event) : Prop :=
  exists pre sec post,
    ext = pre ++ sec ++ post /\
    Forall prepare_event pre /\
    (sec = [] \/ seccomp_run K deny allow_ovr sec) /\
    (post = [] \/ exists path argv envp r, post = [(Execve path argv envp, r)]).

End ChildSpec.

(* ================================================================== *)
(** * Reading an environment                                           *)
(* ================================================================== *)

(** What getenv finds in an environment array: the value of the first
    entry with the name; and the value of the last such entry. *)
Module EnvSpec.
Import Data Sandbox.

Fixpoint env_first (n : string) (env : list env_var_t) : option string :=
  match env with
  | [] => None
  | v :: rest => if String.eqb (name v) n then Some (value v) else env_first n rest
  end.

Fixpoint env_last (n : string) (env : list env_var_t) : option string :=
  match env with
  | [] => None
  | v :: rest =>
      match env_last n rest with
      | Some x => Some x
      | None => if String.eqb (name v) n then Some (value v) else None
      end
  end.

Definition env_names (env : list env_var_t) : list string := map name env.

(** One round of the second loop of merge. *)
Definition merge_step (out : list env_var_t) (v : env_var_t) : list env_var_t :=
  match override out v with
  | Some out' => out'
  | None => out ++ [v]
  end.

End EnvSpec.

(* ================================================================== *)
(** * parse.c: the command line                                        *)
(* ================================================================== *)

Module Cli.
Import Libc Data Sys Parse.

(** parse_net_mode; None is a NULL pointer. *)
Definition parse_net_mode (s : option string) : net_mode_t :=
  match s with
  | None => NET_NONE
  | Some s =>
      if String.eqb s EmptyString then NET_NONE
      else if String.eqb s "none" then NET_NONE
      else if String.eqb s "host" then NET_HOST
      else if String.eqb s "private" then NET_PRIVATE
      else if String.eqb s "bridge" then NET_BRIDGE
      else NET_INVALID
  end.

Definition parse_fs_mode (s : string) : fs_mode_t :=
  if String.eqb s "host" then FS_HOST
  else if String.eqb s "tmpfs" then FS_TMPFS
  else FS_ROOTFS.

(** The test of find_first_double_dash on one argument:
    [a[0] == '-' && a[1] == '-' && a[2] == 0].  The end of a C string is
    the end of the Rocq string. *)
Definition is_double_dash (a : string) : bool :=
  match a with
  | String c0 a1 =>
      Ascii.eqb c0 "-"
      && match a1 with
         | String c1 a2 =>
             Ascii.eqb c1 "-"
             && match a2 with EmptyString => true | String _ _ => false end
         | EmptyString => false
         end
  | EmptyString => false
  end.

(** The loop of find_first_double_dash, from index [i] on. *)
Fixpoint find_first_double_dash_from (i : Z) (argv : list string) : Z :=
  match argv with
  | [] => -1
  | a :: rest =>
      if is_double_dash a then i else find_first_double_dash_from (i + 1) rest
  end.

Definition find_first_double_dash (argv : list string) : Z :=
  find_first_double_dash_from 0 argv.

(** strchr for a character that is not NUL: the index of its first
    occurrence. *)
Fixpoint strchr (s : string) (c : ascii) : option nat :=
  match s with
  | EmptyString => None
  | String d rest =>
      if Ascii.eqb d c then Some O
      else match strchr rest c with
           | Some i => Some (S i)
           | None => None
           end
  end.

(** What the three option loops of cli_parse_options do with one
    argument: it is cut at the first [sep]; None when the test
    [!c || c == spec || !c[1]] sends the process to exit. *)
Definition split_spec (sep : ascii) (spec : string) : option (string * string) :=
  match strchr spec sep with
  | None => None
  | Some i =>
      let after := substring (S i) (String.length spec - S i) spec in
      if (i =? 0)%nat || String.eqb after EmptyString then None
      else Some (substring 0 i spec, after)
  end.

(** The --env loop; None is exit(EXIT_FAILURE). *)
Fixpoint parse_env_specs (specs : list string) : option (list env_var_t) :=
  match specs with
  | [] => Some []
  | spec :: rest =>
      match split_spec "=" spec with
      | None => None
      | Some (key, val) =>
          match parse_env_specs rest with
          | Some env => Some ({| name := key; value := val |} :: env)
          | None => None
          end
      end
  end.

(** The --mount-ro loop. *)
Fixpoint parse_mount_ro (specs : list string) : option (list mount_spec_t) :=
  match specs with
  | [] => Some []
  | spec :: rest =>
      match split_spec ":" spec with
      | None => None
      | Some (h, d) =>
          match parse_mount_ro rest with
          | Some ms => Some ({| host := h; dest := d; mode := MNT_RO |} :: ms)
          | None => None
          end
      end
  end.

(** The --mount-rw loop, which also wants an absolute destination. *)
Fixpoint parse_mount_rw (specs : list string) : option (list mount_spec_t) :=
  match specs with
  | [] => Some []
  | spec :: rest =>
      match split_spec ":" spec with
      | None => None
      | Some (h, d) =>
          if negb (Ascii.eqb (deref d) "/") then None
          else
            match parse_mount_rw rest with
            | Some ms => Some ({| host := h; dest := d; mode := MNT_RW |} :: ms)
            | None => None
            end
      end
  end.

(** What arg_parse (argtable3) leaves in the argument table: an option
    that may be given once is an [option], a flag is a [bool] (its count is
    not 0), an option that may be repeated is the list of its values. *)
Record arg_results := {
  opt_fs : option string;
  opt_net : option string;
  opt_proc : bool;
  opt_dev : bool;
  opt_mro : list string;
  opt_mrw : list string;
  opt_env : list string;
  opt_syscall_allow : list string;
  opt_syscall_deny : list string;
  opt_hostnm : option string;
  opt_cpus : option float;
  opt_mem : option string;
  opt_help : bool;
  nerrors : Z
}.

(** cli_parse_options.  [arg_parse] stands for the parser of argtable3,
    which is handed the arguments before the delimiter.  The result is the
    options record, or the way the process exits.  Allocation failures are
    not modelled. *)
Definition cli_parse_options (arg_parse : list string -> arg_results)
    (argv : list string) : M (sandbox_options_t + outcome) :=
  let failure : M (sandbox_options_t + outcome) := ret (inr (Exited EXIT_FAILURE)) in
  let argc := Z.of_nat (List.length argv) in
  (* Find the delimiter. *)
  let delim_idx := find_first_double_dash argv in
  if delim_idx <? 0 then failure
  else
    (* Parse the arguments. *)
    let a := arg_parse (firstn (Z.to_nat delim_idx) argv) in
    if opt_help a then ret (inr (Exited EXIT_SUCCESS))
    else if negb (nerrors a =? 0) then failure
    else
      (* --fs parsing: host | DIR *)
      let o_fs_mode := match opt_fs a with
                       | Some val => parse_fs_mode val
                       | None => FS_TMPFS
                       end in
      let o_rootfs := match opt_fs a with
                      | Some val => if fs_mode_eqb o_fs_mode FS_ROOTFS then Some val
                                    else None
                      | None => None
                      end in
      (* --net parsing *)
      let o_net_mode := match opt_net a with
                        | Some val => parse_net_mode (Some val)
                        | None => NET_NONE
                        end in
      if net_mode_eqb o_net_mode NET_INVALID then failure
      else
        let o_hostname := match opt_hostnm a with
                          | Some h => h
                          | None => "microbox"
                          end in
        let o_cpus := match opt_cpus a with
                      | Some d => d
                      | None => 0%float
                      end in
        (* Memory cgroup limits. *)
        m <- cli_parse_memory (opt_mem a) ;;
        match m with
        | inr o => ret (inr o)
        | inl o_memory =>
            match parse_env_specs (opt_env a) with
            | None => failure
            | Some env_vars =>
                match parse_mount_ro (opt_mro a) with
                | None => failure
                | Some ro =>
                    match parse_mount_rw (opt_mrw a) with
                    | None => failure
                    | Some rw =>
                        let o_mounts := ro ++ rw in
                        (* positionals *)
                        if negb (delim_idx <? argc - 1) then failure
                        else
                          let o_cmd := skipn (Z.to_nat (delim_idx + 1)) argv in
                          (* Cross-option policy checks *)
                          if fs_mode_eqb o_fs_mode FS_HOST
                             && (0 <? Z.of_nat (List.length o_mounts))
                          then failure
                          else
                            ret (inl {| fs_mode := o_fs_mode;
                                        net_mode := o_net_mode;
                                        rootfs := o_rootfs;
                                        hostname := Some o_hostname;
                                        cpus := o_cpus;
                                        memory := o_memory;
                                        mounts := o_mounts;
                                        mount_proc := opt_proc a;
                                        mount_dev := opt_dev a;
                                        env := match opt_env a with
                                               | [] => None
                                               | _ :: _ => Some env_vars
                                               end;
                                        syscalls_allow := opt_syscall_allow a;
                                        syscalls_deny := opt_syscall_deny a;
                                        cmd := o_cmd |})
                    end
                end
            end
        end.

End Cli.

Module CliExamples.
Import Libc Data Sys Cli.

(** The argument table after [microbox --env LANG=C --mount-ro /etc:/etc]. *)
Definition args_env_mount : arg_results :=
  {| opt_fs := None; opt_net := None; opt_proc := false; opt_dev := false;
     opt_mro := ["/etc:/etc"]; opt_mrw := []; opt_env := ["LANG=C"];
     opt_syscall_allow := []; opt_syscall_deny := [];
     opt_hostnm := None; opt_cpus := None; opt_mem := None;
     opt_help := false; nerrors := 0 |}.

(** The argument table after [microbox --help]. *)
Definition args_help : arg_results :=
  {| opt_fs := None; opt_net := None; opt_proc := false; opt_dev := false;
     opt_mro := []; opt_mrw := []; opt_env := [];
     opt_syscall_allow := []; opt_syscall_deny := [];
     opt_hostnm := None; opt_cpus := None; opt_mem := None;
     opt_help := true; nerrors := 0 |}.

End CliExamples.

(* ================================================================== *)
(** * netns.c: addresses                                               *)
(* ================================================================== *)

Module NetAddr.
Import Libc Data Netns.

(** ntohl on a little-endian host swaps the bytes, as htonl does. *)
Definition ntohl (x : Z) : Z := htonl x.

(** inet_ntoa: the four bytes of the address as they lie in memory. *)
Definition inet_ntoa (s_addr : Z) : string :=
  dec (Z.land s_addr 255) +++ "." +++
  dec (Z.land (Z.shiftr s_addr 8) 255) +++ "." +++
  dec (Z.land (Z.shiftr s_addr 16) 255) +++ "." +++
  dec (Z.land (Z.shiftr s_addr 24) 255).

(** The subnet that setup_nat and cleanup_nat_rules compute from the
    bridge address: [ntohl(bridge_ip) & (0xFFFFFFFF << (32 - prefix_len))],
    in 32 bit unsigned arithmetic. *)
Definition nat_subnet (config : netns_config_t) : Z :=
  Z.land (ntohl (bridge_ip config))
         (Z.shiftl 4294967295 (32 - prefix_len config) mod 2 ^ 32).

(** Their [bridge_subnet] text, "%s/%d" in a buffer of 32 bytes. *)
Definition bridge_subnet (config : netns_config_t) : string :=
  snprintf 32 (inet_ntoa (htonl (nat_subnet config)) +++ "/"
               +++ dec (prefix_len config)).

(** What holds of the configuration generated for interface number [n]:
    the names fit their buffers and differ, the container address is
    172.20.0.(n+2) in network byte order, inside the subnet of the bridge
    and not the address of the bridge. *)
Definition config_ok (n : nat) : bool :=
  let id := Z.of_nat n in
  let cfg := snd (generate_interface_names id) in
  String.eqb (veth_host cfg) ("mbx" +++ dec id +++ "h")
  && String.eqb (veth_container cfg) ("mbx" +++ dec id +++ "c")
  && (String.length (veth_host cfg) <=? 15)%nat
  && (String.length (veth_container cfg) <=? 15)%nat
  && negb (String.eqb (veth_host cfg) (veth_container cfg))
  && (ntohl (container_ip cfg) =? MICROBOX_DEFAULT_BRIDGE_IP_SUBNET + id + 2)
  && String.eqb (inet_ntoa (container_ip cfg)) ("172.20.0." +++ dec (id + 2))
  && negb (container_ip cfg =? bridge_ip cfg)
  && (Z.land (ntohl (container_ip cfg))
            (Z.shiftl 4294967295 (32 - prefix_len cfg) mod 2 ^ 32)
      =? nat_subnet cfg)
  && String.eqb (bridge_subnet cfg) "172.20.0.0/16"
  && String.eqb (inet_ntoa (bridge_ip cfg)) "172.20.0.1".

End NetAddr.

(* ================================================================== *)
(** * Descriptors and results                                          *)
(* ================================================================== *)

Module ResourceSpec.
Import Libc Data Sys Utils Sandbox Observe.

(** What holds of a run of setup_cgroup_limits with result [rc]: it
    writes to cgroup.subtree_control and to files of the cgroup of [pid]
    only; its result is never positive; and when it is 0 the directory of
    the cgroup was asked for, the last write put the pid into cgroup.procs
    and no descriptor is left open. *)
Definition cgroup_attach_post (pid rc : Z) (ext : list event) : Prop :=
  Forall (fun w => fst (fst w) = subtree_control \/
                   exists f, fst (fst w) = cgroup_file pid f) (file_writes ext) /\
  rc <= 0 /\
  (rc = 0 ->
   fd_table_after [] ext = [] /\
   (exists r, In (Mkdir (cgroup_dir pid) 493, r) ext) /\
   exists pre n,
     file_writes ext = pre ++ [(cgroup_file pid "cgroup.procs", dec pid, n)] /\
     0 <= n).

(** The kernel of [K_ok] with real group id 100, where the write of the
    gid map stops after two bytes. *)
Definition K_short_gid_map : kernel :=
  Examples.with_ret (fun c => match c with
                              | Getgid => Some 100
                              | Write _ buf =>
                                  if String.eqb buf ("0 100 1" +++ newline) then Some 2
                                  else None
                              | _ => None
                              end) Examples.K_ok.

End ResourceSpec.

(* ================================================================== *)
(** * What a successful file system set-up has done                    *)
(* ================================================================== *)

Module MountSpec.
Import Libc Data Sys Fs Observe FsSpec.

(** The mount calls of a trace. *)
Definition mounts_of (ext : list event) : list event :=
  filter (fun ev => is_mount (fst ev)) ext.

Definition not_mount (ev : event) : Prop := is_mount (fst ev) = false.

(** The two mount calls of microbox_bind_mount for a spec. *)
Definition bind_target (base : string) (spec : mount_spec_t) : string :=
  snprintf PATH_MAX (base +++ dest spec).

Definition bind_call (base : string) (spec : mount_spec_t) : syscall :=
  Mount (Some (host spec)) (bind_target base spec) None (Z.lor MS_BIND MS_REC) None.

Definition remount_ro_call (base : string) (spec : mount_spec_t) : syscall :=
  Mount None (bind_target base spec) None
        (Z.lor (Z.lor (Z.lor MS_BIND MS_REMOUNT) MS_RDONLY) MS_NOSUID) None.

(** What holds of a run of microbox_bind_mount with result [rc]: the
    result is 0 or -1; a read-write spec is never remounted; and on 0 the
    mount calls made are the bind mount, and for a read-only spec the
    remount after it, all successful. *)
Definition bind_mount_post (base : string) (spec : mount_spec_t) (rc : Z)
    (ext : list event) : Prop :=
  (rc = 0 \/ rc = -1) /\
  (mode spec = MNT_RW ->
   mounts_of ext = [] \/ exists r, mounts_of ext = [(bind_call base spec, r)]) /\
  (rc = 0 ->
   match mode spec with
   | MNT_RW => exists r, 0 <= r /\ mounts_of ext = [(bind_call base spec, r)]
   | MNT_RO => exists r r', 0 <= r /\ 0 <= r' /\
                 mounts_of ext = [(bind_call base spec, r);
                                  (remount_ro_call base spec, r')]
   end).

(** The mount calls of a successful run over a list of specs. *)
Fixpoint bind_calls (base : string) (ms : list mount_spec_t) : list syscall :=
  match ms with
  | [] => []
  | m :: rest =>
      bind_call base m
      :: match mode m with
         | MNT_RO => remount_ro_call base m :: bind_calls base rest
         | MNT_RW => bind_calls base rest
         end
  end.

(** What enter_new_root has done when it returns 0. *)
Definition root_entered (new_root : string) (tail : list event) : Prop :=
  exists r1 r2 r3 r4 r5 r6,
    0 <= r1 /\ 0 <= r2 /\ 0 <= r3 /\ 0 <= r4 /\ 0 <= r5 /\ 0 <= r6 /\
    tail = [ (Chdir new_root, r1); (Mkdir ".old_root" 448, r2);
             (PivotRoot "." "./.old_root", r3); (Chdir "/", r4);
             (Umount2 "/.old_root" MNT_DETACH, r5); (Rmdir "/.old_root", r6) ].

(** What microsandbox_setup_tmpfs has done when it returns 0: the root was
    made private, the preparation made only calls that build the new root,
    among them the successful mount calls of every --mount option in
    order, and the root was entered. *)
Definition tmpfs_ready (opts : sandbox_options_t) (ext : list event) : Prop :=
  exists r0 pre user tail,
    0 <= r0 /\
    ext = (private_root_mount, r0) :: pre ++ user ++ tail /\
    Forall setup_event pre /\ Forall setup_event user /\
    map fst (mounts_of user) = bind_calls "/box" (mounts opts) /\
    Forall (fun ev => 0 <= snd ev) (mounts_of user) /\
    root_entered "/box" tail.

End MountSpec.

(* ================================================================== *)
(** * The three ways a run of microbox_setup_seccomp can go             *)
(* ================================================================== *)

Module SeccompShape.
Import Libc Data Sys Seccomp.

(** A seccomp_rule_add that succeeded. *)
Definition rule_added (ev : event) : Prop :=
  match fst ev with
  | SeccompRuleAdd _ _ _ => 0 <= snd ev
  | _ => False
  end.

(** How the loop over the deny list ends early: after rules that were
    added, one seccomp_rule_add fails and the context is released. *)
Definition rule_refused (added : list event) : Prop :=
  exists adds ctx act nr r ctx' r',
    Forall rule_added adds /\ r < 0 /\
    added = adds ++ [(SeccompRuleAdd ctx act nr, r); (SeccompRelease ctx', r')].

(** A run of microbox_setup_seccomp with result [rc]: seccomp_init fails,
    nothing else is called and the result is -ENOMEM; or a rule is refused,
    the context is released and nothing is loaded; or every rule is added,
    the filter is loaded and the context released, with result 0 when the
    load succeeded. *)
Definition seccomp_shape (rc : Z) (ext : list event) : Prop :=
  (exists r0, r0 < 0 /\ ext = [(SeccompInit SCMP_ACT_ALLOW, r0)] /\ rc = - ENOMEM) \/
  (exists r0 added,
     0 <= r0 /\ rule_refused added /\
     ext = (SeccompInit SCMP_ACT_ALLOW, r0) :: added) \/
  (exists r0 adds f r r',
     0 <= r0 /\ Forall rule_added adds /\
     ext = (SeccompInit SCMP_ACT_ALLOW, r0) :: adds
           ++ [(SeccompLoad f, r); (SeccompRelease f, r')] /\
     (0 <= r -> rc = 0)).

(** libseccomp refuses the rule for ptrace. *)
Definition K_refuse_ptrace : kernel :=
  Examples.with_ret (fun c => match c with
                              | SeccompRuleAdd _ _ nr =>
                                  if nr =? 101 then Some (- EINVAL) else None
                              | _ => None
                              end) Examples.K_ok.

End SeccompShape.

(* ================================================================== *)
(** * Sockets, and the parent after clone3                             *)
(* ================================================================== *)

Module SpawnSpec.
Import Libc Data Sys Netlink Netns Sandbox Observe.

(** The sockets that are open after the calls of a trace. *)
Fixpoint close_socket (socks : list Z) (fd : Z) : list Z :=
  match socks with
  | [] => []
  | d :: rest => if d =? fd then close_socket rest fd else d :: close_socket rest fd
  end.

Fixpoint sockets_after (socks : list Z) (tr : list event) : list Z :=
  match tr with
  | [] => socks
  | (Socket _ _ _, r) :: rest =>
      sockets_after (if r <? 0 then socks else r :: socks) rest
  | (Close fd, _) :: rest => sockets_after (close_socket socks fd) rest
  | _ :: rest => sockets_after socks rest
  end.

Definition is_sendmsg (c : syscall) : bool :=
  match c with Sendmsg _ _ _ _ _ => true | _ => false end.

(** A kernel where a write is complete or fails. *)
Definition no_short_writes (K : kernel) : Prop :=
  forall h fd buf,
    k_ret K h (Write fd buf) < 0 \/
    k_ret K h (Write fd buf) = Z.of_nat (String.length buf).

(** How the parent branch of microbox_sandbox_spawn ends, on a kernel
    without short writes: it never ends in execve or by a signal; it
    exits, with status 127, only when the write to the barrier has failed;
    it returns 0 or a negative value, and 0 only after the byte was
    written to the barrier and the write end closed, as its last two
    calls. *)
Definition parent_post (wfd : Z) (o : outcome) (ext : list event) : Prop :=
  match o with
  | Execed => False
  | Signalled _ => False
  | Exited status =>
      status = 127 /\
      exists pre r, r < 0 /\ ext = pre ++ [(Write wfd "X", r)]
  | Returned rc =>
      rc <= 0 /\
      (rc = 0 ->
       exists pre c, ext = pre ++ [(Write wfd "X", 1); (Close wfd, c)])
  end.

End SpawnSpec.

Module ChildOutcome.
Import Libc Data Sys Sandbox Observe.

(** How the child branch ends.  Its first call is the read on the
    barrier, and when that fails it is the only call.  The child never
    returns into the caller: it exits with status 127; or the scan of
    opts->env faults and SIGSEGV ends it; or it has called execve, as its
    last call, on the first word of the command with the command as argv
    and the merged environment, flattened, and that call succeeded. *)
Definition child_post (K : kernel) (opts : sandbox_options_t) (rfd : Z)
    (o : outcome) (ext : list event) : Prop :=
  (exists r rest,
     ext = (Read rfd 1, r) :: rest /\
     (r < 0 -> rest = [] /\ o = Exited 127)) /\
  (o = Exited 127 \/
   o = Signalled SIGSEGV /\ child_merged_env K opts = None \/
   o = Execed /\
   exists pre r merged,
     0 <= r /\ child_merged_env K opts = Some merged /\
     ext = pre ++ [(Execve (hd "" (cmd opts)) (cmd opts) (flatten_env merged), r)]).

(** microbox --env LANG=C -- /bin/true *)
Definition opts_env : sandbox_options_t :=
  {| fs_mode := FS_TMPFS; net_mode := NET_NONE; rootfs := None;
     hostname := Some "microbox"; cpus := 0; memory := 0; mounts := [];
     mount_proc := false; mount_dev := false;
     env := Some [ {| name := "LANG"; value := "C" |} ];
     syscalls_allow := []; syscalls_deny := []; cmd := ["/bin/true"] |}.

(** The memory after opts->env holds one more entry before a NULL name. *)
Definition K_env_past : kernel :=
  {| k_ret := k_ret Examples.K_ok;
     k_stat_mode := k_stat_mode Examples.K_ok;
     k_siginfo := k_siginfo Examples.K_ok;
     k_pipe_fds := k_pipe_fds Examples.K_ok;
     k_pidfd := k_pidfd Examples.K_ok;
     k_nlmsg := k_nlmsg Examples.K_ok;
     k_resolve := k_resolve Examples.K_ok;
     k_env_past := Some [ {| name := "HOME"; value := "/" |} ] |}.

(** The memory after opts->env cannot be read up to a NULL name. *)
Definition K_env_fault : kernel :=
  {| k_ret := k_ret Examples.K_ok;
     k_stat_mode := k_stat_mode Examples.K_ok;
     k_siginfo := k_siginfo Examples.K_ok;
     k_pipe_fds := k_pipe_fds Examples.K_ok;
     k_pidfd := k_pidfd Examples.K_ok;
     k_nlmsg := k_nlmsg Examples.K_ok;
     k_resolve := k_resolve Examples.K_ok;
     k_env_past := None |}.

End ChildOutcome.

(* ================================================================== *)
(** * utils.c: the directories of mkdirp; fs.c: buffers                *)
(* ================================================================== *)

Module MkdirSpec.
Import Libc Data Sys Utils Fs.

(** The paths of the mkdir calls of a trace, in order. *)
Fixpoint mkdir_paths (tr : list event) : list string :=
  match tr with
  | [] => []
  | (Mkdir p _, _) :: rest => p :: mkdir_paths rest
  | _ :: rest => mkdir_paths rest
  end.

Definition mkdir_or_stat (ev : event) : Prop :=
  match fst ev with
  | Mkdir _ mode => mode = 511
  | Stat _ => True
  | _ => False
  end.

(** There is a slash at index [i] of [path]. *)
Definition slash_at (path : string) (i : nat) : bool :=
  match String.get i path with
  | Some c => Ascii.eqb c "/"
  | None => false
  end.

(** The directories of a path: what is before each slash that is not the
    first character, shortest first, and the path itself. *)
Definition mkdirp_dirs (path : string) : list string :=
  map (fun i => substring 0 i path)
      (filter (slash_at path) (seq 1 (String.length path - 1)))
  ++ [path].

(** The directories the loop of mkdirp goes through, from index [i] on,
    where [rest] is what is left of the path. *)
Fixpoint loop_dirs (path rest : string) (i : nat) : list string :=
  match rest with
  | EmptyString => []
  | String c rest' =>
      if Ascii.eqb c "/" then substring 0 i path :: loop_dirs path rest' (S i)
      else loop_dirs path rest' (S i)
  end.

(** The size microsandbox_create_overlayfs computes for the options of
    the overlay mount, and the options as snprintf writes them into a
    buffer of that size. *)
Definition overlay_options_size (src upperdir workdir : string) : Z :=
  Z.of_nat (String.length src) + Z.of_nat (String.length upperdir)
  + Z.of_nat (String.length workdir)
  + Z.of_nat (String.length "lowerdir=,") + Z.of_nat (String.length "upperdir=,")
  + Z.of_nat (String.length "workdir=") + 1.

Definition overlay_options (src upperdir workdir : string) : string :=
  snprintf (overlay_options_size src upperdir workdir)
           ("lowerdir=" +++ src +++ ",upperdir=" +++ upperdir
            +++ ",workdir=" +++ workdir).

(** path_join as the source has it: snprintf into len1 + len2 + 2
    bytes. *)
Definition path_join_buffer (path1 path2 : string) : string :=
  snprintf (Z.of_nat (String.length path1) + Z.of_nat (String.length path2) + 2)
           (path1 +++ "/" +++ path2).

End MkdirSpec.

(** What a run of microsandbox_create_overlayfs leaves. *)
Module OverlaySpec.
Import Libc Data Sys Utils Fs Observe MkdirSpec.

Definition overlay_post (src mountpoint : string) (res : option overlayfs_t)
    (ext : list event) : Prop :=
  fd_table_after [] ext = [] /\
  (forall fs, res = Some fs ->
     fs = {| lowerdir := src;
             upperdir := path_join_buffer mountpoint "upper";
             workdir := path_join_buffer mountpoint "work";
             mergedir := path_join_buffer mountpoint "merged" |} /\
     exists fd r1 r2 r3 rc rm,
       0 <= fd /\ 0 <= r1 /\ 0 <= r2 /\ 0 <= r3 /\ 0 <= rm /\
       ext = [ (Open mountpoint (Z.lor (Z.lor O_DIRECTORY O_RDONLY) O_CLOEXEC) 0, fd);
               (Mkdirat fd "upper" 493, r1);
               (Mkdirat fd "work" 493, r2);
               (Mkdirat fd "merged" 493, r3);
               (Close fd, rc);
               (Mount (Some "overlay") (mergedir fs) (Some "overlay") 0
                      (Some (overlay_options src (upperdir fs) (workdir fs))), rm) ]) /\
  (res = None -> Forall (fun ev => is_mount (fst ev) = true -> snd ev < 0) ext).

End OverlaySpec.

(* ================================================================== *)
(** * Rules for stepping through the monad                             *)
(* ================================================================== *)

Module Rules.
Import Data Sys Logic.

Lemma wp_ret {A} (a : A) s (Q : A -> pstate -> Prop) :
  Q a s -> wp (ret a) s Q.
Proof. exact (fun H => H). Qed.

Lemma wp_bind {A B} (m : M A) (f : A -> M B) s (Q : B -> pstate -> Prop) :
  wp m s (fun a s' => wp (f a) s' Q) -> wp (bind m f) s Q.
Proof.
  unfold wp, bind. destruct (m s) as [a s']. exact (fun H => H).
Qed.

Lemma wp_conseq {A} (m : M A) s (Q Q' : A -> pstate -> Prop) :
  wp m s Q -> (forall a s', Q a s' -> Q' a s') -> wp m s Q'.
Proof. unfold wp. auto. Qed.

Lemma wp_sys K c before added e (Q : Z -> pstate -> Prop) :
  (forall r, r = k_ret K (before ++ added) c -> r < 0 ->
     Q (-1) (st before (added ++ [(c, r)]) (- r))) ->
  (forall r, r = k_ret K (before ++ added) c -> 0 <= r ->
     Q r (st before (added ++ [(c, r)]) e)) ->
  wp (sys K c) (st before added e) Q.
Proof.
  intros Hneg Hpos. unfold wp, sys, st. cbn [trace errno].
  rewrite <- app_assoc.
  destruct (Z.ltb_spec (k_ret K (before ++ added) c) 0); cbn [fst snd].
  - now apply Hneg.
  - now apply Hpos.
Qed.

Lemma wp_lib K c before added e (Q : Z -> pstate -> Prop) :
  (forall r, r = k_ret K (before ++ added) c ->
     Q r (st before (added ++ [(c, r)]) e)) ->
  wp (lib K c) (st before added e) Q.
Proof.
  intros H. unfold wp, lib, st. cbn [trace errno fst snd].
  rewrite <- app_assoc. now apply H.
Qed.

(** A system call whose result is dropped: one case, errno is whatever
    the call left. *)
Lemma wp_sys_drop {B} K c (k : M B) before added e (Q : B -> pstate -> Prop) :
  (forall r e', (r < 0 /\ e' = - r) \/ (0 <= r /\ e' = e) ->
     wp k (st before (added ++ [(c, r)]) e') Q) ->
  wp (bind (sys K c) (fun _ => k)) (st before added e) Q.
Proof.
  intros H. apply wp_bind. apply wp_sys; intros r _ Hr; apply H; lia.
Qed.

Lemma wp_get_errno before added e (Q : Z -> pstate -> Prop) :
  Q e (st before added e) -> wp get_errno (st before added e) Q.
Proof. exact (fun H => H). Qed.

Lemma wp_set_errno before added e e' (Q : unit -> pstate -> Prop) :
  Q tt (st before added e') -> wp (set_errno e') (st before added e) Q.
Proof. exact (fun H => H). Qed.

Lemma wp_stat_mode K path s (Q : Z -> pstate -> Prop) :
  (forall m, Q m s) -> wp (stat_mode K path) s Q.
Proof. intros H. apply H. Qed.

Lemma wp_siginfo K s (Q : Z * Z -> pstate -> Prop) :
  (forall code status, Q (code, status) s) -> wp (siginfo K) s Q.
Proof. intros H. unfold wp, siginfo. cbn [fst snd]. destruct (k_siginfo K (trace s)). apply H. Qed.

Lemma wp_pipe_fds K s (Q : Z * Z -> pstate -> Prop) :
  (forall rfd wfd, Q (rfd, wfd) s) -> wp (pipe_fds K) s Q.
Proof. intros H. unfold wp, pipe_fds. cbn [fst snd]. destruct (k_pipe_fds K (trace s)). apply H. Qed.

Lemma wp_out_pidfd K s (Q : Z -> pstate -> Prop) :
  (forall fd, Q fd s) -> wp (out_pidfd K) s Q.
Proof. intros H. apply H. Qed.

Lemma wp_nlmsg K s (Q : Z * Z * Z -> pstate -> Prop) :
  (forall flags ty err, Q (flags, ty, err) s) -> wp (nlmsg K) s Q.
Proof.
  intros H. unfold wp, nlmsg. cbn [fst snd].
  destruct (k_nlmsg K (trace s)) as [[a b] c]. apply H.
Qed.

(** What a computation has added to the trace, once its final trace is
    known. *)
Lemma emitted_st {A} (m : M A) s added e' :
  snd (m s) = st (trace s) added e' -> emitted m s = added.
Proof.
  intros H. unfold emitted. rewrite H. unfold st. cbn [trace].
  generalize (trace s). intros l.
  induction l as [|x l IH]; [reflexivity | exact IH].
Qed.

Lemma st_init s : s = st (trace s) [] (errno s).
Proof. destruct s. unfold st. cbn. now rewrite app_nil_r. Qed.

End Rules.

(** One step of symbolic execution. *)
Ltac wp_step :=
  lazymatch goal with
  | |- Logic.wp (Sys.bind (Sys.sys _ _) (fun _ => ?k)) _ _ =>
      apply Rules.wp_sys_drop; intros ? ? ?; cbn [app]; rewrite <- ?app_assoc; cbn [app]
  | |- Logic.wp (Sys.bind _ _) _ _ => apply Rules.wp_bind
  | |- Logic.wp (Sys.ret _) _ _ => apply Rules.wp_ret
  | |- Logic.wp (Sys.sys _ _) _ _ =>
      apply Rules.wp_sys; intros ? ? ?; cbn [app]; rewrite <- ?app_assoc; cbn [app]
  | |- Logic.wp (Sys.lib _ _) _ _ =>
      apply Rules.wp_lib; intros ? ?; cbn [app]; rewrite <- ?app_assoc; cbn [app]
  | |- Logic.wp Sys.get_errno _ _ => apply Rules.wp_get_errno
  | |- Logic.wp (Sys.set_errno _) _ _ => apply Rules.wp_set_errno
  | |- Logic.wp (Sys.stat_mode _ _) _ _ => apply Rules.wp_stat_mode; intros ?
  | |- Logic.wp (Sys.siginfo _) _ _ => apply Rules.wp_siginfo; intros ? ?
  | |- Logic.wp (Sys.pipe_fds _) _ _ => apply Rules.wp_pipe_fds; intros ? ?
  | |- Logic.wp (Sys.out_pidfd _) _ _ => apply Rules.wp_out_pidfd; intros ?
  | |- Logic.wp (Sys.nlmsg _) _ _ => apply Rules.wp_nlmsg; intros ? ? ?
  end.

(** Decide a comparison with 0 that the hypotheses settle. *)
Ltac settle_sign :=
  repeat match goal with
    | H : ?r < 0 |- context [?r <? 0] =>
        replace (r <? 0) with true by (symmetry; apply Z.ltb_lt; exact H)
    | H : 0 <= ?r |- context [?r <? 0] =>
        replace (r <? 0) with false by (symmetry; apply Z.ltb_ge; exact H)
    | H : 0 <= ?r |- context [?r >=? 0] =>
        replace (r >=? 0) with true by (symmetry; apply Z.geb_le; lia)
    | |- context [-1 <? 0] => change (-1 <? 0) with true
    | |- context [-1 >=? 0] => change (-1 >=? 0) with false
    | |- context [-1 =? -1] => change (-1 =? -1) with true
    | |- context [-1 =? 0] => change (-1 =? 0) with false
    | |- context [0 <? 0] => change (0 <? 0) with false
    | |- context [0 =? 0] => change (0 =? 0) with true
    end.

(** Turn boolean comparisons among the hypotheses into propositions. *)
Ltac reflect_hyps :=
  repeat match goal with
    | H : (_ <? _) = true |- _ => apply Z.ltb_lt in H
    | H : (_ <? _) = false |- _ => apply Z.ltb_ge in H
    | H : (_ >? _) = true |- _ => rewrite Z.gtb_ltb in H; apply Z.ltb_lt in H
    | H : (_ >? _) = false |- _ => rewrite Z.gtb_ltb in H; apply Z.ltb_ge in H
    | H : (_ >=? _) = true |- _ => rewrite Z.geb_leb in H; apply Z.leb_le in H
    | H : (_ >=? _) = false |- _ => rewrite Z.geb_leb in H; apply Z.leb_gt in H
    | H : (_ =? _) = true |- _ => apply Z.eqb_eq in H
    | H : (_ =? _) = false |- _ => apply Z.eqb_neq in H
    | H : negb _ = true |- _ => apply negb_true_iff in H
    | H : negb _ = false |- _ => apply negb_false_iff in H
    | H : _ && _ = true |- _ => apply andb_true_iff in H; destruct H
    | H : _ || _ = false |- _ => apply orb_false_iff in H; destruct H
    end.

Ltac impossible := exfalso; reflect_hyps; lia.

Ltac wp_branch :=
  lazymatch goal with
  | |- Logic.wp (if ?b then _ else _) _ _ =>
      first
        [ progress settle_sign;
          try lazymatch goal with
              | |- Logic.wp (if true then ?a else _) ?s ?Q => change (Logic.wp a s Q)
              | |- Logic.wp (if false then _ else ?a) ?s ?Q => change (Logic.wp a s Q)
              end
        | lazymatch b with
          | true => idtac
          | false => idtac
          end;
          lazymatch goal with
          | |- Logic.wp (if true then ?a else _) ?s ?Q => change (Logic.wp a s Q)
          | |- Logic.wp (if false then _ else ?a) ?s ?Q => change (Logic.wp a s Q)
          end
        | destruct b eqn:?; try solve [impossible] ]
  | |- Logic.wp (Fs.and_then _ _) _ _ => unfold Fs.and_then at 1
  | |- Logic.wp (match ?x with Some _ => _ | None => _ end) _ _ => destruct x eqn:?
  | |- Logic.wp (match ?x with (_, _) => _ end) _ _ => destruct x eqn:?
  end.

Ltac wp_go := repeat (wp_step || wp_branch).

(** Close a goal [exists added e', st before l e = st before added e' /\ _]. *)
Ltac wp_done := eexists; eexists; split; [reflexivity|].

(** Drop the equations that tie results to the oracle. *)
Ltac forget_oracle :=
  repeat match goal with
    | H : _ = Sys.k_ret _ _ _ |- _ => clear H
    end.

Module Frame.
Import Sys Logic Rules TraceProps.

Lemma st_shift before added0 added e :
  st (before ++ added0) added e = st before (added0 ++ added) e.
Proof. unfold st. now rewrite app_assoc. Qed.

(** A summary proved from an empty list of added events can be used in the
    middle of a run. *)
Lemma wp_frame {A} (m : M A) (Phi : A -> list event -> Prop) :
  (forall before e,
      wp m (st before [] e)
         (fun a s' => exists added e', s' = st before added e' /\ Phi a added)) ->
  forall before added0 e (Q : A -> pstate -> Prop),
    (forall a added e', Phi a added -> Q a (st before (added0 ++ added) e')) ->
    wp m (st before added0 e) Q.
Proof.
  intros Hm before added0 e Q HQ.
  specialize (Hm (before ++ added0) e).
  rewrite st_shift, app_nil_r in Hm. unfold wp in *.
  destruct Hm as (added & e' & Hs & Hphi).
  rewrite Hs, st_shift. now apply HQ.
Qed.

Lemma wp_only {A} (m : M A) (P : event -> Prop) :
  emits_only P m ->
  forall before added0 e (Q : A -> pstate -> Prop),
    (forall a added e', Forall P added -> Q a (st before (added0 ++ added) e')) ->
    wp m (st before added0 e) Q.
Proof.
  intros Hm. apply (wp_frame m (fun _ added => Forall P added)). exact Hm.
Qed.

Lemma emits_only_weaken {A} (m : M A) (P P' : event -> Prop) :
  (forall ev, P ev -> P' ev) -> emits_only P m -> emits_only P' m.
Proof.
  intros HP Hm before e. specialize (Hm before e). unfold wp in *.
  destruct Hm as (added & e' & Hs & Hall).
  exists added, e'. split; [assumption|].
  eapply Forall_impl; eauto.
Qed.

Lemma emits_only_emitted {A} (m : M A) (P : event -> Prop) s :
  emits_only P m -> Forall P (emitted m s).
Proof.
  intros Hm. specialize (Hm (trace s) (errno s)).
  rewrite <- st_init in Hm. unfold wp in Hm.
  destruct Hm as (added & e' & Hs & Hall).
  now rewrite (emitted_st _ _ _ _ Hs).
Qed.

End Frame.

(** Prove [Forall P l] for a list put together from single events and
    from lists already known to satisfy [P]. *)
Ltac solve_forall tac :=
  repeat first
    [ assumption
    | apply Forall_nil
    | apply Forall_app; split
    | apply Forall_cons; [solve [tac]|] ].

(** Evaluate [file_writes] on a trace whose results are variables with
    known signs. *)
Ltac eval_writes :=
  unfold Observe.file_writes;
  repeat (cbn [Observe.file_writes_from Observe.fd_path Observe.fd_close];
          settle_sign; rewrite ?Z.eqb_refl).

(** Evaluate the comparisons of string literals in the goal. *)
Ltac is_literal s :=
  lazymatch s with
  | EmptyString => idtac
  | String (Ascii _ _ _ _ _ _ _ _) ?s' => is_literal s'
  end.

Ltac eval_string_eqb :=
  repeat match goal with
    | |- context [String.eqb ?a ?b] =>
        is_literal a; is_literal b;
        let v := eval vm_compute in (String.eqb a b) in
        change (String.eqb a b) with v
    end.

(** Name the file writes of the trace in the goal and evaluate them once. *)
Ltac name_writes ext W HW :=
  evar (W : list (string * string * Z));
  assert (HW : Observe.file_writes ext = W);
  [ eval_writes; subst W; reflexivity | subst W ].

Module WriteFacts.
Import Sys Observe.

Lemma file_writes_from_app a : forall fds b,
  file_writes_from fds (a ++ b)
  = file_writes_from fds a ++ file_writes_from (fd_table_after fds a) b.
Proof.
  induction a as [|[c r] a IH]; intros fds b; [reflexivity|].
  destruct c; cbn [app file_writes_from fd_table_after]; try apply IH.
  destruct (fd_path fds fd); [cbn [app]; f_equal|]; apply IH.
Qed.

Lemma file_writes_app a b :
  fd_table_after [] a = [] ->
  file_writes (a ++ b) = file_writes a ++ file_writes b.
Proof.
  intros H. unfold file_writes. now rewrite file_writes_from_app, H.
Qed.

End WriteFacts.

(** Use a summary of a called function in the middle of a run. *)
Ltac use_only L :=
  apply (Frame.wp_only _ _ L); intros ? ? ? ?;
  cbn [app]; rewrite <- ?app_assoc; cbn [app].

Ltac use_frame L :=
  apply (Frame.wp_frame _ _ L); intros ? ? ? ?;
  cbn [app]; rewrite <- ?app_assoc; cbn [app].

(* ================================================================== *)
(** * parse_memory (parse.c)                                           *)
(* ================================================================== *)

Module ParseFacts.
Import Libc Data Sys Parse ParseSpec ParseSpecSize.

Lemma digit_not_space c d : digit_val c = Some d -> isspace c = false.
Proof.
  destruct c as [[] [] [] [] [] [] [] []]; vm_compute; congruence.
Qed.

Lemma digit_not_sign c d :
  digit_val c = Some d -> Ascii.eqb c "-" = false /\ Ascii.eqb c "+" = false.
Proof.
  destruct c as [[] [] [] [] [] [] [] []]; vm_compute; intuition congruence.
Qed.

Lemma digit_val_range c d : digit_val c = Some d -> 0 <= d <= 9.
Proof.
  destruct c as [[] [] [] [] [] [] [] []]; vm_compute; intros H;
    try discriminate; injection H as <-; split; discriminate.
Qed.

Lemma is_digit_val c : is_digit c = true -> exists d, digit_val c = Some d.
Proof.
  unfold is_digit. destruct (digit_val c); [eauto | discriminate].
Qed.

Lemma scan_digits_app ds : forall tail acc any,
  all_digits ds = true ->
  digit_val (deref tail) = None ->
  scan_digits (ds +++ tail) acc any
  = (decimal_value_acc ds acc, any || negb (String.length ds =? 0)%nat, tail).
Proof.
  induction ds as [|c ds IH]; intros tail acc any Hd Ht; simpl in *.
  - rewrite orb_false_r. destruct tail as [|t tail']; simpl in *; [reflexivity|].
    rewrite Ht. reflexivity.
  - apply andb_prop in Hd as [Hc Hd]. unfold is_digit in Hc.
    destruct (digit_val c) as [d|]; [|discriminate].
    rewrite IH by assumption. rewrite orb_true_r. reflexivity.
Qed.

Lemma decimal_value_acc_nonneg ds : forall acc,
  0 <= acc -> 0 <= decimal_value_acc ds acc.
Proof.
  induction ds as [|c ds IH]; intros acc Hacc; simpl; [assumption|].
  destruct (digit_val c) as [d|] eqn:E; [|assumption].
  apply IH. apply digit_val_range in E. lia.
Qed.

(** strtoull on a string that starts with a digit: the digits are read,
    there is no white space or sign to skip. *)
Lemma strtoull_digits ds tail e :
  ds <> "" -> all_digits ds = true -> digit_val (deref tail) = None ->
  strtoull (ds +++ tail) e =
    if decimal_value ds >? ULLONG_MAX then (ULLONG_MAX, tail, ERANGE)
    else (decimal_value ds, tail, e).
Proof.
  intros Hne Hd Ht. destruct ds as [|c ds]; [congruence|].
  pose proof Hd as Hd'. simpl in Hd'. apply andb_prop in Hd' as [Hc _].
  apply is_digit_val in Hc as [d Hc].
  unfold strtoull. cbn [String.append skip_spaces].
  rewrite (digit_not_space _ _ Hc).
  destruct (digit_not_sign _ _ Hc) as [Hm Hp].
  assert (Hsel : (match String c (ds +++ tail) with
                  | String "-"%char r => (true, r)
                  | String "+"%char r => (false, r)
                  | _ => (false, String c (ds +++ tail))
                  end) = (false, String c (ds +++ tail))).
  { clear - Hm Hp. destruct c as [[] [] [] [] [] [] [] []];
      try reflexivity; vm_compute in Hm, Hp; discriminate. }
  rewrite Hsel.
  change (String c (ds +++ tail)) with (String c ds +++ tail).
  rewrite scan_digits_app by assumption.
  reflexivity.
Qed.

Lemma overflow_check v mult :
  0 <= v -> 1 < mult ->
  (v >? UINT64_MAX / mult) = negb (v * mult <=? UINT64_MAX).
Proof.
  intros Hv Hm.
  destruct (Z.leb_spec (v * mult) UINT64_MAX) as [Hle|Hgt]; cbn [negb].
  - rewrite Z.gtb_ltb. apply Z.ltb_ge.
    apply Z.div_le_lower_bound; lia.
  - apply Z.gtb_lt. apply Z.div_lt_upper_bound; lia.
Qed.

Lemma parse_memory_digits ds tail s :
  ds <> "" -> all_digits ds = true -> digit_val (deref tail) = None ->
  (decimal_value ds = ULLONG_MAX -> errno s <> ERANGE) ->
  fst (parse_memory (Some (ds +++ tail)) s)
  = expected_size (decimal_value ds) (deref tail).
Proof.
  intros Hne Hd Ht He.
  pose proof (decimal_value_acc_nonneg ds 0 (Z.le_refl 0)) as Hv.
  fold (decimal_value ds) in Hv.
  unfold parse_memory, strtoull_m, bind, get_errno, set_errno, ret.
  rewrite (strtoull_digits ds tail (errno s) Hne Hd Ht).
  unfold expected_size, suffix_multiplier, char_in, is_char.
  cbn [existsb]. rewrite !orb_false_r.
  clear Ht Hne Hd. generalize dependent (decimal_value ds). intros v He Hv.
  destruct (Z.gtb_spec v ULLONG_MAX) as [Hov|Hin]; cbn [fst snd errno trace];
    generalize (deref tail); intros c.
  - (* the value does not fit: strtoull saturates and sets ERANGE *)
    rewrite !Z.eqb_refl. cbn [andb fst].
    assert (Hbig : forall m, 1 <= m -> (v * m <=? UINT64_MAX) = false).
    { intros m Hm. apply Z.leb_gt. unfold UINT64_MAX, ULLONG_MAX in *. nia. }
    destruct (Ascii.eqb c "k" || Ascii.eqb c "K"); [now rewrite Hbig by lia|].
    destruct (Ascii.eqb c "m" || Ascii.eqb c "M"); [now rewrite Hbig by lia|].
    destruct (Ascii.eqb c "g" || Ascii.eqb c "G"); [now rewrite Hbig by lia|].
    destruct (Ascii.eqb c "b" || (Ascii.eqb c "B" || Ascii.eqb c zero_char));
      [now rewrite Hbig by lia | reflexivity].
  - assert (Hstale : (v =? ULLONG_MAX) && (errno s =? ERANGE) = false).
    { destruct (Z.eqb_spec v ULLONG_MAX) as [E|E]; [|reflexivity].
      cbn [andb]. apply Z.eqb_neq. auto. }
    rewrite Hstale.
    assert (Hmul : forall m, 1 < m ->
              fst ((if (m >? 1) && (v >? UINT64_MAX / m) then (fun s0 : pstate => (0, s0))
                    else (fun s0 : pstate => ((v * m) mod 2 ^ 64, s0)))
                     {| trace := trace s; errno := errno s |})
              = if v * m <=? UINT64_MAX then v * m else 0).
    { intros m Hm. rewrite (overflow_check v m Hv Hm).
      replace (m >? 1) with true by (symmetry; apply Z.gtb_lt; lia).
      cbn [andb]. destruct (Z.leb_spec (v * m) UINT64_MAX); cbn [negb fst];
        [|reflexivity].
      apply Z.mod_small. unfold UINT64_MAX in *. nia. }
    destruct (Ascii.eqb c "k" || Ascii.eqb c "K"); [apply Hmul; lia|].
    destruct (Ascii.eqb c "m" || Ascii.eqb c "M"); [apply Hmul; lia|].
    destruct (Ascii.eqb c "g" || Ascii.eqb c "G"); [apply Hmul; lia|].
    replace (negb (Ascii.eqb c "b") && negb (Ascii.eqb c "B")
             && negb (Ascii.eqb c zero_char))
      with (negb (Ascii.eqb c "b" || (Ascii.eqb c "B" || Ascii.eqb c zero_char)))
      by (destruct (Ascii.eqb c "b"), (Ascii.eqb c "B"), (Ascii.eqb c zero_char);
          reflexivity).
    destruct (Ascii.eqb c "b" || (Ascii.eqb c "B" || Ascii.eqb c zero_char));
      cbn [negb fst]; [|reflexivity].
    rewrite Z.mul_1_r.
    replace (v <=? UINT64_MAX) with true
      by (symmetry; apply Z.leb_le; unfold UINT64_MAX, ULLONG_MAX in *; lia).
    change (1 >? 1) with false. cbn [andb fst].
    apply Z.mod_small. unfold ULLONG_MAX in *. lia.
Qed.

End ParseFacts.

Import Libc Data Sys Parse ParseSpec ParseSpecSize.

(** C8, as the code has it: parse_memory reads a decimal number and decides
    on the first character after it only.  k or K multiplies by 1024, m or
    M by 1024^2, g or G by 1024^3, b, B or the end of the string leaves
    plain bytes; whatever follows that character is ignored.  A number or a
    product that does not fit 64 bits, and any other first character, give
    0, and on 0 the command line parser exits with status 1. *)
Theorem parse_memory_first_suffix_char ds tail s :
  ds <> "" -> all_digits ds = true -> digit_val (deref tail) = None ->
  (decimal_value ds = ULLONG_MAX -> errno s <> ERANGE) ->
  let size := expected_size (decimal_value ds) (deref tail) in
  fst (parse_memory (Some (ds +++ tail)) s) = size /\
  fst (cli_parse_memory (Some (ds +++ tail)) s)
  = if size =? 0 then inr (Exited EXIT_FAILURE) else inl size.
Proof.
  intros Hne Hd Ht He size.
  pose proof (ParseFacts.parse_memory_digits ds tail s Hne Hd Ht He) as Hp.
  fold size in Hp. split; [exact Hp|].
  unfold cli_parse_memory, bind, ret.
  destruct (parse_memory (Some (ds +++ tail)) s) as [m s'] eqn:E.
  cbn [fst] in Hp. subst m.
  destruct (size =? 0); reflexivity.
Qed.

(** "2G" is 2*1024*1024*1024 and the parser goes on with that value. *)
Lemma parse_memory_2G :
  fst (parse_memory (Some "2G") init) = 2 * 1024 * 1024 * 1024 /\
  fst (cli_parse_memory (Some "2G") init) = inl (2 * 1024 * 1024 * 1024).
Proof.
  apply (parse_memory_first_suffix_char "2" "G" init).
  - discriminate.
  - reflexivity.
  - reflexivity.
  - vm_compute. discriminate.
Defined.

Example parse_memory_10M :
  fst (parse_memory (Some "10M") init) = 10485760.
Proof. reflexivity. Qed.

Example parse_memory_overflow :
  fst (cli_parse_memory (Some "18446744073709551616") init) = inr (Exited 1) /\
  fst (cli_parse_memory (Some "18014398509481984k") init) = inr (Exited 1) /\
  fst (cli_parse_memory (Some "10x") init) = inr (Exited 1).
Proof. repeat split. Qed.

(** C8 as stated fails: "MB" is none of the suffixes k, K, m, M, g, G, b, B,
    yet "10MB" is accepted, as 10 MiB. *)
Lemma parse_memory_unknown_suffix_accepted :
  ~ (forall suffix, unknown_suffix suffix = true ->
       fst (cli_parse_memory (Some ("10" +++ suffix)) init)
       = inr (Exited EXIT_FAILURE)).
Proof.
  intros H. specialize (H "MB" eq_refl). vm_compute in H. discriminate.
Qed.

Example parse_memory_10MB :
  unknown_suffix "MB" = true /\
  fst (parse_memory (Some "10MB") init) = 10485760.
Proof. split; reflexivity. Qed.

(* ================================================================== *)
(** * setup_uid_gid_map (sandbox.c)                                    *)
(* ================================================================== *)

Module IdentityFacts.
Import Libc Data Sys Utils Netns Sandbox Observe Logic Rules IdentitySpec
       TraceProps Frame.

Lemma as_int_small u : 0 <= u < 2 ^ 31 -> as_int u = u.
Proof.
  intros H. unfold as_int. rewrite Z.mod_small by lia.
  destruct (Z.ltb_spec u (2 ^ 31)); lia.
Qed.

Lemma as_int_large u : 2 ^ 31 <= u < 2 ^ 32 -> as_int u = u - 2 ^ 32.
Proof.
  intros H. unfold as_int. rewrite Z.mod_small by lia.
  destruct (Z.ltb_spec u (2 ^ 31)); lia.
Qed.

Section Mapper.
Variable K : kernel.
Variables pid uid gid : Z.
Hypothesis Huid : forall h, k_ret K h Getuid = uid.
Hypothesis Hgid : forall h, k_ret K h Getgid = gid.

Ltac know_ids :=
  repeat match goal with
    | H : ?r = k_ret K _ Getuid |- _ => rewrite Huid in H; subst r
    | H : ?r = k_ret K _ Getgid |- _ => rewrite Hgid in H; subst r
    end;
  forget_oracle.

Ltac prefix_goal :=
  unfold uid_gid_writes, map_text;
  lazymatch goal with
  | |- exists _ _ _ rest, _ = [] ++ rest =>
      exists 0, 0, 0; eexists; reflexivity
  | |- exists _ _ _ rest, _ = [(_, _, ?a)] ++ rest =>
      exists a, 0, 0; eexists; reflexivity
  | |- exists _ _ _ rest, _ = [(_, _, ?a); (_, _, ?b)] ++ rest =>
      exists a, b, 0; eexists; reflexivity
  | |- exists _ _ _ rest, _ = [(_, _, ?a); (_, _, ?b); (_, _, ?c)] ++ rest =>
      exists a, b, c; exists []; reflexivity
  end.

Lemma setup_uid_gid_map_wp before e :
  wp (setup_uid_gid_map K pid) (st before [] e)
     (fun rc s' => exists added e', s' = st before added e' /\
                   mapper_post pid (as_int uid) (as_int gid) rc added).
Proof.
  unfold setup_uid_gid_map, write_file.
  wp_go.
  all: wp_done; know_ids; reflect_hyps.
  all: unfold mapper_post; split; [auto|]; split; [eval_writes; prefix_goal|split].
  all: try (intros Hrc; discriminate Hrc).
  (* success: the three writes were made and were complete *)
  all: try (intros _; eval_writes; eexists; split; cycle 1;
            [unfold uid_gid_writes, map_text; subst; reflexivity | lia]).
  all: intros _ c x Hin Hc; cbn [In] in Hin;
    repeat (destruct Hin as [Hin|Hin];
            [inversion Hin; subst; try discriminate Hc; lia|]);
    contradiction.
Qed.

Lemma setup_uid_gid_map_post s :
  mapper_post pid (as_int uid) (as_int gid) (fst (setup_uid_gid_map K pid s))
              (emitted (setup_uid_gid_map K pid) s).
Proof.
  pose proof (setup_uid_gid_map_wp (trace s) (errno s)) as H.
  rewrite <- st_init in H. unfold wp in H.
  destruct H as (added & e' & Hs & Hpost).
  now rewrite (emitted_st _ _ _ _ Hs).
Qed.

End Mapper.

(** ** The mapper is the first thing the parent does after clone3 *)

Section Order.
Variable K : kernel.

Ltac any_leaf := wp_done; solve_forall ltac:(exact I).

Lemma setup_uid_gid_map_any pid : emits_only any_event (setup_uid_gid_map K pid).
Proof.
  intros before e. unfold setup_uid_gid_map, write_file.
  wp_go; any_leaf.
Qed.

Lemma cgroup_write_any path data : emits_only any_event (cgroup_write K path data).
Proof.
  intros before e. unfold cgroup_write.
  wp_go; any_leaf.
Qed.

Lemma setup_cgroup_limits_any pid cpus memory :
  emits_only any_event (setup_cgroup_limits K pid cpus memory).
Proof.
  intros before e. unfold setup_cgroup_limits, enable_controllers, mkdir_safe.
  repeat first
    [ wp_step | wp_branch
    | apply (wp_only _ _ (cgroup_write_any _ _)); intros ? ? ? ? ];
    any_leaf.
Qed.

(** No write of the mapper hands over the byte of the barrier. *)
Lemma setup_uid_gid_map_no_release pid before e :
  wp (setup_uid_gid_map K pid) (st before [] e)
     (fun _ s' => exists added e', s' = st before added e' /\
        forall fd r, ~ In (Write fd "X", r) added).
Proof.
  unfold setup_uid_gid_map, write_file.
  wp_go.
  all: wp_done; intros fd x Hin; cbn [In] in Hin.
  all: repeat (destruct Hin as [Hin|Hin]; [cbn in Hin; discriminate Hin|]).
  all: contradiction.
Qed.

Lemma spawn_parent_mapper_first opts sync_pipe pid before e :
  wp (spawn_parent K opts sync_pipe pid) (st before [] e)
     (fun _ s' => exists added e', s' = st before added e' /\
        exists rest,
          added = emitted (setup_uid_gid_map K pid) (st before [] e) ++ rest).
Proof.
  unfold spawn_parent, microbox_setup_bridge_network, move_veth_to_container.
  apply wp_bind.
  pose proof (setup_uid_gid_map_any pid before e) as Hm.
  unfold wp in Hm. destruct Hm as (added & e' & Hs & _).
  assert (Hem : emitted (setup_uid_gid_map K pid) (st before [] e) = added).
  { apply (emitted_st _ _ added e'). rewrite Hs. unfold st. cbn [trace].
    now rewrite app_nil_r. }
  rewrite Hem. unfold wp at 1. rewrite Hs.
  generalize (fst (setup_uid_gid_map K pid (st before [] e))). intros r.
  unfold generate_interface_names. cbv beta iota. cbn [fst snd].
  repeat first
    [ wp_step | wp_branch
    | apply (wp_only _ _ (setup_cgroup_limits_any _ _ _)); intros ? ? ? ? ].
  all: wp_done; rewrite <- ?app_assoc;
    first [ exists []; now rewrite app_nil_r | eexists; reflexivity ].
Qed.

End Order.
End IdentityFacts.

Import Libc Data Sys Sandbox Observe IdentitySpec Examples.

(** C7, as the code has it: setup_uid_gid_map writes "deny" to
    /proc/<pid>/setgroups, then "0 <real uid> 1" and a newline to
    /proc/<pid>/uid_map, then "0 <real gid> 1" and a newline to
    /proc/<pid>/gid_map, in this order, each with one write call that is
    handed the whole string, and it writes nothing else.  The ids are
    printed with %d: an id below 2^31 is written as it is, a larger one as
    the negative number with the same 32 bits.  It returns 0 or -1.  When it returns 0 the three writes were made, no open and no write
    had failed, and the writes to uid_map and gid_map were complete.  Its
    calls are the first calls of the parent branch of microbox_sandbox_spawn,
    and the byte that releases the barrier is not among them. *)
Theorem setup_uid_gid_map_writes K pid uid gid s :
  (forall h, k_ret K h Getuid = uid) ->
  (forall h, k_ret K h Getgid = gid) ->
  let rc := fst (setup_uid_gid_map K pid s) in
  let ext := emitted (setup_uid_gid_map K pid) s in
  let u := as_int uid in
  let g := as_int gid in
  (0 <= uid < 2 ^ 31 -> u = uid) /\
  (0 <= gid < 2 ^ 31 -> g = gid) /\
  (2 ^ 31 <= uid < 2 ^ 32 -> u = uid - 2 ^ 32) /\
  (2 ^ 31 <= gid < 2 ^ 32 -> g = gid - 2 ^ 32) /\
  (rc = 0 \/ rc = -1) /\
  (exists r1 r2 r3 rest,
      uid_gid_writes pid u g r1 r2 r3 = file_writes ext ++ rest) /\
  (rc = 0 ->
   exists r1, 0 <= r1 /\
     file_writes ext
     = uid_gid_writes pid u g r1
         (Z.of_nat (String.length (map_text u)))
         (Z.of_nat (String.length (map_text g)))) /\
  (rc = 0 -> forall c r, In (c, r) ext -> is_open c || is_write c = true -> 0 <= r) /\
  (forall opts sync_pipe,
      exists rest, emitted (spawn_parent K opts sync_pipe pid) s = ext ++ rest) /\
  (forall fd r, ~ In (Write fd "X", r) ext).
Proof.
  intros Huid Hgid.
  destruct (IdentityFacts.setup_uid_gid_map_post K pid uid gid Huid Hgid s)
    as (H1 & H2 & H3 & H4).
  cbv zeta.
  split; [apply IdentityFacts.as_int_small|].
  split; [apply IdentityFacts.as_int_small|].
  split; [apply IdentityFacts.as_int_large|].
  split; [apply IdentityFacts.as_int_large|].
  repeat (split; [assumption|]). split.
  - intros opts sync_pipe.
    pose proof (IdentityFacts.spawn_parent_mapper_first K opts sync_pipe pid
                  (trace s) (errno s)) as H.
    rewrite <- Rules.st_init in H. unfold Logic.wp in H.
    destruct H as (added & e' & Hs & rest & Hadded).
    exists rest. now rewrite (Rules.emitted_st _ _ _ _ Hs).
  - pose proof (IdentityFacts.setup_uid_gid_map_no_release K pid
                  (trace s) (errno s)) as H.
    rewrite <- Rules.st_init in H. unfold Logic.wp in H.
    destruct H as (added & e' & Hs & Hno).
    now rewrite (Rules.emitted_st _ _ _ _ Hs).
Qed.

(** With a kernel that lets everything succeed, for pid 4242 and the ids
    1000: the three files get their text, in order. *)
Lemma setup_uid_gid_map_writes_ok :
  fst (setup_uid_gid_map K_ok 4242 init) = 0 /\
  file_writes (emitted (setup_uid_gid_map K_ok 4242) init)
  = [ ("/proc/4242/setgroups", "deny", 4);
      ("/proc/4242/uid_map", "0 1000 1" +++ newline, 9);
      ("/proc/4242/gid_map", "0 1000 1" +++ newline, 9) ].
Proof.
  destruct (setup_uid_gid_map_writes K_ok 4242 1000 1000 init)
    as (_ & _ & _ & _ & _ & _ & Hok & _).
  - reflexivity.
  - reflexivity.
  - split; [reflexivity|].
    destruct (Hok eq_refl) as (r1 & _ & Hw). rewrite Hw.
    vm_compute in Hw. injection Hw as <-. reflexivity.
Defined.

(** C7 as stated fails: what is written to uid_map and gid_map ends with a
    newline, so the three writes of a run where everything succeeds are
    not those of the claim. *)
Lemma setup_uid_gid_map_text_differs :
  ~ claimed_uid_gid_map K_ok 4242 1000 1000 init.
Proof.
  intros [(r1 & r2 & r3 & rest & Hw) _].
  vm_compute in Hw. inversion Hw.
Qed.

(** The ids go through %d: for the real uid 4294967294 the text of the
    uid map is "0 -2 1". *)
Example setup_uid_gid_map_large_uid :
  file_writes (emitted (setup_uid_gid_map K_uid_nobody 4242) init)
  = [ ("/proc/4242/setgroups", "deny", 4);
      ("/proc/4242/uid_map", "0 -2 1" +++ newline, 7);
      ("/proc/4242/gid_map", "0 1000 1" +++ newline, 9) ].
Proof. vm_compute. reflexivity. Qed.

(** Not every short write fails the step: write_file returns -errno, and a
    write of "deny" that stops after two bytes leaves errno at 0. *)
Example setup_uid_gid_map_short_deny :
  fst (setup_uid_gid_map K_short_deny 4242 init) = 0 /\
  In (Write 3 "deny", 2) (emitted (setup_uid_gid_map K_short_deny 4242) init).
Proof. split; [reflexivity | vm_compute; auto]. Qed.

(** The parent of microbox --fs tmpfs -- /bin/true, everything
    succeeding: the writes of the run, in order; the byte on the barrier
    pipe is the last one. *)
Example spawn_parent_writes_in_order :
  filter (fun ev => is_write (fst ev))
         (emitted (spawn_parent K_ok opts_tmpfs (8, 9) 4242) init)
  = [ (Write 3 "deny", 4);
      (Write 3 ("0 1000 1" +++ newline), 9);
      (Write 3 ("0 1000 1" +++ newline), 9);
      (Write 3 "+memory", 7);
      (Write 3 "+cpu", 4);
      (Write 3 "4242", 4);
      (Write 9 "X", 1) ].
Proof. vm_compute. reflexivity. Qed.

(* ================================================================== *)
(** * The parent branch of microbox_sandbox_spawn and the barrier      *)
(* ================================================================== *)

Module BarrierFacts.
Import Libc Data Sys Utils Fs Netns Sandbox Observe Logic Rules TraceProps Frame.

Section Parent.
Variable K : kernel.
Variables wfd child : Z.
(** open gives a new descriptor, never the write end of the pipe, which is
    still open. *)
Hypothesis Hfresh : forall h p f m, k_ret K h (Open p f m) <> wfd.


Ltac untouched_event :=
  unfold untouched; cbn [touches_barrier];
  first
    [ reflexivity
    | match goal with
      | H : ?r = k_ret K _ (Open _ _ _) |- (?r =? wfd) = false =>
          apply Z.eqb_neq; rewrite H; apply Hfresh
      end ].

Ltac untouched_leaf := wp_done; solve_forall untouched_event.

Lemma setup_uid_gid_map_untouched pid : emits_only (untouched wfd child) (setup_uid_gid_map K pid).
Proof.
  intros before e. unfold setup_uid_gid_map, write_file.
  wp_go; untouched_leaf.
Qed.

Lemma cgroup_write_untouched path data : emits_only (untouched wfd child) (cgroup_write K path data).
Proof.
  intros before e. unfold cgroup_write.
  wp_go; untouched_leaf.
Qed.

Lemma setup_cgroup_limits_untouched pid cpus memory :
  emits_only (untouched wfd child) (setup_cgroup_limits K pid cpus memory).
Proof.
  intros before e. unfold setup_cgroup_limits, enable_controllers, mkdir_safe.
  repeat first
    [ wp_step | wp_branch
    | apply (wp_only _ _ (cgroup_write_untouched _ _)); intros ? ? ? ? ];
    untouched_leaf.
Qed.

Lemma spawn_parent_wp opts rfd before e :
  wp (spawn_parent K opts (rfd, wfd) child) (st before [] e)
     (fun o s' => exists added e', s' = st before added e' /\
        forall rc, o = Returned rc -> rc < 0 -> Forall (untouched wfd child) added).
Proof.
  unfold spawn_parent, microbox_setup_bridge_network, move_veth_to_container.
  unfold generate_interface_names. cbv beta iota. cbn [fst snd].
  repeat first
    [ wp_step | wp_branch
    | apply (wp_only _ _ (setup_uid_gid_map_untouched _)); intros ? ? ? ?
    | apply (wp_only _ _ (setup_cgroup_limits_untouched _ _ _)); intros ? ? ? ? ].
  all: wp_done; intros rc Ho Hrc; try discriminate Ho.
  all: try (injection Ho as <-; exfalso; lia).
  all: solve_forall untouched_event.
Qed.

End Parent.
End BarrierFacts.

Import Libc Data Sys Sandbox Observe Examples.

(** C2 on the code: whenever the parent branch of microbox_sandbox_spawn
    returns a negative value (the identity mapping, the bridge network or
    the cgroup failed), it has not written to the write end of the
    barrier pipe, has not closed it, and has sent no signal to the child. *)
Theorem spawn_parent_failure_leaves_barrier K opts rfd wfd child s rc :
  (forall h p f m, k_ret K h (Open p f m) <> wfd) ->
  fst (spawn_parent K opts (rfd, wfd) child s) = Returned rc ->
  rc < 0 ->
  Forall (fun ev => touches_barrier wfd child ev = false)
         (emitted (spawn_parent K opts (rfd, wfd) child) s).
Proof.
  intros Hfresh Ho Hrc.
  pose proof (BarrierFacts.spawn_parent_wp K wfd child Hfresh opts rfd
                (trace s) (errno s)) as H.
  rewrite <- Rules.st_init in H. unfold Logic.wp in H.
  destruct H as (added & e' & Hs & Hpost).
  rewrite (Rules.emitted_st _ _ _ _ Hs).
  exact (Hpost rc Ho Hrc).
Qed.

(** microbox --net bridge run by uid 1000: the child exists (pid 4242), the
    identity mapping is done, then the parent returns -1 because it is not
    root.  Nothing was done on the write end (descriptor 9) and no signal
    was sent. *)
Lemma spawn_parent_bridge_not_root :
  fst (spawn_parent K_ok opts_bridge (8, 9) 4242 init) = Returned (-1) /\
  Forall (fun ev => touches_barrier 9 4242 ev = false)
         (emitted (spawn_parent K_ok opts_bridge (8, 9) 4242) init).
Proof.
  split; [reflexivity|].
  apply (spawn_parent_failure_leaves_barrier K_ok opts_bridge 8 9 4242 init (-1)).
  - intros h p f m. cbn. discriminate.
  - reflexivity.
  - lia.
Defined.

(** The same run seen from main: the process exits with status 1, and the
    pipe's write end is still open when it does. *)
Example main_bridge_not_root :
  fst (microbox_main K_ok opts_bridge init) = Exited 1 /\
  existsb (touches_barrier 9 4242) (trace (snd (microbox_main K_ok opts_bridge init)))
  = false.
Proof. split; vm_compute; reflexivity. Qed.

(** A sibling path does release the pipe: when clone3 itself fails, both
    ends are closed before the return. *)
Example spawn_clone_failure_closes_pipe :
  let K := with_ret (fun c => match c with Clone3 _ _ => Some (-11) | _ => None end) K_ok in
  map fst (trace (snd (microbox_main K opts_tmpfs init)))
  = [Pipe; Clone3 (clone_flags opts_tmpfs) SIGCHLD; Close 8; Close 9].
Proof. vm_compute. reflexivity. Qed.

(** The child takes the end of file on the barrier for the go-ahead:
    WAIT_FOR_PARENT only tests for a negative result, so after read has
    returned 0 the child sets the host name and goes on. *)
Example child_continues_on_eof :
  firstn 3 (trace (snd (spawn_child K_child_eof opts_tmpfs (8, 9) init)))
  = [(Read 8 1, 0); (Close 8, 0); (Sethostname "microbox", 0)].
Proof. vm_compute. reflexivity. Qed.

(* ================================================================== *)
(** * microbox_sandbox_wait and the teardown of the veth pair          *)
(* ================================================================== *)

Module WaitFacts.
Import Libc Data Sys Netlink Netns Sandbox Observe Logic Rules TraceProps Frame.

Lemma cleanup_extends K container_id :
  emits_only any_event (microbox_cleanup_network_interfaces K container_id).
Proof.
  intros before e.
  unfold microbox_cleanup_network_interfaces, generate_interface_names,
    netlink_open, netlink_delete_interface, netlink_close,
    netlink_get_interface_index, netlink_send_request, netlink_recv_response.
  cbv beta iota. cbn [negb Z.eqb].
  wp_go.
  all: wp_done; solve_forall ltac:(exact I).
Qed.

End WaitFacts.

Import Libc Data Sys Netns Sandbox Observe Examples.

(** C5: microbox_sandbox_wait on a NULL process returns -EINVAL.  Otherwise
    its first call is waitid(P_PIDFD, pidfd, WEXITED), which returns when
    the child has terminated.  When waitid fails with errno e (the kernel
    answers r = -e), nothing else is done and the result is -e.  When it
    succeeds, the result is si_status for si_code CLD_EXITED and
    128 + si_status for CLD_KILLED and CLD_DUMPED. *)
Theorem microbox_sandbox_wait_result K proc s :
  let call := Waitid P_PIDFD (pidfd proc) WEXITED in
  let r := k_ret K (trace s) call in
  let si := k_siginfo K (trace s ++ [(call, r)]) in
  let rc := fst (microbox_sandbox_wait K (Some proc) s) in
  let ext := emitted (microbox_sandbox_wait K (Some proc)) s in
  microbox_sandbox_wait K None s = (- EINVAL, s) /\
  (exists rest, ext = (call, r) :: rest) /\
  (r < 0 -> ext = [(call, r)] /\ rc = r /\
            errno (snd (microbox_sandbox_wait K (Some proc) s)) = - r) /\
  (0 <= r -> fst si = CLD_EXITED -> rc = snd si) /\
  (0 <= r -> fst si = CLD_KILLED \/ fst si = CLD_DUMPED -> rc = 128 + snd si).
Proof.
  intros call r si rc ext.
  split; [reflexivity|].
  assert (Hrun :
    (r < 0 /\ microbox_sandbox_wait K (Some proc) s
              = (r, {| trace := trace s ++ [(call, r)]; errno := - r |})) \/
    (0 <= r /\ exists rest e',
        snd (microbox_sandbox_wait K (Some proc) s)
        = Logic.st (trace s) ((call, r) :: rest) e' /\
        rc = if fst si =? CLD_EXITED then snd si
             else if (fst si =? CLD_KILLED) || (fst si =? CLD_DUMPED)
                  then 128 + snd si else 0)).
  { subst rc. unfold microbox_sandbox_wait, bind, sys, siginfo, get_errno, ret.
    fold call. fold r. destruct (Z.ltb_spec r 0) as [Hneg|Hpos].
    - left. split; [assumption|]. cbn. now rewrite Z.opp_involutive.
    - right. split; [assumption|].
      replace (r =? -1) with false by (symmetry; apply Z.eqb_neq; lia).
      cbn [trace errno fst snd]. fold si. destruct si as [code status].
      pose proof (WaitFacts.cleanup_extends K (pid proc)
                    (trace s ++ [(call, r)]) (errno s)) as Hc.
      unfold Logic.wp, Logic.st in Hc. rewrite app_nil_r in Hc.
      destruct Hc as (added & e' & Hs & _).
      destruct (microbox_cleanup_network_interfaces K (pid proc) _) as [x s2].
      cbn [snd] in Hs. subst s2.
      exists added, e'. unfold Logic.st. rewrite <- app_assoc. cbn [app fst snd].
      split.
      + destruct (code =? CLD_EXITED); [reflexivity|].
        destruct ((code =? CLD_KILLED) || (code =? CLD_DUMPED)); reflexivity.
      + destruct (code =? CLD_EXITED); [reflexivity|].
        destruct ((code =? CLD_KILLED) || (code =? CLD_DUMPED)); reflexivity. }
  destruct Hrun as [[Hneg Hrun] | [Hpos (rest & e' & Hs & Hrc)]].
  - assert (Hext : ext = [(call, r)]).
    { subst ext. apply (Rules.emitted_st _ _ _ (- r)). now rewrite Hrun. }
    split; [|split; [|split]].
    + exists []. exact Hext.
    + intros _. subst rc. rewrite Hrun. split; [exact Hext|]. split; reflexivity.
    + intros; lia.
    + intros; lia.
  - assert (Hext : ext = (call, r) :: rest).
    { subst ext. now apply (Rules.emitted_st _ _ _ e'). }
    split; [|split; [|split]].
    + exists rest. exact Hext.
    + intros; lia.
    + intros _ Hcode. rewrite Hrc, Hcode. reflexivity.
    + intros _ Hcode. rewrite Hrc.
      destruct Hcode as [-> | ->]; reflexivity.
Qed.

Lemma microbox_sandbox_wait_killed :
  fst (microbox_sandbox_wait K_killed9 (Some proc_4242) init) = 137.
Proof.
  destruct (microbox_sandbox_wait_result K_killed9 proc_4242 init)
    as (_ & _ & _ & _ & H).
  apply H.
  - cbn. lia.
  - left. reflexivity.
Defined.

Example microbox_sandbox_wait_exit3 :
  fst (microbox_sandbox_wait K_exit3 (Some proc_4242) init) = 3.
Proof. reflexivity. Qed.

Example microbox_sandbox_wait_echild :
  fst (microbox_sandbox_wait K_waitid_fails (Some proc_4242) init) = -10 /\
  trace (snd (microbox_sandbox_wait K_waitid_fails (Some proc_4242) init))
  = [(Waitid P_PIDFD 10 WEXITED, -10)].
Proof. split; reflexivity. Qed.

(* ------------------------------------------------------------------ *)

Module TeardownFacts.
Import Libc Data Sys Netlink Netns Sandbox Observe Logic Rules TraceProps Frame
       TeardownSpec.

Lemma names_fit : forallb name_fits (seq 0 254) = true.
Proof. vm_compute. reflexivity. Qed.

Lemma veth_host_generated pid :
  0 <= pid -> veth_host (snd (generate_interface_names pid)) = veth_host_name pid.
Proof.
  intros Hpid. unfold generate_interface_names, veth_host_name. cbn [snd veth_host].
  rewrite Z.rem_mod_nonneg by lia.
  pose proof (Z.mod_pos_bound pid 254 ltac:(lia)) as Hb.
  pose proof names_fit as Hfit. rewrite forallb_forall in Hfit.
  specialize (Hfit (Z.to_nat (pid mod 254))).
  unfold name_fits in Hfit. rewrite Z2Nat.id in Hfit by lia.
  apply String.eqb_eq. apply Hfit. apply in_seq. lia.
Qed.

Lemma cleanup_wp K pid before e :
  0 <= pid ->
  wp (microbox_cleanup_network_interfaces K pid) (st before [] e)
     (fun rc s' => exists added e', s' = st before added e' /\
                   cleanup_post (veth_host_name pid) rc added).
Proof.
  intros Hpid.
  unfold microbox_cleanup_network_interfaces.
  pose proof (veth_host_generated pid Hpid) as Hname.
  destruct (generate_interface_names pid) as [rc0 config] eqn:Hgen.
  assert (rc0 = 0) by (unfold generate_interface_names in Hgen; congruence).
  cbn [snd] in Hname. subst rc0. rewrite Hname. clear Hgen Hname config.
  unfold netlink_open, netlink_delete_interface, netlink_close,
    netlink_get_interface_index, netlink_send_request, netlink_recv_response.
  cbn [negb Z.eqb].
  repeat first [progress cbn [nl_fd nl_seq nl_pid] | wp_step | wp_branch].
  all: wp_done; forget_oracle; reflect_hyps; unfold cleanup_post, delete_requested.
  all: repeat first
         [ reflexivity
         | lazymatch goal with
           | |- exists _, _ => eexists
           | |- _ /\ _ => split
           | |- _ -> _ => let H := fresh in intros H; try (exfalso; lia)
           end
         | solve [left; reflexivity | right; reflexivity] ].
Qed.

Lemma cleanup_post_run K pid s :
  0 <= pid ->
  cleanup_post (veth_host_name pid)
    (fst (microbox_cleanup_network_interfaces K pid s))
    (emitted (microbox_cleanup_network_interfaces K pid) s).
Proof.
  intros Hpid.
  pose proof (cleanup_wp K pid (trace s) (errno s) Hpid) as H.
  rewrite <- st_init in H. unfold wp in H.
  destruct H as (added & e' & Hs & Hpost).
  now rewrite (emitted_st _ _ _ _ Hs).
Qed.

(** netlink_delete_interface when the name has no index: one lookup, and
    the result is 0. *)
Lemma delete_missing_interface K handle ifname s :
  k_ret K (trace s) (IfNametoindex ifname) = 0 ->
  netlink_delete_interface K handle ifname s
  = ((0, handle),
     {| trace := trace s ++ [(IfNametoindex ifname, 0)]; errno := ENODEV |}).
Proof.
  intros H.
  unfold netlink_delete_interface, netlink_get_interface_index, bind, lib, set_errno, ret.
  rewrite H. reflexivity.
Qed.

(** After a successful waitid the events of microbox_sandbox_wait are the
    waitid call followed by those of the cleanup. *)
Lemma wait_runs_cleanup K proc s :
  let call := Waitid P_PIDFD (pidfd proc) WEXITED in
  let r := k_ret K (trace s) call in
  0 <= r ->
  emitted (microbox_sandbox_wait K (Some proc)) s
  = (call, r) ::
    emitted (microbox_cleanup_network_interfaces K (pid proc))
            {| trace := trace s ++ [(call, r)]; errno := errno s |}.
Proof.
  intros call r Hr.
  pose proof (WaitFacts.cleanup_extends K (pid proc)
                (trace s ++ [(call, r)]) (errno s)) as Hc.
  unfold wp, st in Hc. rewrite app_nil_r in Hc.
  destruct Hc as (added & e' & Hs & _).
  rewrite (emitted_st (microbox_cleanup_network_interfaces K (pid proc))
             {| trace := trace s ++ [(call, r)]; errno := errno s |} added e')
    by exact Hs.
  apply (emitted_st _ _ _ e').
  unfold microbox_sandbox_wait, bind, sys, siginfo, ret.
  fold call. fold r.
  replace (r <? 0) with false by (symmetry; apply Z.ltb_ge; exact Hr).
  replace (r =? -1) with false by (symmetry; apply Z.eqb_neq; lia).
  cbn [trace errno fst snd].
  destruct (k_siginfo K (trace s ++ [(call, r)])) as [code status].
  destruct (microbox_cleanup_network_interfaces K (pid proc) _) as [x s2].
  cbn [snd] in Hs. subst s2.
  unfold st. rewrite <- app_assoc. cbn [app].
  destruct (code =? CLD_EXITED); [reflexivity|].
  destruct ((code =? CLD_KILLED) || (code =? CLD_DUMPED)); reflexivity.
Qed.

End TeardownFacts.

Import TeardownSpec.

(** C9: main passes the process record to microbox_sandbox_wait whatever
    the options are, so the network mode plays no part in what follows.
    After a successful waitid, microbox_sandbox_wait runs the cleanup for
    the recorded pid: it opens a netlink socket and, once that is bound,
    asks for the index of mbx<pid mod 254>h.  When the name has an index,
    the request RTM_DELLINK for that index is sent on the socket, the
    answer is read when the request went out, and the socket is closed.
    When the name has no index nothing is sent, the socket is closed and
    the cleanup returns 0; netlink_delete_interface itself returns 0 in
    that case. *)
Theorem veth_teardown_after_wait K opts proc s :
  (forall code proc' s1,
      microbox_sandbox_spawn K (Some opts) (Some {| pidfd := -1; pid := -1 |}) s
      = ((Returned code, proc'), s1) ->
      0 <= code ->
      microbox_main K opts s
      = (let (status, s2) := microbox_sandbox_wait K proc' s1 in
         (Returned status, s2))) /\
  (let call := Waitid P_PIDFD (pidfd proc) WEXITED in
   let r := k_ret K (trace s) call in
   let s1 := {| trace := trace s ++ [(call, r)]; errno := errno s |} in
   0 <= r -> 0 <= pid proc ->
   emitted (microbox_sandbox_wait K (Some proc)) s
   = (call, r) :: emitted (microbox_cleanup_network_interfaces K (pid proc)) s1 /\
   cleanup_post (veth_host_name (pid proc))
     (fst (microbox_cleanup_network_interfaces K (pid proc) s1))
     (emitted (microbox_cleanup_network_interfaces K (pid proc)) s1)) /\
  (forall handle ifname s',
      k_ret K (trace s') (IfNametoindex ifname) = 0 ->
      fst (Netlink.netlink_delete_interface K handle ifname s') = (0, handle)).
Proof.
  split; [|split].
  - intros code proc' s1 Hspawn Hcode.
    unfold microbox_main, bind. rewrite Hspawn.
    replace (code <? 0) with false by (symmetry; apply Z.ltb_ge; exact Hcode).
    destruct (microbox_sandbox_wait K proc' s1). reflexivity.
  - intros call r s1 Hr Hpid. split.
    + exact (TeardownFacts.wait_runs_cleanup K proc s Hr).
    + exact (TeardownFacts.cleanup_post_run K (pid proc) s1 Hpid).
  - intros handle ifname s' H.
    now rewrite (TeardownFacts.delete_missing_interface K handle ifname s' H).
Qed.

(** A sandbox without network (--net none) whose child had pid 4242.  On
    a host where mbx178h does not exist the teardown is attempted all the
    same and the cleanup succeeds; on a host where mbx178h has index 7 the
    deletion of interface 7 is requested. *)
Lemma veth_teardown_no_veth :
  (emitted (microbox_sandbox_wait K_no_veth (Some proc_4242)) init
   = [ (Waitid P_PIDFD 10 WEXITED, 0);
       (Socket AF_NETLINK SOCK_RAW NETLINK_ROUTE, 5);
       (Getpid, 100); (Bind 5 100, 0);
       (IfNametoindex "mbx178h", 0);
       (Close 5, 0) ] /\
   fst (microbox_cleanup_network_interfaces K_no_veth 4242
          {| trace := [(Waitid P_PIDFD 10 WEXITED, 0)]; errno := 0 |}) = 0) /\
  exists self sent rest,
    emitted (microbox_sandbox_wait K_ok (Some proc_4242)) init
    = [ (Waitid P_PIDFD 10 WEXITED, 0);
        (Socket AF_NETLINK SOCK_RAW NETLINK_ROUTE, 5);
        (Getpid, 100); (Bind 5 100, 0);
        (IfNametoindex "mbx178h", 7);
        (Getpid, self);
        (Sendmsg 5 RTM_DELLINK (Z.lor NLM_F_REQUEST NLM_F_ACK) 1 7, sent) ]
      ++ rest.
Proof.
  split.
  - destruct (veth_teardown_after_wait K_no_veth opts_tmpfs proc_4242 init)
      as (_ & H & _).
    destruct H as [Hext Hpost].
    + cbn. lia.
    + cbn. lia.
    + split; [rewrite Hext|]; reflexivity.
  - destruct (veth_teardown_after_wait K_ok opts_tmpfs proc_4242 init)
      as (_ & H & _).
    destruct H as [Hext Hpost]; [cbn; lia | cbn; lia |].
    rewrite Hext.
    destruct Hpost as (sock & rest & Hrun & _ & Hsock).
    rewrite Hrun.
    assert (Hs : sock = 5) by (vm_compute in Hrun; congruence).
    subst sock.
    destruct Hsock as (self & b & rest1 & -> & _ & Hbind); [lia|].
    assert (Hb : self = 100 /\ b = 0) by (vm_compute in Hrun; split; congruence).
    destruct Hb as [-> ->].
    destruct Hbind as (idx & rest2 & -> & _ & Hidx); [lia|].
    assert (Hi : idx = 7) by (vm_compute in Hrun; congruence).
    subst idx.
    destruct Hidx as (self' & sent & rest3 & -> & _); [lia|].
    exists self', sent, rest3. reflexivity.
Defined.

Example main_no_network_teardown :
  fst (microbox_main K_no_veth opts_tmpfs init) = Returned 0 /\
  In (IfNametoindex "mbx178h", 0)
     (trace (snd (microbox_main K_no_veth opts_tmpfs init))).
Proof. split; [reflexivity | vm_compute; tauto]. Qed.

(* ================================================================== *)
(** * setup_cgroup_limits (sandbox.c)                                  *)
(* ================================================================== *)

Module CgroupFacts.
Import Libc Data Sys Utils Fs Sandbox Observe Logic Rules CgroupSpec.

Lemma eqb_append_l p a b : String.eqb (p +++ a) (p +++ b) = String.eqb a b.
Proof.
  induction p as [|c p IH]; cbn; [reflexivity|].
  now rewrite Ascii.eqb_refl.
Qed.

Lemma cgroup_file_eqb pid a b :
  String.eqb (cgroup_file pid a) (cgroup_file pid b) = String.eqb a b.
Proof.
  unfold cgroup_file. now rewrite !eqb_append_l.
Qed.

Lemma subtree_control_eqb pid f :
  String.eqb "/sys/fs/cgroup/cgroup.subtree_control" (cgroup_file pid f) = false.
Proof. reflexivity. Qed.

(** (unsigned int) of a double agrees with its floor where the floor is in
    the range of unsigned int. *)
Lemma double_to_uint_floor x q :
  floor_double x = Some q -> 0 <= q < 2 ^ 32 -> double_to_uint x = q.
Proof.
  unfold floor_double, double_to_uint.
  destruct (Prim2SF x) as [z| i | |sign m e]; try discriminate.
  - intros [= <-] _. reflexivity.
  - intros [= <-] Hq.
    destruct sign.
    + exfalso. destruct (Z.leb_spec 0 e).
      * assert (0 < 2 ^ e) by (apply Z.pow_pos_nonneg; lia). nia.
      * assert (0 < 2 ^ (- e)) by (apply Z.pow_pos_nonneg; lia).
        assert (Z.neg m / 2 ^ (- e) < 0); [|lia].
        apply Z.div_lt_upper_bound; lia.
    + destruct (Z.leb_spec 0 e).
      * rewrite Z.shiftl_mul_pow2 by lia. apply Z.mod_small. lia.
      * rewrite Z.shiftr_div_pow2 by lia. apply Z.mod_small. lia.
Qed.

Section Limits.
Variable K : kernel.
Variables (pid : Z) (cpus : float) (memory : Z).

Lemma enable_controllers_wp before e :
  wp (enable_controllers K) (st before [] e)
     (fun res s' => exists added e', s' = st before added e' /\
                    controllers_post res added).
Proof.
  unfold enable_controllers.
  wp_go.
  all: wp_done; forget_oracle; reflect_hyps; unfold controllers_post.
  all: split; [eval_writes; repeat constructor|].
  all: split; [intros Hres; try discriminate Hres;
               cbn [fd_table_after fd_close]; settle_sign;
               cbn [fd_table_after fd_close]; rewrite ?Z.eqb_refl; reflexivity|].
  all: intros rc Hres; try discriminate Hres; injection Hres as <-; lia.
Qed.

Lemma filter_subtree pid' f ws :
  Forall (fun w : string * string * Z => fst (fst w) = subtree_control) ws ->
  filter (fun w => String.eqb (fst (fst w)) (cgroup_file pid' f)) ws = [].
Proof.
  induction 1 as [|w ws Hw _ IH]; [reflexivity|].
  cbn [filter]. rewrite Hw. unfold subtree_control.
  now rewrite subtree_control_eqb.
Qed.

Lemma setup_cgroup_limits_wp before e :
  wp (setup_cgroup_limits K pid cpus memory) (st before [] e)
     (fun rc s' => exists added e', s' = st before added e' /\
                   cgroup_post pid cpus memory rc added).
Proof.
  unfold setup_cgroup_limits, cgroup_write, mkdir_safe.
  unfold and_then at 1. apply wp_bind.
  apply (Frame.wp_frame _ _ enable_controllers_wp).
  intros res added1 e1 (Hsub & Htable & Hneg). cbn [app].
  destruct res as [rc|].
  { (* the first block returned *)
    apply wp_ret. wp_done. specialize (Hneg rc eq_refl).
    unfold cgroup_post, writes_to.
    rewrite !(filter_subtree _ _ _ Hsub). cbn [map].
    repeat split; intros; try (exfalso; lia); auto. }
  specialize (Htable eq_refl). clear Hneg.
  wp_go.
  all: wp_done; forget_oracle; reflect_hyps.
  all: unfold cgroup_post, writes_to;
    rewrite (WriteFacts.file_writes_app _ _ Htable), !filter_app,
      !(filter_subtree _ _ _ Hsub); cbn [app].
  all: lazymatch goal with
       | |- context [file_writes ?ext] =>
           let W := fresh "W" in let HW := fresh "HW" in
           name_writes ext W HW; rewrite !HW; clear HW
       end.
  all: cbn [filter map fst snd];
    repeat (rewrite ?cgroup_file_eqb; eval_string_eqb; cbn [filter map fst snd]).
  all: repeat split; intros.
  all: try solve [exfalso; congruence | exfalso; lia].
  all: try solve [reflexivity | left; reflexivity | right; reflexivity
                 | right; split; reflexivity].
Qed.

Lemma cgroup_post_run s :
  cgroup_post pid cpus memory
    (fst (setup_cgroup_limits K pid cpus memory s))
    (emitted (setup_cgroup_limits K pid cpus memory) s).
Proof.
  pose proof (setup_cgroup_limits_wp (trace s) (errno s)) as H.
  rewrite <- st_init in H. unfold wp in H.
  destruct H as (added & e' & Hs & Hpost).
  now rewrite (emitted_st _ _ _ _ Hs).
Qed.

End Limits.
End CgroupFacts.

Import Libc Data Sys Sandbox Observe CgroupSpec Examples.

(** C6, as the code has it: setup_cgroup_limits writes to cpu.max only
    when cpus > 0, and then one text, "<quota> 100000", where quota is
    (unsigned int)(cpus * 100000): the floor of the product whenever that
    is in the range of unsigned int, that is, below 2^32.  It writes to memory.max and memory.swap.max only when
    memory > 0: the byte count in decimal, and "0"; memory.swap.max is
    written after memory.max.  When the function returns 0, the files for
    the limits that are set have been written. *)
Theorem setup_cgroup_limits_writes K pid cpus memory s :
  let rc := fst (setup_cgroup_limits K pid cpus memory s) in
  let ext := emitted (setup_cgroup_limits K pid cpus memory) s in
  let cpu_max := writes_to (cgroup_file pid "cpu.max") ext in
  let memory_max := writes_to (cgroup_file pid "memory.max") ext in
  let swap_max := writes_to (cgroup_file pid "memory.swap.max") ext in
  ((0 <? cpus)%float = false -> cpu_max = []) /\
  ((0 <? cpus)%float = true ->
     (cpu_max = [] \/ cpu_max = [cpu_max_text cpus]) /\
     (rc = 0 -> cpu_max = [cpu_max_text cpus])) /\
  (forall q, floor_double (cpus * 100000)%float = Some q -> 0 <= q < 2 ^ 32 ->
             cpu_max_text cpus = dec q +++ " 100000") /\
  (memory <= 0 -> memory_max = [] /\ swap_max = []) /\
  (0 < memory ->
     (memory_max = [] \/ memory_max = [dec memory]) /\
     (swap_max = [] \/ swap_max = ["0"] /\ memory_max = [dec memory]) /\
     (rc = 0 -> memory_max = [dec memory] /\ swap_max = ["0"])).
Proof.
  intros rc ext cpu_max memory_max swap_max.
  destruct (CgroupFacts.cgroup_post_run K pid cpus memory s)
    as (Hc0 & Hc1 & Hm0 & Hm1).
  split; [exact Hc0|]. split; [exact Hc1|]. split; [|split; [exact Hm0 | exact Hm1]].
  intros q Hq Hrange. unfold cpu_max_text.
  now rewrite (CgroupFacts.double_to_uint_floor _ q Hq Hrange).
Qed.

(** cpus = 0.5 and memory = 10 MiB, every call succeeding: cpu.max gets
    "50000 100000", memory.max "10485760" and memory.swap.max "0". *)
Lemma setup_cgroup_limits_half_cpu :
  writes_to (cgroup_file 4242 "cpu.max")
            (emitted (setup_cgroup_limits K_ok 4242 half_cpu ten_MiB) init)
  = ["50000 100000"] /\
  writes_to (cgroup_file 4242 "memory.max")
            (emitted (setup_cgroup_limits K_ok 4242 half_cpu ten_MiB) init)
  = ["10485760"] /\
  writes_to (cgroup_file 4242 "memory.swap.max")
            (emitted (setup_cgroup_limits K_ok 4242 half_cpu ten_MiB) init)
  = ["0"].
Proof.
  destruct (setup_cgroup_limits_writes K_ok 4242 half_cpu ten_MiB init)
    as (_ & Hcpu & Hq & _ & Hmem).
  destruct (Hcpu eq_refl) as [_ Hc]. rewrite (Hc eq_refl).
  rewrite (Hq 50000); [|reflexivity | lia].
  destruct Hmem as (_ & _ & Hm); [unfold ten_MiB; lia|].
  destruct (Hm eq_refl) as [-> ->].
  repeat split.
Defined.

(** C6 as stated fails: the quota is an unsigned int, so the floor of
    cpus * 100000 is written only when it is below 2^32.  For cpus = 50000
    the floor is 5000000000, and what cpu.max gets is another number. *)
Lemma setup_cgroup_limits_quota_wraps :
  ~ (forall cpus q,
        (0 <? cpus)%float = true ->
        floor_double (cpus * 100000)%float = Some q ->
        writes_to (cgroup_file 4242 "cpu.max")
                  (emitted (setup_cgroup_limits K_ok 4242 cpus 0) init)
        = [dec q +++ " 100000"]).
Proof.
  intros H.
  specialize (H 50000%float 5000000000 eq_refl eq_refl).
  vm_compute in H. discriminate H.
Qed.

Example setup_cgroup_limits_50000_cpus :
  floor_double (50000 * 100000)%float = Some 5000000000 /\
  writes_to (cgroup_file 4242 "cpu.max")
            (emitted (setup_cgroup_limits K_ok 4242 50000%float 0) init)
  = ["705032704 100000"].
Proof. split; reflexivity. Qed.

(** cpus = 0 and memory = 0: none of the three files is written. *)
Example setup_cgroup_limits_unlimited :
  let ext := emitted (setup_cgroup_limits K_ok 4242 0%float 0) init in
  fst (setup_cgroup_limits K_ok 4242 0%float 0 init) = 0 /\
  writes_to (cgroup_file 4242 "cpu.max") ext = [] /\
  writes_to (cgroup_file 4242 "memory.max") ext = [] /\
  writes_to (cgroup_file 4242 "memory.swap.max") ext = [] /\
  writes_to (cgroup_file 4242 "cgroup.procs") ext = ["4242"].
Proof. vm_compute. repeat split. Qed.

(* ================================================================== *)
(** * microbox_setup_seccomp (seccomp.c) and merge_syscall_lists       *)
(* ================================================================== *)

Module SeccompFacts.
Import Libc Data Sys Seccomp Sandbox Observe Logic Rules SeccompSpec.

Lemma name_in_list_In name l : name_in_list name l = true <-> In name l.
Proof.
  induction l as [|x l IH]; cbn; [split; [discriminate | contradiction]|].
  destruct (String.eqb_spec name x) as [->|Hne].
  - split; auto.
  - rewrite IH. split; [auto | intros [H|H]; [congruence | assumption]].
Qed.

Lemma loaded_filters_app a b :
  loaded_filters (a ++ b) = loaded_filters a ++ loaded_filters b.
Proof.
  induction a as [|[c r] a IH]; [reflexivity|].
  destruct c; cbn [app loaded_filters]; try exact IH.
  destruct (r <? 0); [exact IH | cbn [app]; now rewrite IH].
Qed.

Section Builder.
Variable K : kernel.

(** The loop: it loads nothing, keeps the default action and the
    attributes, and when it runs to its end the context has one ENOSYS rule
    more for every name that passed the tests, in order. *)
Lemma add_deny_rules_wp allow_ovr deny : forall ctx before added0 e,
  wp (add_deny_rules K deny allow_ovr ctx) (st before added0 e)
     (fun res s' =>
        exists added e', s' = st before (added0 ++ added) e' /\
          Forall loop_event added /\
          (def_action (snd res) = def_action ctx /\
           attr_ctl_nnp (snd res) = attr_ctl_nnp ctx) /\
          (fst res = None ->
           rules (snd res) = rules ctx ++ deny_rules K allow_ovr deny)).
Proof.
  induction deny as [|name rest IH]; intros ctx before added0 e.
  - cbn [add_deny_rules]. apply wp_ret.
    exists [], e. rewrite app_nil_r. split; [reflexivity|].
    split; [constructor|]. split; [split; reflexivity|].
    intros _. unfold deny_rules. cbn. now rewrite app_nil_r.
  - cbn [add_deny_rules]. unfold deny_rules, gets_rule.
    cbn [filter]. fold (gets_rule K allow_ovr).
    destruct (String.length name =? 0)%nat; cbn [negb andb]; [apply IH|].
    destruct (match allow_ovr with
              | Some allow => name_in_list name allow
              | None => false
              end); cbn [negb andb]; [apply IH|].
    unfold seccomp_syscall_resolve_name.
    destruct (k_resolve K name =? __NR_SCMP_ERROR); cbn [negb]; [apply IH|].
    unfold seccomp_rule_add, seccomp_release.
    wp_step. wp_step. wp_step. wp_branch; wp_step; cbn iota beta; rewrite Heqb.
    + (* seccomp_rule_add failed *)
      wp_go. eexists _, _. split; [reflexivity|].
      cbn [fst snd]. split; [repeat constructor|]. split; [split; reflexivity|].
      discriminate.
    + eapply wp_conseq; [apply IH|].
      cbn beta. intros [early ctx'] s' (added & e' & -> & Hload & Hdef & Hrules).
      cbn [fst snd] in *.
      eexists (_ :: added), e'. split; [unfold st; now rewrite <- app_assoc|].
      split; [constructor; [exact I | exact Hload]|]. split; [exact Hdef|].
      intros Hnone. rewrite (Hrules Hnone). cbn [rules map].
      now rewrite <- app_assoc.
Qed.

Lemma microbox_setup_seccomp_wp deny allow_ovr before e :
  wp (microbox_setup_seccomp K deny allow_ovr) (st before [] e)
     (fun rc s' => exists added e', s' = st before added e' /\
                   seccomp_run K deny allow_ovr added).
Proof.
  unfold microbox_setup_seccomp, seccomp_init, seccomp_load, seccomp_release.
  wp_step. wp_step. wp_step. wp_branch; wp_step.
  - (* seccomp_init gave NULL *)
    wp_step. wp_done. exists r, []. split; [constructor|]. now left.
  - wp_step.
    eapply wp_conseq; [apply add_deny_rules_wp|].
    cbn beta. intros [early ctx] s' (added & e' & -> & Hloop & [Hdef Hattr] & Hrules).
    cbn [fst snd rules def_action attr_ctl_nnp app] in *.
    destruct early as [rc|].
    + wp_step. wp_done. exists r, added. split; [exact Hloop|]. right. now left.
    + specialize (Hrules eq_refl).
      assert (Hctx : ctx = {| def_action := SCMP_ACT_ALLOW;
                              rules := deny_rules K allow_ovr deny;
                              attr_ctl_nnp := 1 |}).
      { destruct ctx as [d rs nnp]. cbn in *. now subst. }
      subst ctx.
      wp_go.
      all: wp_done; exists r, added; (split; [exact Hloop|]); right; right;
        eexists _, _; reflexivity.
Qed.

Lemma seccomp_run_emitted deny allow_ovr s :
  seccomp_run K deny allow_ovr (emitted (microbox_setup_seccomp K deny allow_ovr) s).
Proof.
  pose proof (microbox_setup_seccomp_wp deny allow_ovr (trace s) (errno s)) as H.
  rewrite <- st_init in H. unfold wp in H.
  destruct H as (added & e' & Hs & Hpost).
  now rewrite (emitted_st _ _ _ _ Hs).
Qed.

End Builder.

Lemma rule_for_deny (K : kernel) nr names :
  rule_for nr (map (fun name => (k_resolve K name, SCMP_ACT_ERRNO ENOSYS)) names)
  = if existsb (fun name => k_resolve K name =? nr) names
    then Some (SCMP_ACT_ERRNO ENOSYS) else None.
Proof.
  induction names as [|n names IH]; [reflexivity|].
  cbn [map rule_for existsb]. destruct (k_resolve K n =? nr); [reflexivity | exact IH].
Qed.

Lemma length_zero_empty (s : string) : (String.length s =? 0)%nat = true <-> s = "".
Proof.
  destruct s; cbn; split; congruence.
Qed.

(** The names the loop adds a rule for are those of the merged lists that
    are in the effective deny set and resolve. *)
Lemma gets_rule_merged K opts name :
  k_resolve K "" = __NR_SCMP_ERROR ->
  let '(deny, allow) := snd (merge_syscall_lists opts) in
  (In name (filter (gets_rule K allow) deny)) <->
  (effective_deny opts name /\ k_resolve K name <> __NR_SCMP_ERROR).
Proof.
  intros Hempty. unfold merge_syscall_lists, effective_deny.
  unfold microbox_get_docker_default_denylist.
  destruct (syscalls_deny opts) as [|d ds] eqn:Hd;
    destruct (syscalls_allow opts) as [|a al] eqn:Ha;
    cbn [List.length Nat.eqb andb snd];
    rewrite filter_In; unfold gets_rule;
    rewrite !andb_true_iff, !negb_true_iff, ?app_nil_r;
    rewrite <- ?not_true_iff_false, ?name_in_list_In, ?length_zero_empty, Z.eqb_eq.
  all: split;
    [ intros (Hin & (Hne & Hallow) & Hres); repeat split; auto
    | intros ((Hin & Hallow) & Hres); repeat split; auto;
      intros ->; contradiction ].
  all: try (intros []).
Qed.

End SeccompFacts.

Import Libc Data Sys Seccomp Sandbox Observe SeccompSpec Examples.

(** C1: the filter that microbox_setup_seccomp loads for the lists that
    merge_syscall_lists makes from the options has default action ALLOW,
    and it answers ENOSYS exactly for the numbers of the names in
    (default_deny ∪ user_deny) \ user_allow that resolve; for every other
    number it answers ALLOW.  So a name of the allow list adds no rule, a
    name that does not resolve adds none, and every other denied name adds
    one.  (No syscall has the empty name, the condition on the resolver.) *)
Theorem seccomp_filter_denies K opts s :
  k_resolve K "" = __NR_SCMP_ERROR ->
  let '(deny, allow) := snd (merge_syscall_lists opts) in
  forall f,
    In f (loaded_filters (emitted (microbox_setup_seccomp K deny allow) s)) ->
    def_action f = SCMP_ACT_ALLOW /\
    forall nr,
      (filter_action f nr = SCMP_ACT_ERRNO ENOSYS <->
       exists name, effective_deny opts name /\
                    k_resolve K name = nr /\ nr <> __NR_SCMP_ERROR) /\
      (filter_action f nr = SCMP_ACT_ERRNO ENOSYS \/
       filter_action f nr = SCMP_ACT_ALLOW).
Proof.
  intros Hempty.
  pose proof (fun name => SeccompFacts.gets_rule_merged K opts name Hempty) as Hnames.
  destruct (snd (merge_syscall_lists opts)) as [deny allow].
  intros f Hf.
  assert (Hshape : f = {| def_action := SCMP_ACT_ALLOW;
                          rules := deny_rules K allow deny;
                          attr_ctl_nnp := 1 |}).
  { destruct (SeccompFacts.seccomp_run_emitted K deny allow s)
      as (r0 & loop_events & Hloop & Hrun).
    assert (Hnone : loaded_filters loop_events = []).
    { clear Hrun. induction Hloop as [|[c r] l Hev _ IH]; [reflexivity|].
      destruct c; try contradiction; exact IH. }
    destruct Hrun as [Hrun | [Hrun | (r & r' & Hrun)]]; rewrite Hrun in Hf.
    - contradiction.
    - cbn [loaded_filters] in Hf. rewrite Hnone in Hf. contradiction.
    - cbn [loaded_filters] in Hf.
      rewrite SeccompFacts.loaded_filters_app, Hnone in Hf.
      cbn [app loaded_filters] in Hf.
      destruct (r <? 0); [contradiction|].
      destruct Hf as [Hf | []]. now symmetry. }
  subst f. split; [reflexivity|].
  intros nr. unfold filter_action, deny_rules. cbn [rules def_action].
  rewrite SeccompFacts.rule_for_deny.
  destruct (existsb (fun name => k_resolve K name =? nr)
                    (filter (gets_rule K allow) deny)) eqn:Hex.
  - split; [|now left]. split; [intros _|reflexivity].
    apply existsb_exists in Hex as (name & Hin & Hnr).
    apply Z.eqb_eq in Hnr. apply Hnames in Hin as [Heff Hres].
    exists name. repeat split; [apply Heff | apply Heff | exact Hnr | congruence].
  - split; [|now right]. split; [discriminate|].
    intros (name & Heff & Hnr & Hres). exfalso.
    assert (Hin : In name (filter (gets_rule K allow) deny)).
    { apply Hnames. split; [exact Heff | congruence]. }
    assert (Htrue : existsb (fun name => k_resolve K name =? nr)
                            (filter (gets_rule K allow) deny) = true).
    { apply existsb_exists. exists name. split; [exact Hin | now apply Z.eqb_eq]. }
    congruence.
Qed.

(** microbox --allow-syscall ptrace --deny-syscall chroot on a machine that
    knows mount, umount2, ptrace, reboot, clone3, bpf and chroot: the
    loaded filter answers ENOSYS for mount (165) and chroot (161) and
    ALLOW for ptrace (101). *)
Lemma seccomp_filter_allow_ptrace :
  let '(deny, allow) := snd (merge_syscall_lists opts_syscalls) in
  exists f,
    loaded_filters (emitted (microbox_setup_seccomp K_ok deny allow) init) = [f] /\
    def_action f = SCMP_ACT_ALLOW /\
    filter_action f 165 = SCMP_ACT_ERRNO ENOSYS /\
    filter_action f 161 = SCMP_ACT_ERRNO ENOSYS /\
    filter_action f 101 = SCMP_ACT_ALLOW.
Proof.
  pose proof (seccomp_filter_denies K_ok opts_syscalls init eq_refl) as H.
  cbn [snd merge_syscall_lists opts_syscalls syscalls_deny syscalls_allow
       List.length Nat.eqb andb] in *.
  eexists. split; [vm_compute; reflexivity|].
  destruct (H _ ltac:(vm_compute; left; reflexivity)) as [Hdef Hact].
  split; [exact Hdef|]. repeat split; vm_compute; reflexivity.
Defined.

(* ================================================================== *)
(** * The file system builder (fs.c)                                   *)
(* ================================================================== *)

Ltac setup_leaf := wp_done; solve_forall ltac:(reflexivity).

Module FsFacts.
Import Libc Data Sys Utils Fs Observe Logic Rules TraceProps Frame FsSpec.

Section Builder.
Variable K : kernel.

Lemma maybe_mkdir_setup path mode : emits_only setup_event (maybe_mkdir K path mode).
Proof.
  intros before e. unfold maybe_mkdir. wp_go; setup_leaf.
Qed.

Lemma mkdir_safe_setup path mode : emits_only setup_event (mkdir_safe K path mode).
Proof.
  intros before e. unfold mkdir_safe. wp_go; setup_leaf.
Qed.

Lemma mkdirp_loop_setup path rest : forall i,
  emits_only setup_event (mkdirp_loop K path rest i).
Proof.
  induction rest as [|c rest IH]; intros i before e; cbn [mkdirp_loop].
  - wp_go; setup_leaf.
  - destruct (Ascii.eqb c "/").
    + repeat first [ wp_step | wp_branch
                   | use_only (maybe_mkdir_setup (substring 0 i path) 511)
                   | use_only (IH (S i)) ];
        setup_leaf.
    + apply IH.
Qed.

Lemma mkdirp_setup path : emits_only setup_event (mkdirp K path).
Proof.
  intros before e. unfold mkdirp.
  repeat first [ wp_step | wp_branch
               | use_only (mkdirp_loop_setup path
                             (match path with String _ t => t | EmptyString => EmptyString end) 1)
               | use_only (maybe_mkdir_setup path 511) ];
    setup_leaf.
Qed.

Lemma is_directory_setup path : emits_only setup_event (is_directory K path).
Proof.
  intros before e. unfold is_directory.
  destruct path as [p|]; [destruct (String.length p =? 0)%nat|]; wp_go; setup_leaf.
Qed.

Lemma microbox_bind_mount_setup base spec :
  emits_only setup_event (microbox_bind_mount K base spec).
Proof.
  intros before e. unfold microbox_bind_mount.
  repeat first [ wp_step | wp_branch
               | use_only (mkdirp_setup (snprintf PATH_MAX (base +++ dest spec)))
               | use_only (mkdirp_setup (dirname (snprintf PATH_MAX (base +++ dest spec))))
               | match goal with
                 | |- wp (match mode spec with MNT_RO => _ | MNT_RW => _ end) _ _ =>
                     destruct (mode spec)
                 end ];
    setup_leaf.
Qed.

Lemma microsandbox_create_tmpfs_setup path :
  emits_only setup_event (microsandbox_create_tmpfs K path).
Proof.
  intros before e. unfold microsandbox_create_tmpfs.
  repeat first [ wp_step | wp_branch | use_only (mkdir_safe_setup path 493) ];
    setup_leaf.
Qed.

Lemma microsandbox_create_overlayfs_setup src mountpoint :
  emits_only setup_event (microsandbox_create_overlayfs K src mountpoint).
Proof.
  intros before e. unfold microsandbox_create_overlayfs.
  wp_go; setup_leaf.
Qed.

Lemma microbox_bind_mount_proc_setup base :
  emits_only setup_event (microbox_bind_mount_proc K base).
Proof.
  intros before e. unfold microbox_bind_mount_proc.
  repeat first [ wp_step | wp_branch | use_only (mkdirp_setup (snprintf PATH_MAX (base +++ "/proc"))) ];
    setup_leaf.
Qed.

Lemma dev_filesystems_setup base : emits_only setup_event (dev_filesystems K base).
Proof.
  intros before e. unfold dev_filesystems.
  repeat first [ wp_step | wp_branch
               | use_only (mkdirp_setup (snprintf PATH_MAX (base +++ "/dev")))
               | use_only (mkdirp_setup (snprintf PATH_MAX (base +++ "/dev/pts")))
               | use_only (mkdirp_setup (snprintf PATH_MAX (base +++ "/dev/shm"))) ];
    setup_leaf.
Qed.

Lemma bind_mount_devices_setup base devs :
  emits_only setup_event (bind_mount_devices K base devs).
Proof.
  induction devs as [|d devs IH]; intros before e; cbn [bind_mount_devices].
  - wp_go; setup_leaf.
  - repeat first [ wp_step | wp_branch
                 | use_only (microbox_bind_mount_setup base
                               {| host := d; dest := d; mode := MNT_RW |})
                 | use_only IH ];
      setup_leaf.
Qed.

Lemma microbox_bind_mount_dev_setup base :
  emits_only setup_event (microbox_bind_mount_dev K base).
Proof.
  intros before e. unfold microbox_bind_mount_dev.
  repeat first [ wp_step | wp_branch
               | use_only (dev_filesystems_setup base)
               | use_only (bind_mount_devices_setup base dev_dirs) ];
    setup_leaf.
Qed.

Lemma bind_user_mounts_setup base ms :
  emits_only setup_event (bind_user_mounts K base ms).
Proof.
  induction ms as [|m ms IH]; intros before e; cbn [bind_user_mounts].
  - wp_go; setup_leaf.
  - repeat first [ wp_step | wp_branch
                 | use_only (microbox_bind_mount_setup base m)
                 | use_only IH ];
      setup_leaf.
Qed.

(** The common end of both set-ups. *)
Lemma enter_new_root_wp new_root before e :
  wp (enter_new_root K new_root) (st before [] e)
     (fun _ s' => exists added e', s' = st before added e' /\
                  pivot_tail new_root added).
Proof.
  unfold enter_new_root. wp_go.
  all: wp_done; unfold pivot_tail.
  - right. left. eauto.
  - right. right. left. eauto 6.
  - right. right. right. exists r, r0, r1, [], 0%nat. repeat split; auto.
  - right. right. right. eexists r, r0, r1, _, 1%nat.
    repeat split; auto. intros; lia.
  - right. right. right. eexists r, r0, r1, _, 2%nat.
    repeat split; auto. intros; lia.
  - right. right. right. eexists r, r0, r1, _, 3%nat.
    repeat split; auto. intros; lia.
  - right. right. right. eexists r, r0, r1, _, 3%nat.
    repeat split; auto. intros; lia.
Qed.

Lemma prepare_cons new_root ev rest :
  setup_event ev -> prepare_then_pivot new_root rest ->
  prepare_then_pivot new_root (ev :: rest).
Proof.
  intros Hev (setup & tail & -> & Hsetup & Htail).
  exists (ev :: setup), tail. repeat split; auto.
Qed.

Lemma prepare_app new_root a rest :
  Forall setup_event a -> prepare_then_pivot new_root rest ->
  prepare_then_pivot new_root (a ++ rest).
Proof.
  intros Ha (setup & tail & -> & Hsetup & Htail).
  exists (a ++ setup), tail. rewrite app_assoc. repeat split; auto.
  apply Forall_app. auto.
Qed.

Lemma prepare_tail new_root tail :
  pivot_tail new_root tail -> prepare_then_pivot new_root tail.
Proof.
  intros H. exists [], tail. repeat split; auto.
Qed.

Lemma prepare_nil new_root : prepare_then_pivot new_root [].
Proof. apply prepare_tail. now left. Qed.

Lemma prepare_setup new_root a :
  Forall setup_event a -> prepare_then_pivot new_root a.
Proof.
  intros Ha. exists a, []. rewrite app_nil_r. repeat split; auto. now left.
Qed.

Lemma microsandbox_create_overlayfs_wp src mountpoint before e :
  wp (microsandbox_create_overlayfs K src mountpoint) (st before [] e)
     (fun res s' => exists added e', s' = st before added e' /\
        (Forall setup_event added /\
         forall fs, res = Some fs -> mergedir fs = path_join mountpoint "merged")).
Proof.
  unfold microsandbox_create_overlayfs. wp_go.
  all: wp_done; split; [solve_forall ltac:(reflexivity)|].
  all: intros fs Hfs; try discriminate Hfs; now injection Hfs as <-.
Qed.

Ltac fs_leaf :=
  wp_done;
  eexists _, _; split; [reflexivity|];
  repeat first [rewrite <- app_assoc | progress cbn [app]];
  repeat first
    [ apply prepare_nil
    | apply prepare_tail; assumption
    | apply prepare_setup; assumption
    | apply prepare_cons; [reflexivity|]
    | apply prepare_app; [assumption|] ].

Lemma microsandbox_setup_tmpfs_wp opts before e :
  wp (microsandbox_setup_tmpfs K opts) (st before [] e)
     (fun _ s' => exists added e', s' = st before added e' /\ fs_run "/box" added).
Proof.
  unfold microsandbox_setup_tmpfs.
  repeat first [ wp_step | wp_branch
               | use_only (microsandbox_create_tmpfs_setup "/box")
               | use_only (microbox_bind_mount_proc_setup "/box")
               | use_only (microbox_bind_mount_dev_setup "/box")
               | use_only (bind_user_mounts_setup "/box" (mounts opts))
               | use_frame (enter_new_root_wp "/box") ].
  all: fs_leaf.
Qed.

Lemma microsandbox_setup_rootfs_wp opts before e :
  wp (microsandbox_setup_rootfs K opts) (st before [] e)
     (fun _ s' => exists added e', s' = st before added e' /\
                  fs_run "/box/overlay/merged" added).
Proof.
  unfold microsandbox_setup_rootfs.
  repeat first [ wp_step | wp_branch
               | use_only (is_directory_setup (rootfs opts))
               | use_only (microsandbox_create_tmpfs_setup "/box") ].
  all: try solve [fs_leaf].
  use_frame (microsandbox_create_overlayfs_wp
               (match rootfs opts with Some p => p | None => "" end) "/box/overlay").
  match goal with H : _ /\ _ |- _ => destruct H as [Hsetup Hfs] end.
  destruct a1 as [fs|]; [|wp_step; fs_leaf].
  rewrite (Hfs fs eq_refl). change (path_join "/box/overlay" "merged")
    with "/box/overlay/merged".
  repeat first [ wp_step | wp_branch
               | use_only (bind_user_mounts_setup "/box/overlay/merged" (mounts opts))
               | use_only (microbox_bind_mount_proc_setup "/box/overlay/merged")
               | use_only (microbox_bind_mount_dev_setup "/box/overlay/merged")
               | use_frame (enter_new_root_wp "/box/overlay/merged") ].
  all: fs_leaf.
Qed.

Lemma microsandbox_setup_fs_run opts s :
  fs_mode opts <> FS_HOST ->
  fs_run (new_root_of opts) (emitted (microsandbox_setup_fs K opts) s).
Proof.
  intros Hmode. unfold microsandbox_setup_fs, new_root_of.
  destruct (fs_mode opts); [|congruence|].
  - pose proof (microsandbox_setup_tmpfs_wp opts (trace s) (errno s)) as H.
    rewrite <- st_init in H. unfold wp in H.
    destruct H as (added & e' & Hs & Hpost).
    now rewrite (emitted_st _ _ _ _ Hs).
  - pose proof (microsandbox_setup_rootfs_wp opts (trace s) (errno s)) as H.
    rewrite <- st_init in H. unfold wp in H.
    destruct H as (added & e' & Hs & Hpost).
    now rewrite (emitted_st _ _ _ _ Hs).
Qed.

End Builder.

(** Where an event with property [P] is, when the front of the list has
    none. *)
Lemma split_after_front (P : event -> bool) A : forall T pre x post,
  Forall (fun ev => P ev = false) A -> P x = true ->
  A ++ T = pre ++ x :: post ->
  exists pre2, pre = A ++ pre2 /\ T = pre2 ++ x :: post.
Proof.
  induction A as [|a A IH]; intros T pre x post HA Hx Heq.
  - exists pre. auto.
  - inversion HA as [|? ? Ha HA']; subst.
    destruct pre as [|p pre]; cbn [app] in Heq; injection Heq as -> Heq.
    + congruence.
    + destruct (IH _ _ _ _ HA' Hx Heq) as (pre2 & -> & ->).
      exists pre2. auto.
Qed.

Lemma in_firstn {A} (x : A) n : forall l, In x (firstn n l) -> In x l.
Proof.
  induction n as [|n IH]; intros [|y l]; cbn; try contradiction.
  intros [H|H]; [now left | right; now apply IH].
Qed.

Lemma after_pivot_calls (rest : list event) n :
  map fst rest = firstn n after_pivot ->
  Forall (fun ev => is_mount (fst ev) = false /\ is_pivot_root (fst ev) = false) rest.
Proof.
  intros H. apply Forall_forall. intros ev Hin.
  assert (Hc : In (fst ev) (firstn n after_pivot)).
  { rewrite <- H. now apply in_map. }
  apply in_firstn in Hc. unfold after_pivot in Hc. cbn [In] in Hc.
  destruct Hc as [<- | [<- | [<- | []]]]; split; reflexivity.
Qed.

Lemma setup_not_pivot (setup : list event) :
  Forall setup_event setup ->
  Forall (fun ev => is_pivot_root (fst ev) = false /\ is_chdir (fst ev) = false
                    /\ is_umount (fst ev) = false) setup.
Proof.
  apply Forall_impl. intros [c r]. unfold setup_event. cbn [fst].
  destruct c; cbn; intros; try discriminate; auto.
Qed.

(** The place of pivot_root in a run of the shape [fs_run]. *)
Lemma fs_run_pivot new_root ext pre a b r post :
  fs_run new_root ext ->
  ext = pre ++ (PivotRoot a b, r) :: post ->
  (exists pre' r1 r2,
      pre = pre' ++ [(Chdir new_root, r1); (Mkdir ".old_root" 448, r2)] /\
      0 <= r1 /\ 0 <= r2 /\
      Forall (fun ev => is_pivot_root (fst ev) = false /\ is_chdir (fst ev) = false
                        /\ is_umount (fst ev) = false) pre') /\
  Forall (fun ev => is_mount (fst ev) = false /\ is_pivot_root (fst ev) = false) post /\
  (exists n, map fst post = firstn n after_pivot).
Proof.
  intros (r0 & rest & -> & setup & tail & -> & Hsetup & Htail) Heq.
  pose proof (setup_not_pivot _ Hsetup) as Hclean.
  assert (Hfront : Forall (fun ev => pivot_ev ev = false)
                          ((private_root_mount, r0) :: setup)).
  { constructor; [reflexivity|].
    eapply Forall_impl; [|exact Hclean]. intros ev H. apply H. }
  change ((private_root_mount, r0) :: setup ++ tail)
    with (((private_root_mount, r0) :: setup) ++ tail) in Heq.
  destruct (split_after_front pivot_ev _ _ pre (PivotRoot a b, r) post
              Hfront eq_refl Heq) as (pre2 & -> & Htl).
  destruct Htail as [-> | [(r1 & _ & ->) | [(r1 & r2 & _ & _ & ->)
                    | (r1 & r2 & r3 & after & n & Hr1 & Hr2 & -> & Hafter & _)]]].
  - destruct pre2; discriminate Htl.
  - destruct pre2 as [|? [|? ?]]; discriminate Htl.
  - destruct pre2 as [|? [|? [|? ?]]]; discriminate Htl.
  - destruct pre2 as [|p1 [|p2 [|p3 pre3]]]; try discriminate Htl.
    + cbn [app] in Htl. inversion Htl; subst.
      split; [|split].
      * exists ((private_root_mount, r0) :: setup), r1, r2.
        repeat split; auto. 
      * eapply after_pivot_calls; eauto.
      * eauto.
    + exfalso. cbn [app] in Htl. inversion Htl; subst.
      pose proof (after_pivot_calls _ _ Hafter) as Hno.
      apply Forall_app in Hno as [_ Hno].
      inversion Hno as [|? ? [_ Hp] _]. discriminate Hp.
Qed.

End FsFacts.

Import Libc Data Sys Utils Fs Observe FsSpec Examples.

(** C4: for fs_mode Tmpfs and Rootfs the first call of
    microsandbox_setup_fs is mount(NULL, "/", NULL, MS_PRIVATE|MS_REC,
    NULL).  Wherever pivot_root occurs in the run, the calls before it end
    with a chdir into the new root and the mkdir of .old_root, both
    successful, and before those there is no chdir, umount or pivot_root:
    only the calls that prepare the new root, all mounts among them.  After
    pivot_root there is no mount and no second pivot_root: what follows is
    a beginning of chdir("/"), umount2("/.old_root", MNT_DETACH),
    rmdir("/.old_root"). *)
Theorem microsandbox_setup_fs_order K opts s :
  fs_mode opts = FS_TMPFS \/ fs_mode opts = FS_ROOTFS ->
  let ext := emitted (microsandbox_setup_fs K opts) s in
  (exists r0 rest,
      ext = (Mount None "/" None (Z.lor MS_PRIVATE MS_REC) None, r0) :: rest) /\
  (forall pre a b r post,
      ext = pre ++ (PivotRoot a b, r) :: post ->
      (exists pre' r1 r2,
          pre = pre' ++ [(Chdir (new_root_of opts), r1); (Mkdir ".old_root" 448, r2)] /\
          0 <= r1 /\ 0 <= r2 /\
          Forall (fun ev => is_pivot_root (fst ev) = false /\
                            is_chdir (fst ev) = false /\
                            is_umount (fst ev) = false) pre') /\
      Forall (fun ev => is_mount (fst ev) = false /\
                        is_pivot_root (fst ev) = false) post /\
      (exists n, map fst post = firstn n after_pivot)).
Proof.
  intros Hmode ext.
  assert (Hrun : fs_run (new_root_of opts) ext).
  { apply FsFacts.microsandbox_setup_fs_run. destruct Hmode; congruence. }
  split.
  - destruct Hrun as (r0 & rest & Hext & _). exists r0, rest. exact Hext.
  - intros pre a b r post Hsplit.
    exact (FsFacts.fs_run_pivot _ _ _ _ _ _ _ Hrun Hsplit).
Qed.

(** --fs tmpfs --proc --dev --mount-ro /srv:/data, everything succeeding:
    the run begins with the private mount of "/", reaches pivot_root, and
    ends with the three calls that follow it. *)
Lemma microsandbox_setup_fs_tmpfs_run :
  let ext := emitted (microsandbox_setup_fs K_ok opts_tmpfs_full) init in
  hd_error ext = Some (Mount None "/" None (Z.lor MS_PRIVATE MS_REC) None, 0) /\
  map fst (skipn (List.length ext - 6) ext)
  = [Chdir "/box"; Mkdir ".old_root" 448; PivotRoot "." "./.old_root";
     Chdir "/"; Umount2 "/.old_root" MNT_DETACH; Rmdir "/.old_root"] /\
  existsb (fun ev => is_mount (fst ev)) (skipn (List.length ext - 3) ext) = false.
Proof.
  destruct (microsandbox_setup_fs_order K_ok opts_tmpfs_full init) as [Hfirst Hpivot].
  - left. reflexivity.
  - cbv zeta. repeat split; vm_compute; reflexivity.
Defined.

Example microsandbox_setup_fs_rootfs_run :
  let ext := emitted (microsandbox_setup_fs K_ok opts_rootfs_full) init in
  hd_error ext = Some (Mount None "/" None (Z.lor MS_PRIVATE MS_REC) None, 0) /\
  map fst (skipn (List.length ext - 6) ext)
  = [Chdir "/box/overlay/merged"; Mkdir ".old_root" 448;
     PivotRoot "." "./.old_root";
     Chdir "/"; Umount2 "/.old_root" MNT_DETACH; Rmdir "/.old_root"].
Proof. vm_compute. split; reflexivity. Qed.

(* ================================================================== *)
(** * The child branch of microbox_sandbox_spawn                       *)
(* ================================================================== *)

Module ChildFacts.
Import Libc Data Sys Utils Fs Netns Seccomp Sandbox Observe Logic Rules
       TraceProps Frame FsSpec SeccompSpec ChildSpec.

Lemma setup_is_prepare ev : setup_event ev -> prepare_event ev.
Proof.
  destruct ev as [c r]. unfold setup_event, prepare_event. cbn [fst].
  destruct c; cbn; congruence.
Qed.

Lemma pivot_tail_prepare new_root tail :
  pivot_tail new_root tail -> Forall prepare_event tail.
Proof.
  intros [-> | [(r1 & _ & ->) | [(r1 & r2 & _ & _ & ->)
         | (r1 & r2 & r3 & rest & n & _ & _ & -> & Hrest & _)]]];
    repeat constructor.
  apply Forall_forall. intros [c r] Hin.
  assert (Hc : In c (firstn n after_pivot)).
  { rewrite <- Hrest. apply (in_map fst) in Hin. exact Hin. }
  apply FsFacts.in_firstn in Hc. unfold after_pivot in Hc. cbn [In] in Hc.
  destruct Hc as [<- | [<- | [<- | []]]]; reflexivity.
Qed.

Lemma fs_run_prepare new_root ext : fs_run new_root ext -> Forall prepare_event ext.
Proof.
  intros (r0 & rest & -> & setup & tail & -> & Hsetup & Htail).
  constructor; [reflexivity|]. apply Forall_app. split.
  - eapply Forall_impl; [|exact Hsetup]. apply setup_is_prepare.
  - eapply pivot_tail_prepare; eauto.
Qed.

Section Child.
Variable K : kernel.

Lemma microsandbox_setup_fs_prepare opts :
  emits_only prepare_event (microsandbox_setup_fs K opts).
Proof.
  intros before e. unfold microsandbox_setup_fs.
  destruct (fs_mode opts).
  - eapply wp_conseq; [apply FsFacts.microsandbox_setup_tmpfs_wp|].
    cbn beta. intros _ s' (added & e' & -> & Hrun).
    exists added, e'. split; [reflexivity|]. eapply fs_run_prepare; eauto.
  - apply wp_ret. exists [], e. split; [reflexivity | constructor].
  - eapply wp_conseq; [apply FsFacts.microsandbox_setup_rootfs_wp|].
    cbn beta. intros _ s' (added & e' & -> & Hrun).
    exists added, e'. split; [reflexivity|]. eapply fs_run_prepare; eauto.
Qed.

Lemma child_run_prepare deny allow pre :
  Forall prepare_event pre -> child_run K deny allow pre.
Proof.
  intros H. exists pre, [], []. rewrite !app_nil_r. repeat split; auto.
Qed.

Lemma child_run_cons deny allow ev rest :
  prepare_event ev -> child_run K deny allow rest ->
  child_run K deny allow (ev :: rest).
Proof.
  intros Hev (pre & sec & post & -> & Hpre & Hsec & Hpost).
  exists (ev :: pre), sec, post. repeat split; auto.
Qed.

Lemma child_run_app deny allow a rest :
  Forall prepare_event a -> child_run K deny allow rest ->
  child_run K deny allow (a ++ rest).
Proof.
  intros Ha (pre & sec & post & -> & Hpre & Hsec & Hpost).
  exists (a ++ pre), sec, post. rewrite <- app_assoc. repeat split; auto.
  apply Forall_app. auto.
Qed.

Lemma child_run_seccomp deny allow sec :
  seccomp_run K deny allow sec -> child_run K deny allow sec.
Proof.
  intros H. exists [], sec, []. rewrite app_nil_r. repeat split; auto.
Qed.

Lemma child_run_seccomp_exec deny allow sec path argv envp r :
  seccomp_run K deny allow sec ->
  child_run K deny allow (sec ++ [(Execve path argv envp, r)]).
Proof.
  intros H. exists [], sec, [(Execve path argv envp, r)].
  repeat split; auto. right. eauto.
Qed.

Ltac child_leaf :=
  wp_done;
  repeat first [rewrite <- app_assoc | progress cbn [app]];
  repeat first
    [ apply child_run_seccomp_exec; assumption
    | apply child_run_seccomp; assumption
    | apply child_run_prepare; solve [solve_forall ltac:(reflexivity)]
    | apply child_run_cons; [reflexivity|]
    | apply child_run_app; [assumption|] ].

Lemma spawn_child_wp opts sync_pipe before e :
  wp (spawn_child K opts sync_pipe) (st before [] e)
     (fun _ s' => exists added e', s' = st before added e' /\
        let '(deny, allow) := snd (merge_syscall_lists opts) in
        child_run K deny allow added).
Proof.
  unfold spawn_child, microbox_configure_container_network.
  destruct (merge_syscall_lists opts) as [rc [deny allow]] eqn:Hmerge.
  assert (rc = 0).
  { unfold merge_syscall_lists in Hmerge.
    destruct ((_ =? _)%nat && _) in Hmerge; congruence. }
  subst rc. cbn [snd].
  unfold generate_interface_names. cbv beta iota.
  repeat first [ wp_step | wp_branch
               | use_only (microsandbox_setup_fs_prepare opts)
               | use_frame (SeccompFacts.microbox_setup_seccomp_wp K deny allow)
               | match goal with
                 | |- wp (match hostname opts with Some _ => _ | None => _ end) _ _ =>
                     destruct (hostname opts)
                 end ].
  all: child_leaf.
Qed.

Lemma spawn_child_run opts sync_pipe s :
  let '(deny, allow) := snd (merge_syscall_lists opts) in
  child_run K deny allow (emitted (spawn_child K opts sync_pipe) s).
Proof.
  pose proof (spawn_child_wp opts sync_pipe (trace s) (errno s)) as H.
  rewrite <- st_init in H. unfold wp in H.
  destruct H as (added & e' & Hs & Hpost).
  now rewrite (emitted_st _ _ _ _ Hs).
Qed.

End Child.

Lemma split_at_spec p tr : forall pre x post,
  split_at p tr = Some (pre, x, post) -> tr = pre ++ x :: post.
Proof.
  induction tr as [|ev tr IH]; intros pre x post H; cbn [split_at] in H.
  - discriminate.
  - destruct (p (fst ev)).
    + injection H as <- <- <-. reflexivity.
    + destruct (split_at p tr) as [[[pre' x'] post']|]; [|discriminate].
      injection H as <- <- <-. cbn [app]. f_equal. now apply IH.
Qed.

Lemma loop_not_load l : Forall loop_event l -> Forall (fun ev => load_ev ev = false) l.
Proof.
  apply Forall_impl. intros [c r]. unfold loop_event, load_ev. cbn [fst].
  destruct c; cbn; intros; try contradiction; reflexivity.
Qed.

Lemma prepare_not_load l :
  Forall prepare_event l -> Forall (fun ev => load_ev ev = false) l.
Proof.
  apply Forall_impl. intros [c r]. unfold prepare_event, load_ev. cbn [fst].
  destruct c; cbn; intros; try discriminate; reflexivity.
Qed.

(** In a run of the child, the context of a seccomp_load has the
    attribute SCMP_FLTATR_CTL_NNP as seccomp_init set it, and the load is
    followed at once by seccomp_release of the same context; after that
    only execve can come. *)
Lemma child_run_load K deny allow ext pre ctx r post :
  child_run K deny allow ext ->
  ext = pre ++ (SeccompLoad ctx, r) :: post ->
  attr_ctl_nnp ctx = 1 /\
  exists r' post',
    post = (SeccompRelease ctx, r') :: post' /\
    (post' = [] \/ exists path argv envp x, post' = [(Execve path argv envp, x)]).
Proof.
  intros (pre0 & sec & post0 & -> & Hpre0 & Hsec & Hpost0) Heq.
  assert (Hpost_no : Forall (fun ev => load_ev ev = false) post0).
  { destruct Hpost0 as [-> | (p & a & en & x & ->)]; repeat constructor. }
  assert (Hno : forall A, Forall (fun ev => load_ev ev = false) A ->
                          A = pre ++ (SeccompLoad ctx, r) :: post -> False).
  { intros A HA ->. apply Forall_app in HA as [_ HA].
    inversion HA as [|? ? Hx _]. discriminate Hx. }
  destruct Hsec as [-> | (r0 & loop_events & Hloop & Hshape)].
  { exfalso. apply (Hno (pre0 ++ post0)); [|exact Heq].
    apply Forall_app. split; [now apply prepare_not_load | exact Hpost_no]. }
  destruct Hshape as [-> | [-> | (r1 & r' & Hsec)]].
  - exfalso. eapply Hno; [|exact Heq].
    apply Forall_app. split; [now apply prepare_not_load|].
    constructor; [reflexivity | exact Hpost_no].
  - exfalso. eapply Hno; [|exact Heq].
    apply Forall_app. split; [now apply prepare_not_load|].
    constructor; [reflexivity|].
    apply Forall_app. split; [now apply loop_not_load | exact Hpost_no].
  - cbv zeta in Hsec. subst sec.
    set (f := {| def_action := SCMP_ACT_ALLOW; rules := deny_rules K allow deny;
                 attr_ctl_nnp := 1 |}) in *.
    assert (Hfront : Forall (fun ev => load_ev ev = false)
                            (pre0 ++ (SeccompInit SCMP_ACT_ALLOW, r0) :: loop_events)).
    { apply Forall_app. split; [now apply prepare_not_load|].
      constructor; [reflexivity | now apply loop_not_load]. }
    assert (Heq' : (pre0 ++ (SeccompInit SCMP_ACT_ALLOW, r0) :: loop_events)
                   ++ ((SeccompLoad f, r1) :: (SeccompRelease f, r') :: post0)
                   = pre ++ (SeccompLoad ctx, r) :: post).
    { rewrite <- Heq. rewrite <- !app_assoc. cbn [app]. rewrite <- !app_assoc.
      reflexivity. }
    destruct (FsFacts.split_after_front load_ev _ _ pre (SeccompLoad ctx, r) post
                Hfront eq_refl Heq') as (pre2 & -> & Htl).
    destruct pre2 as [|p1 [|p2 pre3]]; cbn [app] in Htl.
    + inversion Htl; subst. split; [reflexivity|].
      exists r', post0. split; [reflexivity|]. exact Hpost0.
    + inversion Htl.
    + exfalso. inversion Htl; subst.
      apply Forall_app in Hpost_no as [_ Hx].
      inversion Hx as [|? ? Hload _]. discriminate Hload.
Qed.

Import Examples.

(** The child of microbox --fs tmpfs -- /bin/true with everything
    succeeding: the filter is loaded, released, and /bin/true is
    executed. *)
Lemma tmpfs_child_trace :
  exists pre ctx post,
    emitted (spawn_child K_ok opts_tmpfs (8, 9)) init
    = pre ++ (SeccompLoad ctx, 0) :: post /\
    map fst post
    = [SeccompRelease ctx;
       Execve "/bin/true" ["/bin/true"]
         ["PATH=/usr/bin:/bin:/usr/sbin:/sbin:/usr/local/bin"; "HOME=/root";
          "TERM=xterm"]].
Proof.
  destruct (split_at is_seccomp_load
              (emitted (spawn_child K_ok opts_tmpfs (8, 9)) init))
    as [[[pre [c r]] post]|] eqn:Hsplit; [|vm_compute in Hsplit; discriminate].
  pose proof (split_at_spec _ _ _ _ _ Hsplit) as Heq.
  vm_compute in Hsplit. injection Hsplit as <- <- <- <-.
  eexists _, _, _. split; [exact Heq|].
  reflexivity.
Qed.

End ChildFacts.

Import Libc Data Sys Seccomp Sandbox Observe SeccompSpec ChildSpec Examples.

(** C3: in the child branch the context that is handed to seccomp_load has
    the attribute SCMP_FLTATR_CTL_NNP on: seccomp_init turns it on and the
    code never turns it off.  So seccomp_load, as libseccomp documents it,
    sets PR_SET_NO_NEW_PRIVS to 1 before it hands the filter to the kernel
    (microbox makes no prctl call of its own, the call of
    microbox_drop_capabilities being commented out).  The call right after
    seccomp_load, whether the load succeeded or not, is seccomp_release of
    the same context, followed by nothing but execve. *)
Theorem spawn_child_seccomp_load K opts sync_pipe s pre ctx r post :
  emitted (spawn_child K opts sync_pipe) s = pre ++ (SeccompLoad ctx, r) :: post ->
  seccomp_load_requests ctx = [SetNoNewPrivs 1; InstallFilter ctx] /\
  exists r' post',
    post = (SeccompRelease ctx, r') :: post' /\
    (post' = [] \/ exists path argv envp x, post' = [(Execve path argv envp, x)]).
Proof.
  intros Heq.
  pose proof (ChildFacts.spawn_child_run K opts sync_pipe s) as Hrun.
  destruct (snd (merge_syscall_lists opts)) as [deny allow].
  destruct (ChildFacts.child_run_load K deny allow _ pre ctx r post Hrun Heq)
    as [Hnnp Hrelease].
  split; [|exact Hrelease].
  unfold seccomp_load_requests. rewrite Hnnp. reflexivity.
Qed.

(** The theorem at the child of microbox --fs tmpfs -- /bin/true. *)
Lemma spawn_child_seccomp_load_ok :
  exists pre ctx post,
    emitted (spawn_child K_ok opts_tmpfs (8, 9)) init
    = pre ++ (SeccompLoad ctx, 0) :: post /\
    seccomp_load_requests ctx = [SetNoNewPrivs 1; InstallFilter ctx] /\
    exists r' post',
      post = (SeccompRelease ctx, r') :: post' /\
      (post' = [] \/ exists path argv envp x, post' = [(Execve path argv envp, x)]).
Proof.
  destruct ChildFacts.tmpfs_child_trace as (pre & ctx & post & Heq & _).
  exists pre, ctx, post. split; [exact Heq|].
  exact (spawn_child_seccomp_load K_ok opts_tmpfs (8, 9) init pre ctx 0 post Heq).
Defined.

(* ================================================================== *)
(** * merge and flatten_env (sandbox.c)                                *)
(* ================================================================== *)

Module EnvFacts.
Import Data Sandbox EnvSpec.

Lemma merge_fold env1 env2 : merge env1 env2 = fold_left merge_step env2 env1.
Proof. reflexivity. Qed.

Lemma override_none out v :
  override out v = None <-> ~ In (name v) (env_names out).
Proof.
  induction out as [|o out IH]; cbn [override env_names map In].
  - split; [intros _ [] | reflexivity].
  - destruct (String.eqb_spec (name o) (name v)) as [E|E].
    + split; [discriminate | intros H; exfalso; apply H; now left].
    + destruct (override out v) as [out'|].
      * split; [discriminate|]. intros H.
        destruct IH as [_ IH]. 
        assert (Hn : ~ In (name v) (env_names out)) by (intros Hin; apply H; now right).
        discriminate (IH Hn).
      * split; [|reflexivity]. intros _ [Hin|Hin]; [contradiction|].
        destruct IH as [IH _]. now apply (IH eq_refl).
Qed.

Lemma override_names out v out' :
  override out v = Some out' -> env_names out' = env_names out.
Proof.
  revert out'. induction out as [|o out IH]; intros out'; cbn [override].
  - discriminate.
  - destruct (String.eqb (name o) (name v)).
    + intros [= <-]. reflexivity.
    + destruct (override out v) as [rest'|]; [|discriminate].
      intros [= <-]. cbn [env_names map]. f_equal. now apply IH.
Qed.

Lemma override_first out v out' n :
  override out v = Some out' ->
  env_first n out' = if String.eqb (name v) n then Some (value v) else env_first n out.
Proof.
  revert out'. induction out as [|o out IH]; intros out'; cbn [override].
  - discriminate.
  - destruct (String.eqb_spec (name o) (name v)) as [E|E].
    + intros [= <-]. cbn [env_first name value]. rewrite E.
      destruct (String.eqb (name v) n); reflexivity.
    + destruct (override out v) as [rest'|]; [|discriminate].
      intros [= <-]. cbn [env_first]. rewrite (IH rest' eq_refl).
      destruct (String.eqb_spec (name o) n) as [E1|E1];
        destruct (String.eqb_spec (name v) n) as [E2|E2]; try reflexivity.
      congruence.
Qed.

Lemma env_first_none n env : ~ In n (env_names env) -> env_first n env = None.
Proof.
  induction env as [|v env IH]; cbn [env_first env_names map In]; [reflexivity|].
  intros H. destruct (String.eqb_spec (name v) n) as [E|E].
  - exfalso. apply H. now left.
  - apply IH. intros Hin. apply H. now right.
Qed.

Lemma env_first_app n a b :
  env_first n (a ++ b)
  = match env_first n a with Some x => Some x | None => env_first n b end.
Proof.
  induction a as [|v a IH]; cbn [app env_first]; [reflexivity|].
  destruct (String.eqb (name v) n); [reflexivity | exact IH].
Qed.

Lemma merge_step_first out v n :
  env_first n (merge_step out v)
  = if String.eqb (name v) n then Some (value v) else env_first n out.
Proof.
  unfold merge_step. destruct (override out v) as [out'|] eqn:E.
  - now apply override_first.
  - rewrite env_first_app. cbn [env_first].
    destruct (String.eqb_spec (name v) n) as [En|En].
    + subst n. apply override_none in E. now rewrite (env_first_none _ _ E).
    + destruct (env_first n out); reflexivity.
Qed.

Lemma merge_step_names out v :
  env_names (merge_step out v)
  = env_names out ++ (if existsb (String.eqb (name v)) (env_names out) then []
                      else [name v]).
Proof.
  unfold merge_step. destruct (override out v) as [out'|] eqn:E.
  - rewrite (override_names _ _ _ E).
    assert (Hin : In (name v) (env_names out)).
    { destruct (in_dec string_dec (name v) (env_names out)) as [H|H]; [exact H|].
      apply override_none in H. congruence. }
    assert (Hex : existsb (String.eqb (name v)) (env_names out) = true).
    { apply existsb_exists. exists (name v). split; [exact Hin | apply String.eqb_refl]. }
    rewrite Hex. now rewrite app_nil_r.
  - apply override_none in E.
    assert (Hex : existsb (String.eqb (name v)) (env_names out) = false).
    { destruct (existsb (String.eqb (name v)) (env_names out)) eqn:Hx; [|reflexivity].
      apply existsb_exists in Hx as (x & Hin & Heq).
      apply String.eqb_eq in Heq. subst x. contradiction. }
    rewrite Hex. unfold env_names. now rewrite map_app.
Qed.

Lemma merge_step_nodup out v :
  NoDup (env_names out) -> NoDup (env_names (merge_step out v)).
Proof.
  intros H. rewrite merge_step_names.
  destruct (existsb (String.eqb (name v)) (env_names out)) eqn:Hx.
  - now rewrite app_nil_r.
  - apply NoDup_app; [exact H | repeat constructor; intros [] |].
    intros x Hin [<-|[]].
    assert (existsb (String.eqb (name v)) (env_names out) = true); [|congruence].
    apply existsb_exists. exists (name v). split; [exact Hin | apply String.eqb_refl].
Qed.

Lemma merge_names_shape env2 : forall env1,
  exists added,
    env_names (merge env1 env2) = env_names env1 ++ added /\
    (forall n, In n added -> In n (env_names env2) /\ ~ In n (env_names env1)) /\
    (forall n, In n (env_names env2) -> In n (env_names env1 ++ added)) /\
    NoDup added /\
    (List.length added <= List.length env2)%nat.
Proof.
  induction env2 as [|v env2 IH]; intros env1.
  - exists []. rewrite merge_fold. cbn [fold_left]. rewrite app_nil_r.
    split; [reflexivity|]. split; [intros n []|]. split; [intros n []|].
    split; [constructor | cbn; lia].
  - rewrite merge_fold. cbn [fold_left]. rewrite <- merge_fold.
    destruct (IH (merge_step env1 v)) as (added & Hn & Hnew & Hall & Hnd & Hlen).
    rewrite merge_step_names in Hn, Hnew, Hall.
    set (first := if existsb (String.eqb (name v)) (env_names env1) then []
                  else [name v]) in *.
    assert (Hfirst : forall n, In n first -> n = name v /\ ~ In n (env_names env1)).
    { intros n Hin. unfold first in Hin.
      destruct (existsb (String.eqb (name v)) (env_names env1)) eqn:Hx; [destruct Hin|].
      destruct Hin as [<-|[]]. split; [reflexivity|]. intros Hin.
      assert (existsb (String.eqb (name v)) (env_names env1) = true); [|congruence].
      apply existsb_exists. exists (name v). split; [exact Hin | apply String.eqb_refl]. }
    assert (Hv : In (name v) (env_names env1 ++ first)).
    { unfold first.
      destruct (existsb (String.eqb (name v)) (env_names env1)) eqn:Hx.
      - apply existsb_exists in Hx as (x & Hin & Heq).
        apply String.eqb_eq in Heq. subst x. rewrite app_nil_r. exact Hin.
      - apply in_or_app. right. now left. }
    exists (first ++ added). rewrite Hn, <- app_assoc. split; [reflexivity|].
    split; [|split; [|split]].
    + intros n Hin. apply in_app_or in Hin as [Hin|Hin].
      * destruct (Hfirst n Hin) as [-> Hno]. split; [now left | exact Hno].
      * destruct (Hnew n Hin) as [H2 Hno]. split; [now right|].
        intros H1. apply Hno. apply in_or_app. now left.
    + intros n [<-|Hin].
      * rewrite app_assoc. apply in_or_app. now left.
      * rewrite app_assoc. now apply Hall.
    + apply NoDup_app; [|exact Hnd|].
      * unfold first. destruct (existsb _ _); repeat constructor. intros [].
      * intros n H1 H2. destruct (Hnew n H2) as [_ Hno]. apply Hno.
        apply in_or_app. now right.
    + rewrite length_app. cbn [List.length].
      assert (List.length first <= 1)%nat;
        [unfold first; destruct (existsb _ _); cbn; lia | lia].
Qed.

End EnvFacts.

Import Data Sandbox EnvSpec.

(** merge: env2 overrides env1.  What getenv finds for a name in the merged
    environment is the value of the last entry of env2 with that name, and
    when env2 has none, what getenv finds in env1. *)
Theorem merge_env2_overrides env1 env2 n :
  env_first n (merge env1 env2)
  = match env_last n env2 with
    | Some x => Some x
    | None => env_first n env1
    end.
Proof.
  rewrite EnvFacts.merge_fold. revert env1.
  induction env2 as [|v env2 IH]; intros env1; cbn [fold_left env_last].
  - reflexivity.
  - rewrite IH, EnvFacts.merge_step_first.
    destruct (env_last n env2); [reflexivity|].
    destruct (String.eqb (name v) n); reflexivity.
Qed.

(** merge keeps the entries of env1 in place and appends one entry for
    each name of env2 that env1 does not have, once.  So the result has at
    most n1 + n2 entries, which is what the array is allocated for, and it
    has no name twice when env1 has none twice. *)
Theorem merge_names env1 env2 :
  exists added,
    env_names (merge env1 env2) = env_names env1 ++ added /\
    NoDup added /\
    (forall n, In n added <-> In n (env_names env2) /\ ~ In n (env_names env1)) /\
    (List.length (merge env1 env2) <= List.length env1 + List.length env2)%nat /\
    (NoDup (env_names env1) -> NoDup (env_names (merge env1 env2))).
Proof.
  destruct (EnvFacts.merge_names_shape env2 env1)
    as (added & Hn & Hnew & Hall & Hnd & Hlen).
  exists added. split; [exact Hn|]. split; [exact Hnd|]. split; [|split].
  - intros n. split; [apply Hnew|].
    intros [H2 Hno]. specialize (Hall n H2).
    apply in_app_or in Hall as [H|H]; [contradiction | exact H].
  - assert (Hl : List.length (env_names (merge env1 env2))
                 = (List.length (env_names env1) + List.length added)%nat)
      by (rewrite Hn; apply length_app).
    unfold env_names in Hl. rewrite !length_map in Hl. lia.
  - intros H1. rewrite Hn. apply NoDup_app; [exact H1 | exact Hnd|].
    intros n Ha Hb. destruct (Hnew n Hb) as [_ Hno]. contradiction.
Qed.

(** The environment of microbox --env TERM=dumb --env LANG=C --env
    TERM=vt100: TERM is overridden in place by the last value, LANG is
    appended. *)
Lemma merge_names_safe_env :
  flatten_env (merge safe_env [ {| name := "TERM"; value := "dumb" |};
                                {| name := "LANG"; value := "C" |};
                                {| name := "TERM"; value := "vt100" |} ])
  = ["PATH=/usr/bin:/bin:/usr/sbin:/sbin:/usr/local/bin"; "HOME=/root";
     "TERM=vt100"; "LANG=C"] /\
  NoDup (env_names (merge safe_env [ {| name := "TERM"; value := "dumb" |};
                                     {| name := "LANG"; value := "C" |};
                                     {| name := "TERM"; value := "vt100" |} ])).
Proof.
  split; [reflexivity|].
  destruct (merge_names safe_env [ {| name := "TERM"; value := "dumb" |};
                                   {| name := "LANG"; value := "C" |};
                                   {| name := "TERM"; value := "vt100" |} ])
    as (added & _ & _ & _ & _ & Hnd).
  apply Hnd. vm_compute.
  repeat constructor; cbn; intuition discriminate.
Defined.

(* ================================================================== *)
(** * The command line (parse.c)                                       *)
(* ================================================================== *)

Module CliFacts.
Import Libc Data Sys Parse Sandbox Cli.

Lemma is_double_dash_eq a : is_double_dash a = true <-> a = "--".
Proof.
  split.
  - destruct a as [|c0 [|c1 [|c2 a]]]; cbn [is_double_dash]; try discriminate;
      rewrite ?andb_false_r; try discriminate.
    intros H. apply andb_prop in H as [H0 H1]. apply andb_prop in H1 as [H1 _].
    apply Ascii.eqb_eq in H0, H1. now subst.
  - intros ->. reflexivity.
Qed.

Lemma find_from_spec argv : forall i, 0 <= i ->
  let r := find_first_double_dash_from i argv in
  (r = -1 /\ ~ In "--" argv) \/
  (exists n, r = i + Z.of_nat n /\ (n < List.length argv)%nat /\
             nth n argv "" = "--" /\
             forall m, (m < n)%nat -> nth m argv "" <> "--").
Proof.
  induction argv as [|a argv IH]; intros i Hi; cbn [find_first_double_dash_from].
  - left. split; [reflexivity | intros []].
  - cbv zeta. destruct (is_double_dash a) eqn:E.
    + apply is_double_dash_eq in E. subst a.
      right. exists O. cbn. repeat split; try lia.
    + assert (Ha : a <> "--").
      { intros ->. discriminate E. }
      specialize (IH (i + 1) ltac:(lia)). cbv zeta in IH.
      destruct IH as [(Hr & Hno)|(n & Hr & Hlt & Hn & Hmin)].
      * left. split; [exact Hr|].
        intros [H|H]; [now apply Ha | now apply Hno].
      * right. exists (S n). repeat split.
        -- rewrite Hr. lia.
        -- cbn. lia.
        -- exact Hn.
        -- intros m Hm. destruct m as [|m]; [exact Ha|]. cbn. apply Hmin. lia.
Qed.

Lemma find_spec argv :
  let r := find_first_double_dash argv in
  (r = -1 /\ ~ In "--" argv) \/
  (exists n, r = Z.of_nat n /\ (n < List.length argv)%nat /\
             nth n argv "" = "--" /\
             forall m, (m < n)%nat -> nth m argv "" <> "--").
Proof.
  cbv zeta. unfold find_first_double_dash.
  pose proof (find_from_spec argv 0 ltac:(lia)) as H. cbv zeta in H.
  destruct H as [(Hr & Hno)|(n & Hr & Hrest)].
  - left. now split.
  - right. exists n. split; [lia | exact Hrest].
Qed.

(** split_spec cuts at the first separator. *)
Lemma strchr_some s c i :
  strchr s c = Some i ->
  (i < String.length s)%nat /\
  s = substring 0 i s +++ String c (substring (S i) (String.length s - S i) s) /\
  strchr (substring 0 i s) c = None.
Proof.
  revert i. induction s as [|d s IH]; intros i; cbn [strchr].
  - discriminate.
  - destruct (Ascii.eqb_spec d c) as [->|Hd].
    + intros [= <-].
      assert (Hs : substring 0 (String.length s) s = s).
      { clear. induction s as [|x s IH]; [reflexivity|]. cbn. now rewrite IH. }
      cbn. rewrite Nat.sub_0_r, Hs. repeat split. lia.
    + destruct (strchr s c) as [j|] eqn:E; [|discriminate].
      intros [= <-]. destruct (IH j eq_refl) as (Hlt & Heq & Hnone).
      cbn [String.length substring String.append strchr].
      split; [lia|]. split.
      * f_equal. exact Heq.
      * destruct (Ascii.eqb_spec d c); [contradiction|]. now rewrite Hnone.
Qed.

Lemma strchr_none_app k c v :
  strchr k c = None -> strchr (k +++ String c v) c = Some (String.length k).
Proof.
  induction k as [|d k IH]; cbn [strchr String.append String.length].
  - intros _. now rewrite Ascii.eqb_refl.
  - destruct (Ascii.eqb d c); [discriminate|].
    destruct (strchr k c); [discriminate|]. intros _. now rewrite IH.
Qed.

Lemma substring_app_l k v : substring 0 (String.length k) (k +++ v) = k.
Proof.
  induction k as [|d k IH]; cbn [String.length String.append substring].
  - destruct v; reflexivity.
  - now rewrite IH.
Qed.

Lemma substring_whole s : substring 0 (String.length s) s = s.
Proof. induction s as [|x s IH]; [reflexivity|]. cbn. now rewrite IH. Qed.

Lemma substring_app_r k v n :
  substring (String.length k + n) (String.length v - n) (k +++ v)
  = substring n (String.length v - n) v.
Proof.
  induction k as [|d k IH]; cbn [String.length String.append Nat.add].
  - reflexivity.
  - cbn [substring]. exact IH.
Qed.

Lemma length_append a b :
  String.length (a +++ b) = (String.length a + String.length b)%nat.
Proof. induction a as [|x a IH]; cbn; [reflexivity | now rewrite IH]. Qed.

Lemma split_spec_some sep spec k v :
  split_spec sep spec = Some (k, v) ->
  spec = k +++ String sep v /\ k <> "" /\ v <> "" /\ strchr k sep = None.
Proof.
  unfold split_spec. destruct (strchr spec sep) as [i|] eqn:E; [|discriminate].
  destruct (strchr_some _ _ _ E) as (Hlt & Heq & Hnone).
  destruct (Nat.eqb_spec i 0) as [->|Hi]; cbn [orb]; [discriminate|].
  destruct (String.eqb_spec (substring (S i) (String.length spec - S i) spec) "")
    as [He|He]; [discriminate|].
  intros [= <- <-]. repeat split; try assumption.
  intros Hk. destruct spec as [|d spec]; [cbn in Hlt; lia|].
  destruct i as [|i]; [contradiction|]. cbn [substring] in Hk. discriminate Hk.
Qed.

Lemma split_spec_join sep k v :
  k <> "" -> v <> "" -> strchr k sep = None ->
  split_spec sep (k +++ String sep v) = Some (k, v).
Proof.
  intros Hk Hv Hnone. unfold split_spec.
  rewrite (strchr_none_app _ _ _ Hnone).
  assert (Hafter : substring (S (String.length k))
                     (String.length (k +++ String sep v) - S (String.length k))
                     (k +++ String sep v) = v).
  { rewrite length_append. cbn [String.length].
    replace (S (String.length k)) with (String.length k + 1)%nat by lia.
    replace (String.length k + S (String.length v) - (String.length k + 1))%nat
      with (String.length (String sep v) - 1)%nat by (cbn; lia).
    rewrite substring_app_r. cbn. rewrite Nat.sub_0_r. apply substring_whole. }
  rewrite Hafter, substring_app_l.
  destruct (Nat.eqb_spec (String.length k) 0) as [H0|H0].
  - destruct k; [contradiction | discriminate H0].
  - cbn [orb]. destruct (String.eqb_spec v ""); [contradiction | reflexivity].
Qed.

Lemma parse_env_specs_some specs : forall env,
  parse_env_specs specs = Some env ->
  flatten_env env = specs /\
  Forall (fun v => name v <> "" /\ value v <> "" /\ strchr (name v) "=" = None) env.
Proof.
  induction specs as [|spec specs IH]; intros env; cbn [parse_env_specs].
  - intros [= <-]. split; [reflexivity | constructor].
  - destruct (split_spec "=" spec) as [[k v]|] eqn:E; [|discriminate].
    destruct (parse_env_specs specs) as [env'|]; [|discriminate].
    intros [= <-]. destruct (IH env' eq_refl) as [Hflat Hall].
    apply split_spec_some in E as (-> & Hk & Hv & Hnone).
    split.
    + cbn [flatten_env map name value]. f_equal. exact Hflat.
    + constructor; [cbn; auto | exact Hall].
Qed.

Lemma parse_mount_ro_some specs : forall ms,
  parse_mount_ro specs = Some ms ->
  Forall (fun m => host m <> "" /\ dest m <> "" /\ mode m = MNT_RO) ms.
Proof.
  induction specs as [|spec specs IH]; intros ms; cbn [parse_mount_ro].
  - intros [= <-]. constructor.
  - destruct (split_spec ":" spec) as [[h d]|] eqn:E; [|discriminate].
    destruct (parse_mount_ro specs) as [ms'|]; [|discriminate].
    intros [= <-]. apply split_spec_some in E as (_ & Hh & Hd & _).
    constructor; [cbn; auto | now apply IH].
Qed.

Lemma parse_mount_rw_some specs : forall ms,
  parse_mount_rw specs = Some ms ->
  Forall (fun m => host m <> "" /\ dest m <> "" /\ mode m = MNT_RW /\
                   deref (dest m) = "/"%char) ms.
Proof.
  induction specs as [|spec specs IH]; intros ms; cbn [parse_mount_rw].
  - intros [= <-]. constructor.
  - destruct (split_spec ":" spec) as [[h d]|] eqn:E; [|discriminate].
    destruct (Ascii.eqb_spec (deref d) "/") as [Habs|Habs]; cbn [negb];
      [|discriminate].
    destruct (parse_mount_rw specs) as [ms'|]; [|discriminate].
    intros [= <-]. apply split_spec_some in E as (_ & Hh & Hd & _).
    constructor; [cbn; auto | now apply IH].
Qed.

Lemma cli_parse_memory_cases opt s :
  match fst (cli_parse_memory opt s) with
  | inl m => (m <> 0 <-> opt <> None)
  | inr o => o = Exited EXIT_FAILURE /\ opt <> None
  end.
Proof.
  unfold cli_parse_memory. destruct opt as [sval|].
  - unfold bind. destruct (parse_memory (Some sval) s) as [m s'].
    destruct (Z.eqb_spec m 0) as [E|E]; cbn [fst ret].
    + split; [reflexivity | discriminate].
    + split; [discriminate | intros _; exact E].
  - cbn. split; [intros H; now contradiction H | intros H; now contradiction H].
Qed.

(** How cli_parse_options ends, with the arguments before the delimiter
    parsed into [a]. *)
Lemma cli_parse_options_cases arg_parse argv s :
  let r := fst (cli_parse_options arg_parse argv s) in
  (find_first_double_dash argv < 0 /\ r = inr (Exited EXIT_FAILURE)) \/
  (exists n, find_first_double_dash argv = Z.of_nat n /\
     let a := arg_parse (firstn n argv) in
     (opt_help a = true /\ r = inr (Exited EXIT_SUCCESS)) \/
     (opt_help a = false /\ r = inr (Exited EXIT_FAILURE)) \/
     (opt_help a = false /\ nerrors a = 0 /\
      (n < List.length argv - 1)%nat /\
      exists env_vars ro rw m,
        parse_env_specs (opt_env a) = Some env_vars /\
        parse_mount_ro (opt_mro a) = Some ro /\
        parse_mount_rw (opt_mrw a) = Some rw /\
        (m <> 0 <-> opt_mem a <> None) /\
        let o_fs := match opt_fs a with Some val => parse_fs_mode val | None => FS_TMPFS end in
        let o_net := match opt_net a with
                     | Some val => parse_net_mode (Some val)
                     | None => NET_NONE
                     end in
        o_net <> NET_INVALID /\
        (o_fs = FS_HOST -> ro ++ rw = []) /\
        r = inl {| fs_mode := o_fs;
                   net_mode := o_net;
                   rootfs := match opt_fs a with
                             | Some val => if fs_mode_eqb o_fs FS_ROOTFS then Some val
                                           else None
                             | None => None
                             end;
                   hostname := Some (match opt_hostnm a with
                                     | Some h => h
                                     | None => "microbox"
                                     end);
                   cpus := match opt_cpus a with Some d => d | None => 0%float end;
                   memory := m;
                   mounts := ro ++ rw;
                   mount_proc := opt_proc a;
                   mount_dev := opt_dev a;
                   env := match opt_env a with
                          | [] => None
                          | _ :: _ => Some env_vars
                          end;
                   syscalls_allow := opt_syscall_allow a;
                   syscalls_deny := opt_syscall_deny a;
                   cmd := skipn (S n) argv |})).
Proof.
  cbv zeta. unfold cli_parse_options.
  destruct (Z.ltb_spec (find_first_double_dash argv) 0) as [Hneg|Hpos].
  { left. split; [exact Hneg | reflexivity]. }
  right. exists (Z.to_nat (find_first_double_dash argv)).
  split; [lia|].
  set (a := arg_parse (firstn (Z.to_nat (find_first_double_dash argv)) argv)).
  destruct (opt_help a) eqn:Hhelp; [left; split; reflexivity|].
  right.
  destruct (Z.eqb_spec (nerrors a) 0) as [Herr|Herr]; cbn [negb];
    [|left; split; reflexivity].
  set (o_net := match opt_net a with
                | Some val => parse_net_mode (Some val)
                | None => NET_NONE
                end).
  destruct (net_mode_eqb o_net NET_INVALID) eqn:Hnet; [left; split; reflexivity|].
  unfold bind.
  pose proof (cli_parse_memory_cases (opt_mem a) s) as Hmem.
  destruct (cli_parse_memory (opt_mem a) s) as [[m|o] s1]; cbn [fst] in Hmem.
  2:{ destruct Hmem as [-> _]. left. split; reflexivity. }
  destruct (parse_env_specs (opt_env a)) as [env_vars|] eqn:Henv;
    [|left; split; reflexivity].
  destruct (parse_mount_ro (opt_mro a)) as [ro|] eqn:Hro;
    [|left; split; reflexivity].
  destruct (parse_mount_rw (opt_mrw a)) as [rw|] eqn:Hrw;
    [|left; split; reflexivity].
  destruct (Z.ltb_spec (find_first_double_dash argv) (Z.of_nat (List.length argv) - 1))
    as [Hcmd|Hcmd]; cbn [negb]; [|left; split; reflexivity].
  set (o_fs := match opt_fs a with Some val => parse_fs_mode val | None => FS_TMPFS end).
  destruct (fs_mode_eqb o_fs FS_HOST && (0 <? Z.of_nat (List.length (ro ++ rw))))
    eqn:Hpol; [left; split; reflexivity|].
  right. split; [reflexivity|]. split; [exact Herr|]. split; [lia|].
  exists env_vars, ro, rw, m. repeat split; try reflexivity; try apply Hmem.
  - intros E. rewrite E in Hnet. discriminate Hnet.
  - intros E. rewrite E in Hpol. cbn [fs_mode_eqb andb] in Hpol.
    destruct (ro ++ rw); [reflexivity | cbn in Hpol; lia].
  - cbn [fst ret]. do 2 f_equal.
    replace (Z.to_nat (find_first_double_dash argv + 1))
      with (S (Z.to_nat (find_first_double_dash argv))) by lia.
    reflexivity.
Qed.

End CliFacts.

Import Libc Data Sys Parse Sandbox Cli.

(** find_first_double_dash returns the index of the first argument that is
    "--", and -1 exactly when no argument is "--". *)
Theorem find_first_double_dash_first argv :
  let r := find_first_double_dash argv in
  (r = -1 /\ ~ In "--" argv) \/
  (exists n, r = Z.of_nat n /\ (n < List.length argv)%nat /\
             nth n argv "" = "--" /\
             forall m, (m < n)%nat -> nth m argv "" <> "--").
Proof. exact (CliFacts.find_spec argv). Qed.

(** In microbox --net host -- ls -- x the first "--" is argument 3; the
    second one belongs to the command. *)
Lemma find_first_double_dash_first_ls :
  find_first_double_dash ["microbox"; "--net"; "host"; "--"; "ls"; "--"; "x"] = 3.
Proof.
  destruct (find_first_double_dash_first
              ["microbox"; "--net"; "host"; "--"; "ls"; "--"; "x"])
    as [[_ Hno]|(n & -> & Hlt & Hnth & Hfirst)].
  - exfalso. apply Hno. cbn. tauto.
  - cbn [List.length] in Hlt.
    do 3 (destruct n as [|n]; [discriminate Hnth|]).
    destruct n as [|n]; [reflexivity|].
    exfalso. apply (Hfirst 3%nat); [lia | reflexivity].
Defined.

(** The argument of --env, --mount-ro and --mount-rw is cut at the first
    separator, and is refused when there is none or when one side is
    empty.  So what is accepted gives back the argument when it is joined
    again, and a key and a value that are not empty, the key free of the
    separator, are exactly what the joined argument is cut into. *)
Theorem split_spec_round_trip sep spec k v :
  split_spec sep spec = Some (k, v)
  <-> spec = k +++ String sep v /\ k <> "" /\ v <> "" /\ strchr k sep = None.
Proof.
  split.
  - apply CliFacts.split_spec_some.
  - intros (-> & Hk & Hv & Hnone). now apply CliFacts.split_spec_join.
Qed.

(** --mount-ro /srv:/data:x is cut at the first colon. *)
Lemma split_spec_round_trip_mount :
  split_spec ":" "/srv:/data:x" = Some ("/srv", "/data:x").
Proof.
  apply split_spec_round_trip.
  split; [reflexivity|]. split; [discriminate|]. split; [discriminate | reflexivity].
Defined.

(** The --env parser undoes flatten_env: variables whose name and value
    are not empty and whose name has no '=' are written by flatten_env as
    arguments that the --env loop reads back as the same variables. *)
Theorem parse_env_specs_flatten_env env :
  Forall (fun v => name v <> "" /\ value v <> "" /\ strchr (name v) "=" = None) env ->
  parse_env_specs (flatten_env env) = Some env.
Proof.
  induction 1 as [|v env (Hn & Hv & Hnone) _ IH]; [reflexivity|].
  cbn [flatten_env map parse_env_specs].
  change (name v +++ "=" +++ value v) with (name v +++ String "=" (value v)).
  rewrite (CliFacts.split_spec_join "=" _ _ Hn Hv Hnone).
  unfold flatten_env in IH. rewrite IH. destruct v; reflexivity.
Qed.

Lemma parse_env_specs_safe_env :
  parse_env_specs (flatten_env safe_env) = Some safe_env.
Proof.
  apply parse_env_specs_flatten_env.
  repeat constructor; cbn; discriminate.
Defined.

(** What cli_parse_options returns when it returns: the delimiter was
    found and something follows it, which is the command; the network mode
    is valid; host file system mode comes without mounts; rootfs is set
    exactly in rootfs mode; the host name is set; the memory limit is not 0
    exactly when --memory was given; every mount has a host and a
    destination, and a read-write one an absolute destination; and the
    environment, flattened, is the list of the --env arguments. *)
Theorem cli_parse_options_accepted arg_parse argv s o :
  fst (cli_parse_options arg_parse argv s) = inl o ->
  exists n, find_first_double_dash argv = Z.of_nat n /\
    let a := arg_parse (firstn n argv) in
    opt_help a = false /\ nerrors a = 0 /\
    cmd o = skipn (S n) argv /\ cmd o <> [] /\
    net_mode o <> NET_INVALID /\
    (fs_mode o = FS_HOST -> mounts o = []) /\
    (rootfs o <> None <-> fs_mode o = FS_ROOTFS) /\
    hostname o <> None /\
    (memory o <> 0 <-> opt_mem a <> None) /\
    Forall (fun m => host m <> "" /\ dest m <> "" /\
                     (mode m = MNT_RW -> deref (dest m) = "/"%char)) (mounts o) /\
    (forall vars, env o = Some vars -> vars <> [] /\ flatten_env vars = opt_env a).
Proof.
  intros Hr.
  pose proof (CliFacts.cli_parse_options_cases arg_parse argv s) as H.
  cbv zeta in H. rewrite Hr in H.
  destruct H as [[_ H]|(n & Hn & [[_ H]|[[_ H]|H]])]; try discriminate H.
  destruct H as (Hhelp & Herr & Hlt & env_vars & ro & rw & m & Henv & Hro & Hrw
                 & Hm & Hnet & Hpol & Ho).
  assert (Hcmd : skipn (S n) argv <> []).
  { intros E. apply (f_equal (@List.length string)) in E.
    rewrite length_skipn in E. cbn [List.length] in E. lia. }
  injection Ho as ->. exists n. split; [exact Hn|]. cbv zeta.
  unfold cmd, net_mode, fs_mode, mounts, rootfs, hostname, memory, env.
  split; [exact Hhelp|]. split; [exact Herr|]. split; [reflexivity|].
  split; [exact Hcmd|].
  split; [exact Hnet|]. split; [exact Hpol|]. split.
  { destruct (opt_fs (arg_parse (firstn n argv))) as [val|].
    - destruct (parse_fs_mode val); cbn [fs_mode_eqb];
        split; intros H; try discriminate; try reflexivity; now contradiction H.
    - split; intros H; [now contradiction H | discriminate]. }
  split; [discriminate|]. split; [exact Hm|]. split.
  { apply Forall_app. split.
    - eapply Forall_impl; [|exact (CliFacts.parse_mount_ro_some _ _ Hro)].
      intros x (Hh & Hd & Hmode). repeat split; auto. rewrite Hmode. discriminate.
    - eapply Forall_impl; [|exact (CliFacts.parse_mount_rw_some _ _ Hrw)].
      intros x (Hh & Hd & _ & Habs). repeat split; auto. }
  intros vars Hvars.
  destruct (CliFacts.parse_env_specs_some _ _ Henv) as [Hflat _].
  destruct (opt_env (arg_parse (firstn n argv))) as [|e0 rest] eqn:E;
    [discriminate|].
  injection Hvars as <-. split; [|exact Hflat].
  intros ->. discriminate Hflat.
Qed.

(** cli_parse_options exits with status 0 exactly when the delimiter is
    there and --help is among the options before it, whatever else is
    wrong with them; every other exit has status 1.  Without "--", and
    with nothing after it, the function does not return. *)
Theorem cli_parse_options_exit arg_parse argv s :
  let r := fst (cli_parse_options arg_parse argv s) in
  (r = inr (Exited EXIT_SUCCESS) <->
   exists n, find_first_double_dash argv = Z.of_nat n /\
             opt_help (arg_parse (firstn n argv)) = true) /\
  (forall out, r = inr out -> out = Exited EXIT_SUCCESS \/ out = Exited EXIT_FAILURE) /\
  (~ In "--" argv -> r = inr (Exited EXIT_FAILURE)) /\
  (find_first_double_dash argv = Z.of_nat (List.length argv) - 1 ->
   exists out, r = inr out).
Proof.
  cbv zeta.
  pose proof (CliFacts.cli_parse_options_cases arg_parse argv s) as H.
  cbv zeta in H.
  pose proof (CliFacts.find_spec argv) as Hfind. cbv zeta in Hfind.
  split; [|split; [|split]].
  - split.
    + intros Hr. rewrite Hr in H.
      destruct H as [[_ H]|(n & Hn & [[Hh _]|[[_ H]|H]])]; try discriminate H.
      * exists n. now split.
      * destruct H as (_ & _ & _ & ? & ? & ? & ? & _ & _ & _ & _ & _ & _ & H).
        discriminate H.
    + intros (n & Hn & Hh).
      destruct H as [[Hneg _]|(n' & Hn' & [[_ H]|[[Hh' _]|(Hh' & _)]])].
      * lia.
      * exact H.
      * assert (n' = n) by lia. subst n'. congruence.
      * assert (n' = n) by lia. subst n'. congruence.
  - intros out Hr. rewrite Hr in H.
    destruct H as [[_ H]|(n & Hn & [[_ H]|[[_ H]|H]])].
    + right. congruence.
    + left. congruence.
    + right. congruence.
    + destruct H as (_ & _ & _ & ? & ? & ? & ? & _ & _ & _ & _ & _ & _ & H).
      discriminate H.
  - intros Hno.
    destruct H as [[_ H]|(n & Hn & _)]; [exact H|].
    exfalso. destruct Hfind as [[Hr _]|(k & Hk & Hlt & Hnth & _)]; [lia|].
    apply Hno. rewrite <- Hnth. now apply nth_In.
  - intros Hlast.
    destruct H as [[_ H]|(n & Hn & [[_ H]|[[_ H]|H]])]; eauto.
    destruct H as (_ & _ & Hlt & _). lia.
Qed.

Import CliExamples.

(** microbox --env LANG=C --mount-ro /etc:/etc -- /bin/sh -c true *)
Lemma cli_parse_options_accepted_sh :
  exists o,
    fst (cli_parse_options (fun _ => args_env_mount)
           ["microbox"; "--env"; "LANG=C"; "--mount-ro"; "/etc:/etc"; "--";
            "/bin/sh"; "-c"; "true"] init) = inl o /\
    cmd o = ["/bin/sh"; "-c"; "true"] /\
    env o = Some [ {| name := "LANG"; value := "C" |} ] /\
    mounts o = [ {| host := "/etc"; dest := "/etc"; mode := MNT_RO |} ] /\
    net_mode o <> NET_INVALID.
Proof.
  destruct (fst (cli_parse_options (fun _ => args_env_mount)
           ["microbox"; "--env"; "LANG=C"; "--mount-ro"; "/etc:/etc"; "--";
            "/bin/sh"; "-c"; "true"] init)) as [o|out] eqn:E;
    [|vm_compute in E; discriminate E].
  exists o. split; [reflexivity|].
  destruct (cli_parse_options_accepted _ _ _ _ E)
    as (n & _ & _ & _ & _ & _ & Hnet & _).
  vm_compute in E. injection E as <-.
  repeat split; try reflexivity. exact Hnet.
Defined.

(** microbox --help, without the delimiter, exits with status 1; microbox
    --help -- exits with status 0. *)
Lemma cli_parse_options_exit_help :
  fst (cli_parse_options (fun _ => args_help) ["microbox"; "--help"] init)
  = inr (Exited EXIT_FAILURE) /\
  fst (cli_parse_options (fun _ => args_help) ["microbox"; "--help"; "--"] init)
  = inr (Exited EXIT_SUCCESS).
Proof.
  split.
  - destruct (cli_parse_options_exit (fun _ => args_help) ["microbox"; "--help"] init)
      as (_ & _ & Hno & _).
    apply Hno. cbn. intuition discriminate.
  - destruct (cli_parse_options_exit (fun _ => args_help)
                ["microbox"; "--help"; "--"] init) as (Hhelp & _).
    apply Hhelp. exists 2%nat. split; reflexivity.
Defined.

(* ================================================================== *)
(** * Namespaces and addresses (sandbox.c, netns.c)                    *)
(* ================================================================== *)

Module NetFacts.
Import Libc Data Netns NetAddr.

Lemma configs_ok : forallb config_ok (seq 0 254) = true.
Proof. vm_compute. reflexivity. Qed.

Lemma config_ok_mod pid :
  0 <= pid -> config_ok (Z.to_nat (pid mod 254)) = true.
Proof.
  intros Hpid. pose proof (Z.mod_pos_bound pid 254 ltac:(lia)) as Hb.
  pose proof configs_ok as H. rewrite forallb_forall in H.
  apply H. apply in_seq. lia.
Qed.

Lemma generate_mod pid :
  0 <= pid -> generate_interface_names pid = generate_interface_names (pid mod 254).
Proof.
  intros Hpid. unfold generate_interface_names.
  rewrite !Z.rem_mod_nonneg by (try apply Z.mod_pos_bound; lia).
  now rewrite Z.mod_mod by lia.
Qed.

End NetFacts.

Import Libc Data Netns NetAddr Sandbox.

(** The flags handed to clone3: new user, pid, UTS, IPC, cgroup and time
    namespaces and a pidfd in every case; a new network namespace unless
    the network mode is host; a new mount namespace unless the file system
    mode is host. *)
Theorem clone_flags_namespaces opts :
  let flags := clone_flags opts in
  Forall (fun c => Z.land flags c = c)
         [CLONE_NEWUSER; CLONE_NEWPID; CLONE_NEWUTS; CLONE_NEWIPC; CLONE_PIDFD;
          CLONE_NEWCGROUP; CLONE_NEWTIME] /\
  Z.land flags CLONE_NEWNET
  = (if net_mode_eqb (net_mode opts) NET_HOST then 0 else CLONE_NEWNET) /\
  Z.land flags CLONE_NEWNS
  = (if fs_mode_eqb (fs_mode opts) FS_HOST then 0 else CLONE_NEWNS) /\
  0 <= flags < 2 ^ 31.
Proof.
  cbv zeta. unfold clone_flags.
  destruct (net_mode opts), (fs_mode opts);
    cbn [net_mode_eqb fs_mode_eqb negb];
    (split; [repeat constructor | repeat split; vm_compute; congruence]).
Qed.

(** generate_interface_names for a pid that is not negative: the two veth
    names are mbx<pid mod 254>h and mbx<pid mod 254>c, not cut off by their
    16 byte buffers; the container gets 172.20.0.<pid mod 254 + 2>, stored
    in network byte order, which lies in the subnet 172.20.0.0/16 that the
    NAT rules are written for and is not the bridge address 172.20.0.1.
    Pids that are 254 apart get the same names and the same address. *)
Theorem generate_interface_names_config pid :
  0 <= pid ->
  let id := pid mod 254 in
  let cfg := snd (generate_interface_names pid) in
  fst (generate_interface_names pid) = 0 /\
  veth_host cfg = "mbx" +++ dec id +++ "h" /\
  veth_container cfg = "mbx" +++ dec id +++ "c" /\
  (String.length (veth_host cfg) <= 15)%nat /\
  (String.length (veth_container cfg) <= 15)%nat /\
  veth_host cfg <> veth_container cfg /\
  ntohl (container_ip cfg) = MICROBOX_DEFAULT_BRIDGE_IP_SUBNET + id + 2 /\
  inet_ntoa (container_ip cfg) = "172.20.0." +++ dec (id + 2) /\
  container_ip cfg <> bridge_ip cfg /\
  inet_ntoa (bridge_ip cfg) = "172.20.0.1" /\
  Z.land (ntohl (container_ip cfg))
         (Z.shiftl 4294967295 (32 - prefix_len cfg) mod 2 ^ 32) = nat_subnet cfg /\
  bridge_subnet cfg = "172.20.0.0/16" /\
  generate_interface_names (pid + 254) = generate_interface_names pid.
Proof.
  intros Hpid. cbv zeta.
  pose proof (Z.mod_pos_bound pid 254 ltac:(lia)) as Hb.
  pose proof (NetFacts.config_ok_mod pid Hpid) as Hok.
  unfold config_ok in Hok. rewrite Z2Nat.id in Hok by lia.
  rewrite <- (NetFacts.generate_mod pid Hpid) in Hok.
  repeat (apply andb_prop in Hok as [Hok ?]).
  repeat match goal with
         | H : String.eqb _ _ = true |- _ => apply String.eqb_eq in H
         | H : (_ =? _) = true |- _ => apply Z.eqb_eq in H
         | H : (_ <=? _)%nat = true |- _ => apply Nat.leb_le in H
         | H : negb (String.eqb _ _) = true |- _ =>
             apply negb_true_iff in H; apply String.eqb_neq in H
         | H : negb (_ =? _) = true |- _ =>
             apply negb_true_iff in H; apply Z.eqb_neq in H
         end.
  split; [reflexivity|].
  repeat (split; [assumption|]).
  rewrite (NetFacts.generate_mod (pid + 254)) by lia.
  rewrite (NetFacts.generate_mod pid) by lia.
  f_equal. rewrite <- (Z.mul_1_l 254) at 1. apply Z.mod_add. lia.
Qed.

(** The children with pid 4242 and 4496 get the same interface names. *)
Lemma generate_interface_names_4242 :
  veth_host (snd (generate_interface_names 4242)) = "mbx178h" /\
  inet_ntoa (container_ip (snd (generate_interface_names 4242))) = "172.20.0.180" /\
  generate_interface_names 4496 = generate_interface_names 4242.
Proof.
  destruct (generate_interface_names_config 4242 ltac:(lia))
    as (_ & Hh & _ & _ & _ & _ & _ & Hip & _ & _ & _ & _ & Hsame).
  split; [exact Hh|]. split; [exact Hip | exact Hsame].
Defined.

(* ================================================================== *)
(** * Descriptors: write_file, setup_uid_gid_map, setup_cgroup_limits  *)
(* ================================================================== *)

(** Evaluate [fd_table_after] on a trace whose results are variables with
    known signs. *)
Ltac eval_table :=
  repeat (cbn [Observe.fd_table_after Observe.fd_close];
          settle_sign; rewrite ?Z.eqb_refl).

(** From a summary proved for every starting trace to the events of a
    run. *)
Ltac run_of L s :=
  let H := fresh "H" in
  pose proof (L (Sys.trace s) (Sys.errno s)) as H;
  rewrite <- Rules.st_init in H; unfold Logic.wp in H;
  let added := fresh "added" in let e' := fresh "e'" in
  let Hs := fresh "Hs" in let Hpost := fresh "Hpost" in
  destruct H as (added & e' & Hs & Hpost);
  rewrite (Rules.emitted_st _ _ _ _ Hs).

Module ResourceFacts.
Import Libc Data Sys Utils Fs Sandbox Observe Logic Rules TraceProps Frame
       CgroupSpec ResourceSpec.

Section Run.
Variable K : kernel.
Lemma write_file_wp path data before e :
  wp (write_file K path data) (st before [] e)
     (fun rc s' => exists added e', s' = st before added e' /\
        fd_table_after [] added = [] /\
        (file_writes added = [] \/
         exists n, file_writes added = [(path, data, n)]) /\
        (forall r, added = [(Open path O_WRONLY 0, r)] -> rc = r) /\
        (file_writes added = [(path, data, Z.of_nat (String.length data))] ->
         rc = 0) /\
        (0 <= e -> rc <= 0)).
Proof.
  unfold write_file.
  wp_go.
  all: wp_done; forget_oracle; reflect_hyps.
  all: split; [eval_table; reflexivity|].
  all: split; [eval_writes; first [left; reflexivity | right; eexists; reflexivity]|].
  all: split; [intros ? Hr0; try discriminate Hr0; injection Hr0 as <-; lia|].
  all: split; [eval_writes; intros Hw; try discriminate Hw;
               try (injection Hw as Hn; exfalso; lia); try reflexivity; try lia|].
  all: try (intros He; lia).
Qed.

Lemma setup_uid_gid_map_table pid before e :
  wp (setup_uid_gid_map K pid) (st before [] e)
     (fun rc s' => exists added e', s' = st before added e' /\
        (rc = 0 -> fd_table_after [] added = []) /\
        (fd_table_after [] added = [] \/
         rc = -1 /\
         exists pre fd buf n,
           added = pre ++ [(Write fd buf, n)] /\
           0 <= fd /\ n <> Z.of_nat (String.length buf) /\
           fd_table_after [] added = [(fd, proc_pid_path pid "gid_map")])).
Proof.
  unfold setup_uid_gid_map, write_file.
  wp_go.
  all: wp_done; forget_oracle; reflect_hyps.
  all: split; [intros Hrc; try discriminate Hrc; eval_table; reflexivity|].
  all: try (left; eval_table; reflexivity).
  all: right; split; [reflexivity|];
    lazymatch goal with
    | |- exists pre fd buf n, ?l = _ /\ _ => exists (firstn 9 l)
    end;
    cbn [firstn]; eexists; eexists; eexists;
    split; [cbn [app]; reflexivity|];
    split; [assumption|]; split; [lia|]; eval_table; reflexivity.
Qed.

Lemma procs_not_control pid ws :
  Forall (fun w : string * string * Z => fst (fst w) = subtree_control) ws ->
  Forall (fun w => fst (fst w) = subtree_control \/
                   exists f, fst (fst w) = cgroup_file pid f) ws.
Proof. apply Forall_impl. intros w H. now left. Qed.

Lemma table_app a : forall fds b,
  fd_table_after fds (a ++ b) = fd_table_after (fd_table_after fds a) b.
Proof.
  induction a as [|[c r] a IH]; intros fds b; [reflexivity|].
  destruct c; cbn [app fd_table_after]; apply IH.
Qed.

Lemma setup_cgroup_limits_attach pid cpus memory before e :
  wp (setup_cgroup_limits K pid cpus memory) (st before [] e)
     (fun rc s' => exists added e', s' = st before added e' /\
                   cgroup_attach_post pid rc added).
Proof.
  unfold setup_cgroup_limits, cgroup_write, mkdir_safe.
  unfold and_then at 1. apply wp_bind.
  apply (Frame.wp_frame _ _ (CgroupFacts.enable_controllers_wp K)).
  intros res added1 e1 (Hsub & Htable & Hneg). cbn [app].
  destruct res as [rc|].
  { apply wp_ret. wp_done. specialize (Hneg rc eq_refl).
    unfold cgroup_attach_post. split; [now apply procs_not_control|].
    split; [lia | intros; exfalso; lia]. }
  specialize (Htable eq_refl). clear Hneg.
  wp_go.
  all: wp_done; forget_oracle; reflect_hyps.
  all: unfold cgroup_attach_post;
    rewrite (WriteFacts.file_writes_app _ _ Htable), table_app, Htable.
  all: match goal with
       | |- context [file_writes ?ext] =>
           lazymatch ext with _ :: _ => idtac end;
           let W := fresh "W" in let HW := fresh "HW" in
           name_writes ext W HW; rewrite !HW; clear HW
       end.
  all: split;
    [apply Forall_app; split; [now apply procs_not_control|];
     repeat (apply Forall_cons; [right; eexists; reflexivity|]); apply Forall_nil|].
  all: split; [lia|].
  all: intros Hrc; try (exfalso; lia).
  all: split; [eval_table; reflexivity|].
  all: split; [eexists; apply in_or_app; right; left; reflexivity|].
  all: match goal with
       | |- exists pre n, ?A ++ ?l = _ /\ _ => exists (A ++ removelast l)
       end;
    cbn [removelast]; eexists;
    split; [rewrite <- app_assoc; reflexivity | assumption].
Qed.
End Run.
End ResourceFacts.

Import Libc Data Sys Utils Sandbox Observe ResourceSpec Examples.

(** write_file leaves no descriptor open.  It makes at most one write, of
    the data to the path.  When open fails, the result is the error that
    the kernel gave; when the write is complete, the result is 0; and with
    errno not negative at the start the result is never positive. *)
Theorem write_file_closes K path data s :
  let rc := fst (write_file K path data s) in
  let ext := emitted (write_file K path data) s in
  fd_table_after [] ext = [] /\
  (file_writes ext = [] \/ exists n, file_writes ext = [(path, data, n)]) /\
  (forall r, ext = [(Open path O_WRONLY 0, r)] -> rc = r) /\
  (file_writes ext = [(path, data, Z.of_nat (String.length data))] -> rc = 0) /\
  (0 <= errno s -> rc <= 0).
Proof.
  cbv zeta. run_of (ResourceFacts.write_file_wp K path data) s. exact Hpost.
Qed.

Lemma write_file_closes_enoent :
  let K := with_ret (fun c => match c with Open _ _ _ => Some (- ENOENT) | _ => None end)
                    K_ok in
  fst (write_file K "/proc/1/setgroups" "deny" init) = - ENOENT.
Proof.
  cbv zeta.
  destruct (write_file_closes
              (with_ret (fun c => match c with
                                  | Open _ _ _ => Some (- ENOENT)
                                  | _ => None
                                  end) K_ok)
              "/proc/1/setgroups" "deny" init) as (_ & _ & Hopen & _).
  apply Hopen. reflexivity.
Defined.

(** setup_uid_gid_map closes every descriptor it opens, except on one
    path: when the write to gid_map fails or is short, it returns -1 with
    the descriptor of gid_map still open.  When it returns 0 nothing is
    left open. *)
Theorem setup_uid_gid_map_descriptors K pid s :
  let rc := fst (setup_uid_gid_map K pid s) in
  let ext := emitted (setup_uid_gid_map K pid) s in
  (rc = 0 -> fd_table_after [] ext = []) /\
  (fd_table_after [] ext = [] \/
   rc = -1 /\
   exists pre fd buf n,
     ext = pre ++ [(Write fd buf, n)] /\
     0 <= fd /\ n <> Z.of_nat (String.length buf) /\
     fd_table_after [] ext = [(fd, proc_pid_path pid "gid_map")]).
Proof.
  cbv zeta. run_of (ResourceFacts.setup_uid_gid_map_table K pid) s. exact Hpost.
Qed.

(** The write of the gid map stops after two bytes: the result is -1 and
    descriptor 3 stays open on gid_map; with everything succeeding,
    nothing stays open. *)
Lemma setup_uid_gid_map_descriptors_gid :
  fst (setup_uid_gid_map K_short_gid_map 4242 init) = -1 /\
  fd_table_after [] (emitted (setup_uid_gid_map K_short_gid_map 4242) init)
  = [(3, "/proc/4242/gid_map")] /\
  fd_table_after [] (emitted (setup_uid_gid_map K_ok 4242) init) = [].
Proof.
  split; [reflexivity|]. split; [reflexivity|].
  destruct (setup_uid_gid_map_descriptors K_ok 4242 init) as [Hok _].
  apply Hok. reflexivity.
Defined.

(** setup_cgroup_limits writes to cgroup.subtree_control and to files of
    the cgroup of the pid, and nowhere else.  Its result is never
    positive.  When it is 0, the directory of the cgroup was made or was
    there, the pid was written to cgroup.procs after everything else, and no
    descriptor is left open. *)
Theorem setup_cgroup_limits_attaches_last K pid cpus memory s :
  let rc := fst (setup_cgroup_limits K pid cpus memory s) in
  let ext := emitted (setup_cgroup_limits K pid cpus memory) s in
  Forall (fun w => fst (fst w) = subtree_control \/
                   exists f, fst (fst w) = cgroup_file pid f) (file_writes ext) /\
  rc <= 0 /\
  (rc = 0 ->
   fd_table_after [] ext = [] /\
   (exists r, In (Mkdir (cgroup_dir pid) 493, r) ext) /\
   exists pre n,
     file_writes ext = pre ++ [(cgroup_file pid "cgroup.procs", dec pid, n)] /\
     0 <= n).
Proof.
  cbv zeta.
  run_of (ResourceFacts.setup_cgroup_limits_attach K pid cpus memory) s.
  exact Hpost.
Qed.

Lemma setup_cgroup_limits_attaches_4242 :
  fst (setup_cgroup_limits K_ok 4242 half_cpu ten_MiB init) = 0 /\
  fd_table_after [] (emitted (setup_cgroup_limits K_ok 4242 half_cpu ten_MiB) init)
  = [] /\
  map (fun w => fst (fst w))
      (file_writes (emitted (setup_cgroup_limits K_ok 4242 half_cpu ten_MiB) init))
  = [ "/sys/fs/cgroup/cgroup.subtree_control";
      "/sys/fs/cgroup/cgroup.subtree_control";
      "/sys/fs/cgroup/microbox-4242/cpu.max";
      "/sys/fs/cgroup/microbox-4242/memory.max";
      "/sys/fs/cgroup/microbox-4242/memory.swap.max";
      "/sys/fs/cgroup/microbox-4242/cgroup.procs" ].
Proof.
  split; [reflexivity|].
  destruct (setup_cgroup_limits_attaches_last K_ok 4242 half_cpu ten_MiB init)
    as (_ & _ & Hok).
  destruct (Hok eq_refl) as (Htable & _).
  split; [exact Htable | vm_compute; reflexivity].
Defined.

(* ================================================================== *)
(** * Bind mounts and the result of the file system set-up (fs.c)      *)
(* ================================================================== *)

Module MountFacts.
Import Libc Data Sys Utils Fs Observe Logic Rules TraceProps Frame FsSpec MountSpec.

Lemma mounts_of_app a b : mounts_of (a ++ b) = mounts_of a ++ mounts_of b.
Proof. apply filter_app. Qed.

Lemma mounts_of_none a : Forall not_mount a -> mounts_of a = [].
Proof.
  induction 1 as [|ev a Hev _ IH]; [reflexivity|].
  unfold mounts_of in *. cbn [filter]. unfold not_mount in Hev. now rewrite Hev.
Qed.

Lemma mounts_of_cons ev l :
  mounts_of (ev :: l) = if is_mount (fst ev) then ev :: mounts_of l else mounts_of l.
Proof. reflexivity. Qed.

Lemma mounts_of_nil : mounts_of [] = [].
Proof. reflexivity. Qed.

(** Evaluate [mounts_of] on a trace made of single events and of parts
    without mount calls. *)
Ltac eval_mounts :=
  repeat (rewrite ?mounts_of_app, ?mounts_of_cons, ?mounts_of_nil;
          cbn [is_mount fst app]);
  repeat match goal with
    | H : Forall not_mount ?a |- _ => rewrite !(mounts_of_none a H)
    end;
  change (mounts_of []) with (@nil event);
  cbn [app].

(** The part of an append chain [l] that comes before [u]. *)
Ltac prefix_before l u :=
  lazymatch l with
  | u ++ _ => constr:(@nil Sys.event)
  | ?a ++ ?rest => let p := prefix_before rest u in constr:(a ++ p)
  end.

Section Builder.
Variable K : kernel.

Ltac quiet_leaf := wp_done; solve_forall ltac:(reflexivity).

Lemma maybe_mkdir_quiet path mode : emits_only not_mount (maybe_mkdir K path mode).
Proof.
  intros before e. unfold maybe_mkdir. wp_go; quiet_leaf.
Qed.

Lemma mkdirp_loop_quiet path rest : forall i,
  emits_only not_mount (mkdirp_loop K path rest i).
Proof.
  induction rest as [|c rest IH]; intros i before e; cbn [mkdirp_loop].
  - wp_go; quiet_leaf.
  - destruct (Ascii.eqb c "/").
    + repeat first [ wp_step | wp_branch
                   | use_only (maybe_mkdir_quiet (substring 0 i path) 511)
                   | use_only (IH (S i)) ];
        quiet_leaf.
    + apply IH.
Qed.

Lemma mkdirp_quiet path : emits_only not_mount (mkdirp K path).
Proof.
  intros before e. unfold mkdirp.
  repeat first [ wp_step | wp_branch
               | use_only (mkdirp_loop_quiet path
                             (match path with String _ t => t | EmptyString => EmptyString end) 1)
               | use_only (maybe_mkdir_quiet path 511) ];
    quiet_leaf.
Qed.

Lemma microbox_bind_mount_wp base spec before e :
  wp (microbox_bind_mount K base spec) (st before [] e)
     (fun rc s' => exists added e', s' = st before added e' /\
                   bind_mount_post base spec rc added).
Proof.
  unfold microbox_bind_mount.
  repeat first [ wp_step | wp_branch
               | use_only (mkdirp_quiet (snprintf PATH_MAX (base +++ dest spec)))
               | use_only (mkdirp_quiet (dirname (snprintf PATH_MAX (base +++ dest spec))))
               | match goal with
                 | |- wp (match mode spec with MNT_RO => _ | MNT_RW => _ end) _ _ =>
                     destruct (mode spec) eqn:?
                 end ].
  all: wp_done; forget_oracle; reflect_hyps; unfold bind_mount_post.
  all: eval_mounts.
  all: split; [auto|].
  all: split;
    [intros Hm; first [left; reflexivity | right; eexists; reflexivity | congruence]|].
  all: intros Hrc; try (exfalso; lia).
  all: rewrite Heqm0; eexists; try eexists; unfold bind_call, remount_ro_call, bind_target;
    repeat split; try reflexivity; assumption.
Qed.

Lemma wp_both {A} (m : M A) before e (P1 P2 : A -> list event -> Prop) :
  wp m (st before [] e)
     (fun a s' => exists added e', s' = st before added e' /\ P1 a added) ->
  wp m (st before [] e)
     (fun a s' => exists added e', s' = st before added e' /\ P2 a added) ->
  wp m (st before [] e)
     (fun a s' => exists added e', s' = st before added e' /\
                  (P1 a added /\ P2 a added)).
Proof.
  unfold wp. intros (a1 & e1 & Hs1 & H1) (a2 & e2 & Hs2 & H2).
  exists a1, e1. split; [exact Hs1|]. split; [exact H1|].
  rewrite Hs1 in Hs2. unfold st in Hs2. injection Hs2 as Ht _.
  apply app_inv_head in Ht. now subst.
Qed.

Lemma microbox_bind_mount_both base spec before e :
  wp (microbox_bind_mount K base spec) (st before [] e)
     (fun rc s' => exists added e', s' = st before added e' /\
        (Forall setup_event added /\ bind_mount_post base spec rc added)).
Proof.
  apply (wp_both _ _ _ (fun _ added => Forall setup_event added)
                       (fun rc added => bind_mount_post base spec rc added)).
  - apply FsFacts.microbox_bind_mount_setup.
  - apply microbox_bind_mount_wp.
Qed.

Lemma bind_user_mounts_wp base ms : forall before e,
  wp (bind_user_mounts K base ms) (st before [] e)
     (fun res s' => exists added e', s' = st before added e' /\
        (Forall setup_event added /\
         (forall rc, res = Some rc -> rc = -1) /\
         (res = None ->
          map fst (mounts_of added) = bind_calls base ms /\
          Forall (fun ev => 0 <= snd ev) (mounts_of added)))).
Proof.
  induction ms as [|m ms IH]; intros before e; cbn [bind_user_mounts].
  - wp_go. wp_done. split; [constructor|]. split; [discriminate|].
    intros _. split; [reflexivity | constructor].
  - apply wp_bind. use_frame (microbox_bind_mount_both base m).
    match goal with H : _ /\ _ |- _ => destruct H as [Hsetup (Hrc & _ & Hok)] end.
    wp_branch.
    + wp_step. wp_done. split; [rewrite ?app_nil_r; exact Hsetup|].
      split; [now intros rc [= <-] | discriminate].
    + use_frame IH.
      match goal with H : _ /\ _ |- _ => destruct H as (Hsetup2 & Hsome & Hnone) end.
      wp_done. split; [now apply Forall_app|]. split; [exact Hsome|].
      intros Hres. destruct (Hnone Hres) as [Hcalls Hpos].
      reflect_hyps. assert (Ha : a = 0) by lia. specialize (Hok Ha).
      rewrite mounts_of_app, map_app. unfold event in *. rewrite Hcalls.
      cbn [bind_calls].
      destruct (mode m).
      * destruct Hok as (r & r' & Hr & Hr' & ->). cbn [map fst app].
        split; [reflexivity|]. repeat constructor; assumption.
      * destruct Hok as (r & Hr & ->). cbn [map fst app].
        split; [reflexivity|]. repeat constructor; assumption.
Qed.

Lemma enter_new_root_done new_root before e :
  wp (enter_new_root K new_root) (st before [] e)
     (fun rc s' => exists added e', s' = st before added e' /\
        ((rc = 0 \/ rc < 0) /\ (rc = 0 -> root_entered new_root added))).
Proof.
  unfold enter_new_root. wp_go.
  all: wp_done; forget_oracle; reflect_hyps.
  all: split; [lia|].
  all: intros Hrc; try (exfalso; lia).
  unfold root_entered. exists r, r0, r1, r2, r3, r4.
  repeat (split; [assumption|]). reflexivity.
Qed.

Lemma microsandbox_setup_tmpfs_done opts before e :
  wp (microsandbox_setup_tmpfs K opts) (st before [] e)
     (fun rc s' => exists added e', s' = st before added e' /\
        ((rc = 0 \/ rc < 0) /\ (rc = 0 -> tmpfs_ready opts added))).
Proof.
  unfold microsandbox_setup_tmpfs.
  repeat first [ wp_step | wp_branch
               | use_only (FsFacts.microsandbox_create_tmpfs_setup K "/box")
               | use_only (FsFacts.microbox_bind_mount_proc_setup K "/box")
               | use_only (FsFacts.microbox_bind_mount_dev_setup K "/box")
               | use_frame (bind_user_mounts_wp "/box" (mounts opts))
               | use_frame (enter_new_root_done "/box") ].
  all: wp_done; forget_oracle; reflect_hyps.
  all: try match goal with
           | H : _ /\ (forall rc, Some ?z = Some rc -> rc = -1) /\ _ |- _ =>
               let Hz := fresh "Hz" in
               destruct H as (_ & Hz & _); specialize (Hz z eq_refl); subst z
           end.
  all: try solve [split; [right; lia | intros; exfalso; lia]].
  all: match goal with
       | Hu : Forall setup_event ?u /\ _ /\ (None = None -> _),
         Ht : _ /\ (?a = 0 -> root_entered _ ?t) |- _ =>
           let Hsu := fresh "Hsu" in let Hcalls := fresh "Hcalls" in
           let Hc := fresh "Hc" in let Hp := fresh "Hp" in
           let Hsign := fresh "Hsign" in let Hroot := fresh "Hroot" in
           destruct Hu as (Hsu & _ & Hcalls); destruct (Hcalls eq_refl) as [Hc Hp];
           destruct Ht as [Hsign Hroot];
           split; [exact Hsign|]; intros Ha; specialize (Hroot Ha);
           unfold tmpfs_ready;
           lazymatch goal with
           | |- exists r0 pre user tail, _ /\ (_ :: ?l) = _ /\ _ =>
               let p := prefix_before l u in exists r, p, u, t
           end;
           split; [assumption|];
           split; [rewrite <- ?app_assoc; cbn [app]; reflexivity|];
           split; [solve_forall idtac|];
           repeat split; assumption
       end.
Qed.

End Builder.
End MountFacts.

Import Libc Data Sys Utils Fs Observe FsSpec MountSpec Examples.

(** microbox_bind_mount returns 0 or -1.  A read-write spec is bind
    mounted and never remounted.  When the function returns 0, the mount
    calls it made are the bind mount of the host path on base + dest, and
    for a read-only spec the read-only remount of that target after it,
    and they succeeded. *)
Theorem microbox_bind_mount_read_only K base spec s :
  let rc := fst (microbox_bind_mount K base spec s) in
  let ext := emitted (microbox_bind_mount K base spec) s in
  (rc = 0 \/ rc = -1) /\
  (mode spec = MNT_RW ->
   mounts_of ext = [] \/ exists r, mounts_of ext = [(bind_call base spec, r)]) /\
  (rc = 0 ->
   match mode spec with
   | MNT_RW => exists r, 0 <= r /\ mounts_of ext = [(bind_call base spec, r)]
   | MNT_RO => exists r r', 0 <= r /\ 0 <= r' /\
                 mounts_of ext = [(bind_call base spec, r);
                                  (remount_ro_call base spec, r')]
   end).
Proof.
  cbv zeta. run_of (MountFacts.microbox_bind_mount_wp K base spec) s. exact Hpost.
Qed.

(** --mount-ro /srv:/data below /box, everything succeeding: /srv is bound
    on /box/data and /box/data is remounted read-only. *)
Lemma microbox_bind_mount_read_only_srv :
  map fst (mounts_of (emitted (microbox_bind_mount K_ok "/box"
                                 {| host := "/srv"; dest := "/data"; mode := MNT_RO |})
                              init))
  = [ Mount (Some "/srv") "/box/data" None (Z.lor MS_BIND MS_REC) None;
      Mount None "/box/data" None
            (Z.lor (Z.lor (Z.lor MS_BIND MS_REMOUNT) MS_RDONLY) MS_NOSUID) None ].
Proof.
  destruct (microbox_bind_mount_read_only K_ok "/box"
              {| host := "/srv"; dest := "/data"; mode := MNT_RO |} init)
    as (_ & _ & Hok).
  destruct (Hok eq_refl) as (r & r' & _ & _ & ->). reflexivity.
Defined.

(** microsandbox_setup_fs in host mode makes no call at all and returns 0,
    whatever mounts, --proc and --dev ask for.  In tmpfs mode its result
    is 0 or negative, and it is 0 only after this: "/" was made private;
    the new root was prepared by calls that build it, among them, for the
    --mount options in order, their bind mounts and read-only remounts,
    all successful; then chdir into /box, mkdir .old_root, pivot_root,
    chdir to "/", the lazy unmount of /.old_root and its rmdir, all
    successful, as the last calls. *)
Theorem microsandbox_setup_fs_success K opts s :
  let rc := fst (microsandbox_setup_fs K opts s) in
  let ext := emitted (microsandbox_setup_fs K opts) s in
  (fs_mode opts = FS_HOST -> microsandbox_setup_fs K opts s = (0, s)) /\
  (fs_mode opts = FS_TMPFS ->
   (rc = 0 \/ rc < 0) /\
   (rc = 0 ->
    exists r0 pre user tail,
      0 <= r0 /\
      ext = (private_root_mount, r0) :: pre ++ user ++ tail /\
      Forall setup_event pre /\ Forall setup_event user /\
      map fst (mounts_of user) = bind_calls "/box" (mounts opts) /\
      Forall (fun ev => 0 <= snd ev) (mounts_of user) /\
      root_entered "/box" tail)).
Proof.
  cbv zeta. unfold microsandbox_setup_fs. split; intros Hmode; rewrite Hmode.
  - reflexivity.
  - run_of (MountFacts.microsandbox_setup_tmpfs_done K opts) s. exact Hpost.
Qed.

(** microbox --proc --dev --mount-ro /srv:/data -- /bin/true in tmpfs mode,
    everything succeeding: the result is 0 and the run ends with the six
    calls that enter the new root. *)
Lemma microsandbox_setup_fs_success_full :
  fst (microsandbox_setup_fs K_ok opts_tmpfs_full init) = 0 /\
  exists pre,
    map fst (emitted (microsandbox_setup_fs K_ok opts_tmpfs_full) init)
    = pre ++ [ Chdir "/box"; Mkdir ".old_root" 448; PivotRoot "." "./.old_root";
               Chdir "/"; Umount2 "/.old_root" MNT_DETACH; Rmdir "/.old_root" ].
Proof.
  split; [reflexivity|].
  destruct (microsandbox_setup_fs_success K_ok opts_tmpfs_full init) as [_ Htmpfs].
  destruct (Htmpfs eq_refl) as [_ Hok].
  destruct (Hok eq_refl)
    as (r0 & pre & user & tail & _ & -> & _ & _ & _ & _ & Hroot).
  destruct Hroot as (r1 & r2 & r3 & r4 & r5 & r6 & _ & _ & _ & _ & _ & _ & ->).
  exists (private_root_mount :: map fst pre ++ map fst user).
  cbn [map fst]. rewrite !map_app. cbn [map fst app].
  rewrite <- app_assoc. reflexivity.
Defined.

(* ================================================================== *)
(** * The seccomp builder: what is loaded and what is released         *)
(* ================================================================== *)

Module ShapeFacts.
Import Libc Data Sys Seccomp Observe Logic Rules SeccompShape.

Section Builder.
Variable K : kernel.

Lemma add_deny_rules_shape allow_ovr deny : forall ctx before added0 e,
  wp (add_deny_rules K deny allow_ovr ctx) (st before added0 e)
     (fun res s' =>
        exists added e', s' = st before (added0 ++ added) e' /\
          match fst res with
          | None => Forall rule_added added
          | Some _ => rule_refused added
          end).
Proof.
  induction deny as [|name rest IH]; intros ctx before added0 e.
  - cbn [add_deny_rules]. apply wp_ret.
    exists [], e. rewrite app_nil_r. split; [reflexivity | constructor].
  - cbn [add_deny_rules].
    destruct (String.length name =? 0)%nat; [apply IH|].
    destruct (match allow_ovr with
              | Some allow => name_in_list name allow
              | None => false
              end); [apply IH|].
    unfold seccomp_syscall_resolve_name.
    destruct (k_resolve K name =? __NR_SCMP_ERROR); [apply IH|].
    unfold seccomp_rule_add, seccomp_release.
    wp_step. wp_step. wp_step. wp_branch; wp_step; cbn iota beta; rewrite Heqb.
    + (* seccomp_rule_add failed *)
      wp_go. reflect_hyps. eexists _, _. split; [reflexivity|].
      cbn [fst]. exists [], ctx, (SCMP_ACT_ERRNO ENOSYS), (k_resolve K name), r, ctx, r0.
      split; [constructor|]. split; [assumption | reflexivity].
    + reflect_hyps. eapply wp_conseq; [apply IH|].
      cbn beta. intros [early ctx'] s' (added & e' & -> & Hshape).
      cbn [fst] in *.
      eexists (_ :: added), e'. split; [unfold st; now rewrite <- app_assoc|].
      destruct early as [rc|].
      * destruct Hshape as (adds & c & a & n & x & c' & x' & Hadds & Hx & ->).
        exists ((SeccompRuleAdd ctx (SCMP_ACT_ERRNO ENOSYS) (k_resolve K name), r) :: adds),
          c, a, n, x, c', x'.
        split; [constructor; [exact Heqb | exact Hadds]|].
        split; [exact Hx | reflexivity].
      * constructor; [exact Heqb | exact Hshape].
Qed.

Lemma microbox_setup_seccomp_shape deny allow_ovr before e :
  wp (microbox_setup_seccomp K deny allow_ovr) (st before [] e)
     (fun rc s' => exists added e', s' = st before added e' /\
                   seccomp_shape rc added).
Proof.
  unfold microbox_setup_seccomp, seccomp_init, seccomp_load, seccomp_release.
  wp_step. wp_step. wp_step. wp_branch; wp_step.
  - (* seccomp_init gave NULL *)
    wp_step. wp_done. reflect_hyps. left. exists r. auto.
  - wp_step. reflect_hyps.
    eapply wp_conseq; [apply add_deny_rules_shape|].
    cbn beta. intros [early ctx] s' (added & e' & -> & Hshape).
    cbn [fst app] in *.
    destruct early as [rc|].
    + wp_step. wp_done. right. left. exists r, added. auto.
    + wp_go.
      all: wp_done; right; right; eexists r, added, ctx, _, _;
        (split; [assumption|]); (split; [exact Hshape|]);
        (split; [reflexivity|]); intros; reflect_hyps; try lia; reflexivity.
Qed.

End Builder.
Lemma last_but_one {A} (x : A) pre a b d :
  nth 1 (rev (x :: pre ++ [a; b])) d = a.
Proof. cbn [rev]. rewrite rev_app_distr. reflexivity. Qed.

End ShapeFacts.

Import Libc Data Sys Seccomp Sandbox Observe SeccompShape Examples.

(** A run of microbox_setup_seccomp goes one of three ways.  seccomp_init
    fails: nothing else is called and the result is -ENOMEM.  Or a
    seccomp_rule_add fails, after rules that were all added: the context
    is released and no filter is loaded.  Or every rule is added: the
    filter is loaded, the same context is released as the last call, and
    the result is 0 when the load succeeded.  So a filter with a rule
    missing is never loaded, and a context that was made is released
    exactly once. *)
Theorem microbox_setup_seccomp_releases K deny allow_ovr s :
  let rc := fst (microbox_setup_seccomp K deny allow_ovr s) in
  let ext := emitted (microbox_setup_seccomp K deny allow_ovr) s in
  (exists r0, r0 < 0 /\ ext = [(SeccompInit SCMP_ACT_ALLOW, r0)] /\ rc = - ENOMEM) \/
  (exists r0 adds ctx act nr r ctx' r',
     0 <= r0 /\ Forall rule_added adds /\ r < 0 /\
     ext = (SeccompInit SCMP_ACT_ALLOW, r0) :: adds
           ++ [(SeccompRuleAdd ctx act nr, r); (SeccompRelease ctx', r')]) \/
  (exists r0 adds f r r',
     0 <= r0 /\ Forall rule_added adds /\
     ext = (SeccompInit SCMP_ACT_ALLOW, r0) :: adds
           ++ [(SeccompLoad f, r); (SeccompRelease f, r')] /\
     (0 <= r -> rc = 0)).
Proof.
  cbv zeta.
  run_of (ShapeFacts.microbox_setup_seccomp_shape K deny allow_ovr) s.
  destruct Hpost as [H|[(r0 & added0 & Hr0 & Hrefused & ->)|H]].
  - left. exact H.
  - right. left.
    destruct Hrefused as (adds & c & a & n & x & c' & x' & Hadds & Hx & ->).
    exists r0, adds, c, a, n, x, c', x'. auto.
  - right. right. exact H.
Qed.

(** The default deny list with libseccomp accepting every rule: the result
    is 0. *)
Lemma microbox_setup_seccomp_releases_default :
  fst (microbox_setup_seccomp K_ok docker_default_denylist None init) = 0.
Proof.
  destruct (microbox_setup_seccomp_releases K_ok docker_default_denylist None init)
    as [H|[H|H]].
  - destruct H as (r0 & _ & Hext & _). vm_compute in Hext. discriminate Hext.
  - destruct H as (r0 & adds & ctx & act & nr & r & ctx' & r' & _ & _ & Hr & Hext).
    apply (f_equal (fun l => nth 1 (rev l) (Getpid, 0))) in Hext.
    rewrite ShapeFacts.last_but_one in Hext.
    vm_compute in Hext. discriminate Hext.
  - destruct H as (r0 & adds & f & r & r' & _ & _ & Hext & Hok).
    apply Hok.
    apply (f_equal (fun l => snd (nth 1 (rev l) (Getpid, 0)))) in Hext.
    rewrite ShapeFacts.last_but_one in Hext.
    vm_compute in Hext. subst r. discriminate.
Defined.

(** With libseccomp refusing the rule for ptrace, the default deny list
    gives the rule for bpf, the refused one, the release, and no load. *)
Example microbox_setup_seccomp_refused :
  let ext := emitted (microbox_setup_seccomp K_refuse_ptrace
                        docker_default_denylist None) init in
  loaded_filters ext = [] /\
  List.length ext = 4%nat /\
  exists ctx r, last ext (Getpid, 0) = (SeccompRelease ctx, r).
Proof.
  cbv zeta. split; [reflexivity|]. split; [reflexivity|].
  vm_compute. eexists _, _. reflexivity.
Qed.

(* ================================================================== *)
(** * Sockets of netlink.c, and the parent after clone3 (sandbox.c)    *)
(* ================================================================== *)

(** Evaluate [sockets_after] on a trace whose results are variables with
    known signs. *)
Ltac eval_sockets :=
  repeat (cbn [SpawnSpec.sockets_after SpawnSpec.close_socket];
          settle_sign; rewrite ?Z.eqb_refl).

(** Write an append chain as everything but its last part, followed by
    that part. *)
Ltac to_front :=
  rewrite <- ?app_assoc; cbn [app]; repeat rewrite app_comm_cons;
  rewrite ?app_assoc.

Module SpawnFacts.
Import Libc Data Sys Utils Fs Netlink Netns Sandbox Observe Logic Rules TraceProps
       Frame SpawnSpec.

(** A summary that also tells errno at the end can be used in the middle
    of a run. *)
Lemma wp_frame_errno {A} (m : M A) (Phi : A -> list event -> Z -> Prop) :
  (forall before e,
      wp m (st before [] e)
         (fun a s' => exists added e', s' = st before added e' /\ Phi a added e')) ->
  forall before added0 e (Q : A -> pstate -> Prop),
    (forall a added e', Phi a added e' -> Q a (st before (added0 ++ added) e')) ->
    wp m (st before added0 e) Q.
Proof.
  intros Hm before added0 e Q HQ.
  specialize (Hm (before ++ added0) e).
  rewrite st_shift, app_nil_r in Hm. unfold wp in *.
  destruct Hm as (added & e' & Hs & Hphi).
  rewrite Hs, st_shift. now apply HQ.
Qed.

Section Run.
Variable K : kernel.

Lemma netlink_open_wp handle before e :
  wp (netlink_open K handle) (st before [] e)
     (fun res s' => exists added e', s' = st before added e' /\
        ((fst res = 0 \/ fst res = -1) /\
         (fst res = 0 ->
          0 <= nl_fd (snd res) /\ nl_seq (snd res) = 1 /\
          sockets_after [] added = [nl_fd (snd res)] /\
          exists b, 0 <= b /\
            added = [ (Socket AF_NETLINK SOCK_RAW NETLINK_ROUTE, nl_fd (snd res));
                      (Getpid, nl_pid (snd res));
                      (Bind (nl_fd (snd res)) (nl_pid (snd res)), b) ]) /\
         (fst res = -1 -> sockets_after [] added = []))).
Proof.
  unfold netlink_open. wp_go.
  all: wp_done; forget_oracle; reflect_hyps; cbn [fst snd nl_fd nl_seq nl_pid].
  all: split; [auto|].
  all: split; [intros Hrc; try discriminate Hrc|intros Hrc; try discriminate Hrc].
  all: try (eval_sockets; reflexivity).
  split; [assumption|]. split; [reflexivity|]. split; [eval_sockets; reflexivity|].
  eexists. split; [eassumption | reflexivity].
Qed.

Lemma cleanup_sockets pid before e :
  wp (microbox_cleanup_network_interfaces K pid) (st before [] e)
     (fun rc s' => exists added e', s' = st before added e' /\
        (sockets_after [] added = [] /\
         (rc = 0 \/ rc = -1) /\
         (forall idx, In (IfNametoindex (veth_host (snd (generate_interface_names pid))), idx) added ->
            forall fd ty fl seq i r, In (Sendmsg fd ty fl seq i, r) added ->
              ty = RTM_DELLINK /\ seq = 1 /\ i = idx /\ idx <> 0) /\
         (List.length (filter (fun ev => is_sendmsg (fst ev)) added) <= 1)%nat)).
Proof.
  unfold microbox_cleanup_network_interfaces.
  destruct (generate_interface_names pid) as [rc0 config] eqn:Hgen.
  assert (rc0 = 0) by (unfold generate_interface_names in Hgen; congruence).
  subst rc0. cbn [snd].
  unfold netlink_open, netlink_delete_interface, netlink_close,
    netlink_get_interface_index, netlink_send_request, netlink_recv_response.
  cbn [negb Z.eqb].
  repeat first [progress cbn [nl_fd nl_seq nl_pid] | wp_step | wp_branch].
  all: wp_done; forget_oracle; reflect_hyps.
  all: split; [eval_sockets; reflexivity|].
  all: split; [auto|].
  all: split; [|cbn; lia].
  all: intros idx Hidx fd0 ty0 fl0 sq0 i0 x0 Hs; cbn [In] in Hidx, Hs.
  all: repeat (destruct Hs as [Hs|Hs]; [try discriminate Hs|]); try contradiction.
  all: injection Hs as <- <- <- <- <- <-.
  all: repeat (destruct Hidx as [Hidx|Hidx]; [try discriminate Hidx|]);
    try contradiction.
  all: injection Hidx as <-; repeat split; try reflexivity; lia.
Qed.

Hypothesis Hfull : no_short_writes K.

(** Bring in what is known of the results of write. *)
Ltac know_writes :=
  repeat match goal with
    | H : ?r = k_ret K ?h (Write ?fd ?buf) |- _ =>
        let Hw := fresh "Hw" in
        pose proof (Hfull h fd buf) as Hw; rewrite <- H in Hw; clear H
    end;
  forget_oracle.

Lemma setup_uid_gid_map_errno pid before e :
  wp (setup_uid_gid_map K pid) (st before [] e)
     (fun rc s' => exists added e', s' = st before added e' /\
        (rc = 0 \/ rc = -1 /\ 0 < e')).
Proof.
  unfold setup_uid_gid_map, write_file.
  repeat first
    [ lazymatch goal with
      | |- wp (bind (sys K (Write _ _)) _) _ _ => apply wp_bind; apply wp_sys; intros ? ? ?;
          cbn [app]; rewrite <- ?app_assoc; cbn [app]
      end
    | wp_step | wp_branch ].
  all: wp_done; know_writes; reflect_hyps.
  all: try solve [left; reflexivity | right; split; [reflexivity | lia] | exfalso; lia].
Qed.

Lemma enable_controllers_errno before e :
  wp (enable_controllers K) (st before [] e)
     (fun res s' => exists added e', s' = st before added e' /\
        (forall rc, res = Some rc -> rc < 0 /\ e' = - rc)).
Proof.
  unfold enable_controllers. wp_go.
  all: wp_done; forget_oracle; reflect_hyps.
  all: intros rc Hres; try discriminate Hres; injection Hres as <-; lia.
Qed.

Lemma setup_cgroup_limits_errno pid cpus memory before e :
  wp (setup_cgroup_limits K pid cpus memory) (st before [] e)
     (fun rc s' => exists added e', s' = st before added e' /\
        (rc = 0 \/ rc < 0 /\ e' = - rc)).
Proof.
  unfold setup_cgroup_limits, cgroup_write, mkdir_safe.
  unfold and_then at 1. apply wp_bind.
  apply (wp_frame_errno _ _ enable_controllers_errno).
  intros res added1 e1 Hres. cbn [app].
  destruct res as [rc|].
  { apply wp_ret. wp_done. right. now apply Hres. }
  clear Hres.
  wp_go.
  all: wp_done; forget_oracle; reflect_hyps.
  all: try solve [left; reflexivity | right; lia].
Qed.

Lemma spawn_parent_post opts rfd wfd pid before e :
  wp (spawn_parent K opts (rfd, wfd) pid) (st before [] e)
     (fun o s' => exists added e', s' = st before added e' /\
                  parent_post wfd o added).
Proof.
  unfold spawn_parent, microbox_setup_bridge_network, move_veth_to_container.
  unfold generate_interface_names. cbv beta iota. cbn [fst snd].
  repeat first
    [ lazymatch goal with
      | |- wp (bind (sys K (Write _ _)) _) _ _ => apply wp_bind; apply wp_sys; intros ? ? ?;
          cbn [app]; rewrite <- ?app_assoc; cbn [app]
      | |- wp (bind (setup_uid_gid_map K _) _) _ _ =>
          apply wp_bind;
          apply (wp_frame_errno _ _ (setup_uid_gid_map_errno pid));
          intros ? ? ? ?; cbn [app]; rewrite <- ?app_assoc; cbn [app]
      | |- wp (bind (setup_cgroup_limits K _ _ _) _) _ _ =>
          apply wp_bind;
          apply (wp_frame_errno _ _ (setup_cgroup_limits_errno pid (cpus opts) (memory opts)));
          intros ? ? ? ?; cbn [app]; rewrite <- ?app_assoc; cbn [app]
      end
    | wp_step | wp_branch ].
  all: wp_done; know_writes; reflect_hyps; unfold parent_post.
  all: try solve [split; [lia | intros; exfalso; lia]].
  all: try (split; [reflexivity|]; to_front; eexists _, _;
            split; [eassumption | reflexivity]).
  all: split; [lia|]; intros _;
    match goal with
    | Hw : ?r < 0 \/ ?r = Z.of_nat (String.length "X") |- _ =>
        assert (r = 1) by (cbn in Hw; lia); subst r
    end;
    to_front; eexists _, _; reflexivity.
Qed.

End Run.

End SpawnFacts.

Import Libc Data Sys Utils Netlink Netns Sandbox Observe SpawnSpec Examples.

(** netlink_open returns 0 or -1.  On 0 the handle holds the socket, the
    pid of the process and sequence number 1, after the three calls
    socket, getpid and bind, and that socket is the one left open.  On -1
    no socket is left open: one that was made is closed when bind
    fails. *)
Theorem netlink_open_result K handle s :
  let res := fst (netlink_open K handle s) in
  let ext := emitted (netlink_open K handle) s in
  (fst res = 0 \/ fst res = -1) /\
  (fst res = 0 ->
   0 <= nl_fd (snd res) /\ nl_seq (snd res) = 1 /\
   sockets_after [] ext = [nl_fd (snd res)] /\
   exists b, 0 <= b /\
     ext = [ (Socket AF_NETLINK SOCK_RAW NETLINK_ROUTE, nl_fd (snd res));
             (Getpid, nl_pid (snd res));
             (Bind (nl_fd (snd res)) (nl_pid (snd res)), b) ]) /\
  (fst res = -1 -> sockets_after [] ext = []).
Proof.
  cbv zeta. run_of (SpawnFacts.netlink_open_wp K handle) s. exact Hpost.
Qed.

(** bind is refused: the socket that was made is closed again. *)
Lemma netlink_open_result_bind_fails :
  let K := with_ret (fun c => match c with Bind _ _ => Some (- EINVAL) | _ => None end)
                    K_ok in
  fst (fst (netlink_open K uninit_handle init)) = -1 /\
  map fst (emitted (netlink_open K uninit_handle) init)
  = [Socket AF_NETLINK SOCK_RAW NETLINK_ROUTE; Getpid; Bind 5 100; Close 5] /\
  sockets_after [] (emitted (netlink_open K uninit_handle) init) = [].
Proof.
  cbv zeta. split; [reflexivity|]. split; [reflexivity|].
  destruct (netlink_open_result
              (with_ret (fun c => match c with
                                  | Bind _ _ => Some (- EINVAL)
                                  | _ => None
                                  end) K_ok) uninit_handle init)
    as (_ & _ & Hfail).
  apply Hfail. reflexivity.
Defined.

(** microbox_cleanup_network_interfaces leaves no socket open, whatever
    the kernel answers.  It returns 0 or -1.  It sends at most one
    request, and that one is the RTM_DELLINK with sequence number 1 for
    the index, not 0, that if_nametoindex gave for the host veth name. *)
Theorem cleanup_closes_socket K pid s :
  let rc := fst (microbox_cleanup_network_interfaces K pid s) in
  let ext := emitted (microbox_cleanup_network_interfaces K pid) s in
  sockets_after [] ext = [] /\
  (rc = 0 \/ rc = -1) /\
  (forall idx,
      In (IfNametoindex (veth_host (snd (generate_interface_names pid))), idx) ext ->
      forall fd ty fl seq i r, In (Sendmsg fd ty fl seq i, r) ext ->
        ty = RTM_DELLINK /\ seq = 1 /\ i = idx /\ idx <> 0) /\
  (List.length (filter (fun ev => is_sendmsg (fst ev)) ext) <= 1)%nat.
Proof.
  cbv zeta. run_of (SpawnFacts.cleanup_sockets K pid) s. exact Hpost.
Qed.

(** The interface of pid 4242 has index 7: one request is sent, for
    index 7. *)
Lemma cleanup_closes_socket_4242 :
  filter (fun ev => is_sendmsg (fst ev))
         (emitted (microbox_cleanup_network_interfaces K_ok 4242) init)
  = [(Sendmsg 5 RTM_DELLINK (Z.lor NLM_F_REQUEST NLM_F_ACK) 1 7, 0)].
Proof.
  destruct (cleanup_closes_socket K_ok 4242 init) as (_ & _ & Hreq & _).
  destruct (Hreq 7 ltac:(vm_compute; auto 10)
              5 RTM_DELLINK (Z.lor NLM_F_REQUEST NLM_F_ACK) 1 7 0
              ltac:(vm_compute; auto 10)) as (_ & _ & _ & _).
  reflexivity.
Defined.

(** On a kernel where a write is complete or fails, the parent branch of
    microbox_sandbox_spawn never ends in execve or by a signal; it exits,
    with status
    127, only when the write to the barrier has failed; and otherwise it
    returns 0 or a negative value, 0 only after it has written the byte to
    the barrier and closed the write end, as its last two calls. *)
Theorem spawn_parent_releases_barrier K opts rfd wfd pid s :
  no_short_writes K ->
  let o := fst (spawn_parent K opts (rfd, wfd) pid s) in
  let ext := emitted (spawn_parent K opts (rfd, wfd) pid) s in
  match o with
  | Execed => False
  | Signalled _ => False
  | Exited status =>
      status = 127 /\
      exists pre r, r < 0 /\ ext = pre ++ [(Write wfd "X", r)]
  | Returned rc =>
      rc <= 0 /\
      (rc = 0 ->
       exists pre c, ext = pre ++ [(Write wfd "X", 1); (Close wfd, c)])
  end.
Proof.
  intros Hfull. cbv zeta.
  run_of (SpawnFacts.spawn_parent_post K Hfull opts rfd wfd pid) s. exact Hpost.
Qed.

Lemma spawn_parent_releases_barrier_ok :
  fst (spawn_parent K_ok opts_tmpfs (8, 9) 4242 init) = Returned 0 /\
  exists pre c,
    emitted (spawn_parent K_ok opts_tmpfs (8, 9) 4242) init
    = pre ++ [(Write 9 "X", 1); (Close 9, c)].
Proof.
  split; [reflexivity|].
  assert (Hfull : no_short_writes K_ok).
  { intros h fd buf. right. reflexivity. }
  pose proof (spawn_parent_releases_barrier K_ok opts_tmpfs 8 9 4242 init Hfull) as H.
  cbv zeta in H.
  change (fst (spawn_parent K_ok opts_tmpfs (8, 9) 4242 init)) with (Returned 0) in H.
  destruct H as [_ H]. exact (H eq_refl).
Defined.

(** microbox_sandbox_spawn with a NULL argument returns -EINVAL and calls
    nothing.  When pipe fails the process exits with status 127.  When
    clone3 fails, both ends of the pipe are closed, nothing else is called,
    the process record is left as it was, and the result is minus the
    errno found after the two close calls. *)
Theorem microbox_sandbox_spawn_clone3_fails K opts process s :
  let p := k_ret K (trace s) Pipe in
  let s1 := trace s ++ [(Pipe, p)] in
  let call := Clone3 (clone_flags opts) SIGCHLD in
  let pid := k_ret K s1 call in
  let fds := k_pipe_fds K s1 in
  let ext := emitted (microbox_sandbox_spawn K (Some opts) (Some process)) s in
  let res := fst (microbox_sandbox_spawn K (Some opts) (Some process) s) in
  (forall q, microbox_sandbox_spawn K None q s = ((Returned (- EINVAL), q), s)) /\
  microbox_sandbox_spawn K (Some opts) None s = ((Returned (- EINVAL), None), s) /\
  (p < 0 -> res = (Exited 127, Some process) /\ ext = [(Pipe, p)]) /\
  (0 <= p -> pid < 0 ->
   exists c1 c2,
     ext = [(Pipe, p); (call, pid); (Close (fst fds), c1); (Close (snd fds), c2)] /\
     res = (Returned (- errno (snd (microbox_sandbox_spawn K (Some opts)
                                      (Some process) s))),
            Some process)).
Proof.
  cbv zeta. split; [intros q; destruct q; reflexivity|]. split; [reflexivity|].
  unfold emitted, microbox_sandbox_spawn, bind, sys, pipe_fds, get_errno, ret.
  cbn [trace errno fst snd].
  split.
  - intros Hp. apply Z.ltb_lt in Hp. rewrite Hp. cbn [fst snd trace].
    change (-1 <? 0) with true. cbn [fst snd trace]. split; [reflexivity|].
    rewrite skipn_app, skipn_all, Nat.sub_diag. reflexivity.
  - intros Hp Hpid. apply Z.ltb_ge in Hp. apply Z.ltb_lt in Hpid.
    rewrite Hp. cbn [fst snd trace errno].
    replace (k_ret K (trace s) Pipe <? 0) with false by (symmetry; exact Hp).
    cbn [fst snd trace errno]. rewrite Hpid. cbn [fst snd trace errno].
    change (-1 <? 0) with true. cbn [fst snd trace errno].
    eexists _, _. split.
    + repeat match goal with
             | |- context [if ?b then _ else _] => destruct b
             end;
        cbn [fst snd trace errno];
        rewrite <- !app_assoc; cbn [app];
        rewrite skipn_app, skipn_all, Nat.sub_diag; reflexivity.
    + repeat match goal with
             | |- context [if ?b then _ else _] => destruct b
             end; reflexivity.
Qed.

(** clone3 is refused with EINVAL: the two ends of the pipe, 8 and 9, are
    closed and the result is -EINVAL. *)
Lemma microbox_sandbox_spawn_clone3_fails_einval :
  let K := with_ret (fun c => match c with Clone3 _ _ => Some (- EINVAL) | _ => None end)
                    K_ok in
  fst (microbox_sandbox_spawn K (Some opts_tmpfs) (Some proc_4242) init)
  = (Returned (- EINVAL), Some proc_4242) /\
  map fst (emitted (microbox_sandbox_spawn K (Some opts_tmpfs) (Some proc_4242)) init)
  = [Pipe; Clone3 (clone_flags opts_tmpfs) SIGCHLD; Close 8; Close 9].
Proof.
  cbv zeta.
  destruct (microbox_sandbox_spawn_clone3_fails
              (with_ret (fun c => match c with
                                  | Clone3 _ _ => Some (- EINVAL)
                                  | _ => None
                                  end) K_ok) opts_tmpfs proc_4242 init)
    as (_ & _ & _ & Hclone).
  destruct Hclone as (c1 & c2 & Hext & Hres);
    [vm_compute; discriminate | vm_compute; reflexivity |].
  split; [rewrite Hres; reflexivity | rewrite Hext; reflexivity].
Defined.

(* ================================================================== *)
(** * How the child branch ends (sandbox.c)                            *)
(* ================================================================== *)

Module OutcomeFacts.
Import Libc Data Sys Utils Fs Netns Seccomp Sandbox Observe Logic Rules
       TraceProps Frame FsSpec SeccompSpec ChildSpec ChildOutcome.

Section Child.
Variable K : kernel.

Lemma spawn_child_post opts rfd wfd before e :
  wp (spawn_child K opts (rfd, wfd)) (st before [] e)
     (fun o s' => exists added e', s' = st before added e' /\
                  child_post K opts rfd o added).
Proof.
  unfold spawn_child, microbox_configure_container_network.
  destruct (merge_syscall_lists opts) as [rc [deny allow]] eqn:Hmerge.
  assert (rc = 0).
  { unfold merge_syscall_lists in Hmerge.
    destruct ((_ =? _)%nat && _) in Hmerge; congruence. }
  subst rc. cbn [fst snd].
  unfold generate_interface_names. cbv beta iota.
  repeat first [ wp_step | wp_branch
               | use_only (ChildFacts.microsandbox_setup_fs_prepare K opts)
               | use_frame (SeccompFacts.microbox_setup_seccomp_wp K deny allow)
               | match goal with
                 | |- wp (match hostname opts with Some _ => _ | None => _ end) _ _ =>
                     destruct (hostname opts)
                 end ].
  all: wp_done; forget_oracle; reflect_hyps; unfold child_post.
  all: split; [eexists _, _; split; [reflexivity|]; intros; try (exfalso; lia); auto|].
  all: try solve [left; reflexivity].
  all: try solve [right; left; split; [reflexivity | assumption]].
  all: right; right; split; [reflexivity|]; to_front; eexists _, _, _;
    split; [eassumption|]; split; [eassumption | reflexivity].
Qed.

End Child.
End OutcomeFacts.

Import Libc Data Sys Sandbox Observe ChildOutcome Examples.

(** The child branch of microbox_sandbox_spawn begins with the read on the
    barrier, and when the read fails that is its only call.  The child
    never returns into the caller.  It exits with status 127; or it ends
    in a successful execve of the first word of the command, with the
    command as argv; or, with --env variables only, it is ended by SIGSEGV.
    Without --env variables the environment of the execve is safe_env.
    With them it is safe_env overridden by the array opts->env as merge
    scans it: the parser stores no terminating entry, so these are the
    variables followed by what lies in memory after them, up to a NULL
    name; the signal is what ends the child where that memory cannot be
    read. *)
Theorem spawn_child_ends K opts rfd wfd s :
  let o := fst (spawn_child K opts (rfd, wfd) s) in
  let ext := emitted (spawn_child K opts (rfd, wfd)) s in
  (exists r rest,
     ext = (Read rfd 1, r) :: rest /\
     (r < 0 -> rest = [] /\ o = Exited 127)) /\
  (o = Exited 127 \/
   o = Signalled SIGSEGV /\ env opts <> None /\ k_env_past K = None \/
   o = Execed /\
   exists pre r envp,
     0 <= r /\
     ext = pre ++ [(Execve (hd "" (cmd opts)) (cmd opts) envp, r)] /\
     (env opts = None -> envp = flatten_env safe_env) /\
     (forall e, env opts = Some e ->
        exists past, k_env_past K = Some past /\
                     envp = flatten_env (merge safe_env (e ++ past)))).
Proof.
  cbv zeta. run_of (OutcomeFacts.spawn_child_post K opts rfd wfd) s.
  destruct Hpost as [Hread Hend]. split; [exact Hread|].
  unfold child_merged_env in Hend.
  destruct Hend as [Hexit | [(Hsig & Hnone) | (Hexec & pre & r & m & Hr & Hm & Hext)]].
  - now left.
  - right. left. split; [exact Hsig|].
    destruct (env opts) as [e0|]; [|discriminate Hnone].
    split; [discriminate|].
    destruct (k_env_past K); [discriminate Hnone | reflexivity].
  - right. right. split; [exact Hexec|].
    exists pre, r, (flatten_env m). split; [exact Hr|]. split; [exact Hext|].
    split.
    + intros He. rewrite He in Hm. injection Hm as <-. reflexivity.
    + intros e0 He. rewrite He in Hm.
      destruct (k_env_past K) as [past|]; [|discriminate Hm].
      injection Hm as <-. exists past. split; reflexivity.
Qed.

(** The child of microbox -- /bin/true whose read on the barrier fails
    with EINTR makes no other call.  With everything succeeding it ends in
    execve of /bin/true with the environment safe_env.  With --env LANG=C,
    where the memory after the one entry holds HOME=/ before a NULL name,
    HOME is overridden as well; and where that memory cannot be read, the
    child is ended by SIGSEGV after the filter was loaded. *)
Lemma spawn_child_ends_eintr :
  (let K := with_ret (fun c => match c with Read _ _ => Some (-4) | _ => None end) K_ok in
   emitted (spawn_child K opts_tmpfs (8, 9)) init = [(Read 8 1, -4)] /\
   fst (spawn_child K opts_tmpfs (8, 9) init) = Exited 127) /\
  (fst (spawn_child K_ok opts_tmpfs (8, 9) init) = Execed /\
   exists pre,
     map fst (emitted (spawn_child K_ok opts_tmpfs (8, 9)) init)
     = pre ++ [Execve "/bin/true" ["/bin/true"]
                 ["PATH=/usr/bin:/bin:/usr/sbin:/sbin:/usr/local/bin"; "HOME=/root";
                  "TERM=xterm"]]) /\
  (exists pre,
     map fst (emitted (spawn_child K_env_past opts_env (8, 9)) init)
     = pre ++ [Execve "/bin/true" ["/bin/true"]
                 ["PATH=/usr/bin:/bin:/usr/sbin:/sbin:/usr/local/bin"; "HOME=/";
                  "TERM=xterm"; "LANG=C"]]) /\
  fst (spawn_child K_env_fault opts_env (8, 9) init) = Signalled SIGSEGV.
Proof.
  split; [|split; [|split]].
  - cbv zeta.
    destruct (spawn_child_ends
                (with_ret (fun c => match c with Read _ _ => Some (-4) | _ => None end)
                          K_ok) opts_tmpfs 8 9 init)
      as [(r & rest & Hext & Hfail) _].
    assert (Hr : r = -4).
    { vm_compute in Hext. injection Hext as <- _. reflexivity. }
    subst r. destruct (Hfail ltac:(lia)) as [-> Ho].
    split; [exact Hext | exact Ho].
  - split; [reflexivity|].
    destruct (spawn_child_ends K_ok opts_tmpfs 8 9 init)
      as [_ [Hexit | [(Hsig & _) | Hexec]]];
      [vm_compute in Hexit; discriminate Hexit
      | vm_compute in Hsig; discriminate Hsig |].
    destruct Hexec as (_ & pre & r & envp & _ & -> & Henv & _).
    rewrite (Henv eq_refl). exists (map fst pre).
    rewrite map_app. reflexivity.
  - destruct (spawn_child_ends K_env_past opts_env 8 9 init)
      as [_ [Hexit | [(Hsig & _) | Hexec]]];
      [vm_compute in Hexit; discriminate Hexit
      | vm_compute in Hsig; discriminate Hsig |].
    destruct Hexec as (_ & pre & r & envp & _ & -> & _ & Henv).
    destruct (Henv _ eq_refl) as (past & Hpast & ->).
    injection Hpast as <-. exists (map fst pre).
    rewrite map_app. reflexivity.
  - destruct (spawn_child_ends K_env_fault opts_env 8 9 init)
      as [_ [Hexit | [(Hsig & _) | (Hexec & _)]]];
      [vm_compute in Hexit; discriminate Hexit
      | exact Hsig
      | vm_compute in Hexec; discriminate Hexec].
Defined.

(* ================================================================== *)
(** * mkdirp (utils.c) and the buffers of fs.c                         *)
(* ================================================================== *)

Module MkdirFacts.
Import Libc Data Sys Utils Fs Observe Logic Rules TraceProps Frame MkdirSpec
       OverlaySpec.

Lemma mkdir_paths_app a b : mkdir_paths (a ++ b) = mkdir_paths a ++ mkdir_paths b.
Proof.
  induction a as [|[c r] a IH]; [reflexivity|].
  destruct c; cbn [app mkdir_paths]; rewrite ?IH; reflexivity.
Qed.

Lemma loop_dirs_filter path rest : forall i,
  (forall k, String.get k rest = String.get (i + k) path) ->
  loop_dirs path rest i
  = map (fun i => substring 0 i path)
        (filter (slash_at path) (seq i (String.length rest))).
Proof.
  induction rest as [|c rest IH]; intros i Hget; [reflexivity|].
  cbn [loop_dirs String.length seq filter].
  assert (Hi : slash_at path i = Ascii.eqb c "/").
  { unfold slash_at. specialize (Hget O). rewrite Nat.add_0_r in Hget.
    rewrite <- Hget. reflexivity. }
  rewrite Hi.
  assert (Hrest : forall k, String.get k rest = String.get (S i + k) path).
  { intros k. specialize (Hget (S k)). cbn [String.get] in Hget.
    rewrite Hget. f_equal. lia. }
  rewrite (IH (S i) Hrest).
  destruct (Ascii.eqb c "/"); reflexivity.
Qed.

Lemma mkdirp_dirs_loop c t :
  mkdirp_dirs (String c t) = loop_dirs (String c t) t 1 ++ [String c t].
Proof.
  unfold mkdirp_dirs. f_equal. rewrite (loop_dirs_filter (String c t) t 1).
  - replace (String.length (String c t) - 1)%nat with (String.length t)
      by (cbn [String.length]; lia).
    reflexivity.
  - intros k. reflexivity.
Qed.

Section Run.
Variable K : kernel.

Lemma maybe_mkdir_paths path before e :
  wp (maybe_mkdir K path 511) (st before [] e)
     (fun rc s' => exists added e', s' = st before added e' /\
        (mkdir_paths added = [path] /\ Forall mkdir_or_stat added /\
         (rc = 0 \/ rc = -1) /\ (rc = 0 -> e' = 0))).
Proof.
  unfold maybe_mkdir. wp_go.
  all: wp_done; forget_oracle; reflect_hyps.
  all: split; [reflexivity|].
  all: split; [repeat constructor|].
  all: split; [auto|]; intros Hrc; try discriminate Hrc; lia.
Qed.

Lemma mkdirp_loop_paths path rest : forall i before e,
  wp (mkdirp_loop K path rest i) (st before [] e)
     (fun rc s' => exists added e', s' = st before added e' /\
        ((exists n, mkdir_paths added = firstn n (loop_dirs path rest i)) /\
         (rc = 0 -> mkdir_paths added = loop_dirs path rest i) /\
         (rc = 0 \/ rc = -1) /\ Forall mkdir_or_stat added)).
Proof.
  induction rest as [|c rest IH]; intros i before e; cbn [mkdirp_loop loop_dirs].
  - wp_go. wp_done. split; [exists O; reflexivity|].
    split; [reflexivity|]. split; [now left | constructor].
  - destruct (Ascii.eqb c "/"); [|apply IH].
    apply wp_bind.
    apply (SpawnFacts.wp_frame_errno _ _ (maybe_mkdir_paths (substring 0 i path))).
    intros a added e' (Hp & Hall & Hrc & _). cbn [app].
    wp_branch.
    + wp_step. wp_done.
      split; [exists 1%nat; exact Hp|].
      split; [discriminate|]. split; [now right | exact Hall].
    + use_frame (IH (S i)).
      match goal with
      | H : _ /\ _ |- _ => destruct H as ((n & Hn) & Hok & Hrc2 & Hall2)
      end.
      wp_done. rewrite mkdir_paths_app, Hp.
      split; [exists (S n); cbn [app firstn]; now rewrite Hn|].
      split; [intros H0; cbn [app]; now rewrite (Hok H0)|].
      split; [exact Hrc2 | now apply Forall_app].
Qed.

Lemma firstn_front {A} n (l : list A) x :
  exists n', firstn n l = firstn n' (l ++ [x]).
Proof.
  destruct (Nat.le_gt_cases n (List.length l)) as [Hle|Hgt].
  - exists n. rewrite firstn_app.
    replace (n - List.length l)%nat with O by lia. cbn [firstn].
    now rewrite app_nil_r.
  - exists (List.length l). rewrite firstn_app, Nat.sub_diag. cbn [firstn].
    rewrite app_nil_r, firstn_all. apply firstn_all2. lia.
Qed.

Lemma mkdirp_paths path before e :
  path <> "" ->
  wp (mkdirp K path) (st before [] e)
     (fun rc s' => exists added e', s' = st before added e' /\
        ((exists n, mkdir_paths added = firstn n (mkdirp_dirs path)) /\
         (rc = 0 -> mkdir_paths added = mkdirp_dirs path /\ e' = 0) /\
         (rc = 0 \/ rc = -1) /\ Forall mkdir_or_stat added)).
Proof.
  intros Hne. destruct path as [|c t]; [contradiction|].
  rewrite mkdirp_dirs_loop. unfold mkdirp.
  wp_step. wp_step. apply wp_bind.
  use_frame (mkdirp_loop_paths (String c t) t 1).
  match goal with
  | H : _ /\ _ |- _ => destruct H as ((n & Hn) & Hok & Hrc & Hall)
  end.
  wp_branch.
  - wp_step. wp_done.
    split; [rewrite Hn; apply firstn_front|].
    split; [discriminate|]. split; [now right | exact Hall].
  - reflect_hyps. assert (Ha : a = 0) by lia. specialize (Hok Ha).
    apply wp_bind.
    apply (SpawnFacts.wp_frame_errno _ _ (maybe_mkdir_paths (String c t))).
    intros a2 added2 e2 (Hp & Hall2 & Hrc2 & He2). cbn [app].
    wp_branch; wp_step; wp_done; rewrite mkdir_paths_app, Hok, Hp.
    + split; [eexists; symmetry; apply firstn_all|].
      split; [discriminate|]. split; [now right | now apply Forall_app].
    + reflect_hyps. assert (Ha2 : a2 = 0) by lia.
      split; [eexists; symmetry; apply firstn_all|].
      split; [intros _; split; [reflexivity | now apply He2]|].
      split; [now left | now apply Forall_app].
Qed.

End Run.

Lemma snprintf_fits size s :
  Z.of_nat (String.length s) = size - 1 -> snprintf size s = s.
Proof.
  intros H. unfold snprintf. rewrite <- H, Nat2Z.id.
  apply CliFacts.substring_whole.
Qed.

(** The buffer of path_join holds the joined path whole. *)
Lemma path_join_buffer_whole p1 p2 : path_join_buffer p1 p2 = path_join p1 p2.
Proof.
  unfold path_join_buffer, path_join. apply snprintf_fits.
  rewrite !CliFacts.length_append. cbn [String.length]. lia.
Qed.

(** The buffer of the overlay options holds them whole. *)
Lemma overlay_options_whole src up wk :
  overlay_options src up wk
  = "lowerdir=" +++ src +++ ",upperdir=" +++ up +++ ",workdir=" +++ wk.
Proof.
  unfold overlay_options, overlay_options_size. apply snprintf_fits.
  rewrite !CliFacts.length_append. cbn [String.length]. lia.
Qed.

Section Overlay.
Variable K : kernel.

Lemma microsandbox_create_overlayfs_post_wp src mountpoint before e :
  wp (microsandbox_create_overlayfs K src mountpoint) (st before [] e)
     (fun res s' => exists added e', s' = st before added e' /\
        overlay_post src mountpoint res added).
Proof.
  unfold microsandbox_create_overlayfs, overlay_post.
  wp_go.
  all: wp_done; forget_oracle; reflect_hyps.
  all: split; [eval_table; reflexivity|].
  all: split; [|intros Hn; try discriminate Hn;
                 repeat (apply Forall_cons; [cbn; intros; try discriminate; lia|]); apply Forall_nil].
  all: intros fs Hfs; try discriminate Hfs.
  injection Hfs as <-. rewrite !path_join_buffer_whole.
  split; [reflexivity|]. cbn [upperdir workdir mergedir].
  rewrite overlay_options_whole.
  repeat eexists; try reflexivity; lia.
Qed.

End Overlay.

End MkdirFacts.

Module ParseRange.
Import Libc Data Sys Parse.

Lemma scan_digits_nonneg s : forall acc any,
  0 <= acc -> 0 <= fst (fst (scan_digits s acc any)).
Proof.
  induction s as [|c s IH]; intros acc any Hacc; cbn [scan_digits]; [exact Hacc|].
  destruct (digit_val c) as [d|] eqn:E; [|exact Hacc].
  apply IH. apply ParseFacts.digit_val_range in E. lia.
Qed.

Lemma strtoull_range nptr e :
  0 <= fst (fst (strtoull nptr e)) <= ULLONG_MAX /\
  (snd (strtoull nptr e) = e \/ snd (strtoull nptr e) = ERANGE).
Proof.
  unfold strtoull.
  set (sel := match skip_spaces nptr with
              | String "-"%char r => (true, r)
              | String "+"%char r => (false, r)
              | _ => (false, skip_spaces nptr)
              end).
  destruct sel as [neg s2].
  pose proof (scan_digits_nonneg s2 0 false (Z.le_refl 0)) as Hv.
  destruct (scan_digits s2 0 false) as [[v any] rest]. cbn [fst] in Hv.
  unfold ULLONG_MAX in *.
  destruct any; cbn [negb fst snd]; [|split; [lia | now left]].
  destruct (Z.gtb_spec v (2 ^ 64 - 1)); cbn [fst snd]; [split; [lia | now right]|].
  split; [|now left].
  destruct neg; [|lia].
  pose proof (Z.mod_pos_bound (2 ^ 64 - v) (2 ^ 64) ltac:(lia)). lia.
Qed.

Lemma product_fits v m :
  0 <= v -> 0 < m -> (v >? UINT64_MAX / m) = false -> 0 <= v * m <= UINT64_MAX.
Proof.
  intros Hv Hm Hc. rewrite Z.gtb_ltb in Hc. apply Z.ltb_ge in Hc.
  split; [nia|].
  pose proof (Z.mul_div_le UINT64_MAX m Hm). nia.
Qed.

End ParseRange.

Import Libc Data Sys Utils Fs Parse Observe Examples MkdirSpec OverlaySpec.

(** mkdirp on a path that is not empty makes the directories of the path
    in order, shortest first: what is before each slash other than the
    first character, then the path itself, each with mode 0777.  It stops
    at the first directory that can neither be made nor found, with -1;
    with 0 all of them were made or found and errno is 0.  It calls
    nothing but mkdir and stat. *)
Theorem mkdirp_makes_parents K path s :
  path <> "" ->
  let rc := fst (mkdirp K path s) in
  let ext := emitted (mkdirp K path) s in
  (rc = 0 \/ rc = -1) /\
  Forall mkdir_or_stat ext /\
  (exists n, mkdir_paths ext = firstn n (mkdirp_dirs path)) /\
  (rc = 0 -> mkdir_paths ext = mkdirp_dirs path /\
             errno (snd (mkdirp K path s)) = 0).
Proof.
  intros Hne. cbv zeta.
  run_of (fun before e => MkdirFacts.mkdirp_paths K path before e Hne) s.
  destruct Hpost as (Hpre & Hok & Hrc & Hall).
  repeat split; try assumption.
  - now apply Hok.
  - rewrite Hs. now apply Hok.
Qed.

(** /box/dev/pts where nothing exists yet: three directories are made. *)
Lemma mkdirp_makes_parents_pts :
  fst (mkdirp K_ok "/box/dev/pts" init) = 0 /\
  mkdir_paths (emitted (mkdirp K_ok "/box/dev/pts") init)
  = ["/box"; "/box/dev"; "/box/dev/pts"].
Proof.
  split; [reflexivity|].
  destruct (mkdirp_makes_parents K_ok "/box/dev/pts" init) as (_ & _ & _ & Hok);
    [discriminate|].
  destruct (Hok eq_refl) as [Hpaths _].
  rewrite Hpaths. reflexivity.
Defined.

(** microsandbox_create_overlayfs leaves no descriptor open, whatever
    fails.  When it returns a file system, the directory was opened, upper,
    work and merged were made under it in that order, and the last call
    is the overlay mount on merged that succeeded; the paths and the
    options of the mount are written to buffers that hold them whole.
    When it returns NULL, no mount succeeded. *)
Theorem microsandbox_create_overlayfs_result K src mountpoint s :
  let res := fst (microsandbox_create_overlayfs K src mountpoint s) in
  let ext := emitted (microsandbox_create_overlayfs K src mountpoint) s in
  overlay_post src mountpoint res ext.
Proof.
  cbv zeta.
  run_of (MkdirFacts.microsandbox_create_overlayfs_post_wp K src mountpoint) s.
  exact Hpost.
Qed.

(** An overlay of /srv/root at /tmp/ov, everything succeeding. *)
Lemma microsandbox_create_overlayfs_result_tmp :
  exists fs rest,
    fst (microsandbox_create_overlayfs K_ok "/srv/root" "/tmp/ov" init) = Some fs /\
    mergedir fs = "/tmp/ov/merged" /\
    map fst (emitted (microsandbox_create_overlayfs K_ok "/srv/root" "/tmp/ov") init)
    = rest ++ [ Mount (Some "overlay") "/tmp/ov/merged" (Some "overlay") 0
                  (Some "lowerdir=/srv/root,upperdir=/tmp/ov/upper,workdir=/tmp/ov/work") ].
Proof.
  destruct (fst (microsandbox_create_overlayfs K_ok "/srv/root" "/tmp/ov" init))
    as [fs|] eqn:E; [|vm_compute in E; discriminate E].
  pose proof (microsandbox_create_overlayfs_result K_ok "/srv/root" "/tmp/ov" init) as H.
  cbv zeta in H. destruct H as (_ & Hsome & _).
  destruct (Hsome fs E) as (-> & fd & r1 & r2 & r3 & rc & rm & _ & _ & _ & _ & _ & ->).
  eexists _, _. split; [reflexivity|]. split; [reflexivity|].
  cbn [map fst].
  change (?a :: ?b :: ?c :: ?d :: ?e :: [?f]) with ([a; b; c; d; e] ++ [f]).
  reflexivity.
Defined.

(** parse_memory on any string: the number strtoull reads is within 64
    bits, and the result is 0 or that number times 1, 1024, 1024^2 or
    1024^3, never a product that wrapped around.  No system call is made.
    When the number read is 0, as for a string without a digit, the
    result is 0. *)
Theorem parse_memory_never_wraps mem s :
  let r := fst (parse_memory (Some mem) s) in
  let v := fst (fst (strtoull mem (errno s))) in
  0 <= v <= ULLONG_MAX /\
  (r = 0 \/ exists m, In m [1; 1024; 1024 * 1024; 1024 * 1024 * 1024] /\
                      r = v * m /\ r <= UINT64_MAX) /\
  trace (snd (parse_memory (Some mem) s)) = trace s /\
  (v = 0 -> r = 0).
Proof.
  cbv zeta.
  destruct (ParseRange.strtoull_range mem (errno s)) as [Hv _].
  split; [exact Hv|].
  unfold parse_memory, strtoull_m, bind, get_errno, set_errno, ret.
  destruct (strtoull mem (errno s)) as [[v rest] e'].
  cbn [fst snd] in *. destruct Hv as [Hv0 Hv1].
  assert (Hmul : forall m st0, 0 < m ->
            In m [1; 1024; 1024 * 1024; 1024 * 1024 * 1024] ->
            let out := (if (m >? 1) && (v >? UINT64_MAX / m)
                        then (fun s0 : pstate => (0, s0))
                        else (fun s0 : pstate => ((v * m) mod 2 ^ 64, s0))) st0 in
            (fst out = 0 \/
             exists m', In m' [1; 1024; 1024 * 1024; 1024 * 1024 * 1024] /\
                        fst out = v * m' /\ fst out <= UINT64_MAX) /\
            snd out = st0 /\ (v = 0 -> fst out = 0)).
  { intros m st0 Hm Hin. cbv zeta.
    destruct ((m >? 1) && (v >? UINT64_MAX / m)) eqn:E; cbn [fst snd].
    - split; [now left|]. split; [reflexivity|]. reflexivity.
    - assert (Hfit : 0 <= v * m <= UINT64_MAX).
      { apply andb_false_iff in E as [E|E].
        - rewrite Z.gtb_ltb in E. apply Z.ltb_ge in E.
          assert (m = 1) by lia. subst m. unfold UINT64_MAX, ULLONG_MAX in *. lia.
        - now apply ParseRange.product_fits. }
      rewrite Z.mod_small by (unfold UINT64_MAX in Hfit; lia).
      split; [right; exists m; repeat split; [exact Hin | apply Hfit]|].
      split; [reflexivity|]. intros ->. reflexivity. }
  cbn [errno trace].
  destruct ((v =? ULLONG_MAX) && (e' =? ERANGE)) eqn:Esat; cbn [fst snd trace].
  - split; [now left|]. split; [reflexivity|]. reflexivity.
  - set (st0 := {| trace := trace s; errno := e' |}).
    destruct (is_char (deref rest) "k" || is_char (deref rest) "K").
    { destruct (Hmul 1024 st0) as (H1 & H2 & H3); [lia | cbn; tauto |].
      cbv zeta in H1, H2, H3.
      split; [exact H1 | split; [exact (f_equal trace H2) | exact H3]]. }
    destruct (is_char (deref rest) "m" || is_char (deref rest) "M").
    { destruct (Hmul (1024 * 1024) st0) as (H1 & H2 & H3); [lia | cbn; tauto |].
      cbv zeta in H1, H2, H3.
      split; [exact H1 | split; [exact (f_equal trace H2) | exact H3]]. }
    destruct (is_char (deref rest) "g" || is_char (deref rest) "G").
    { destruct (Hmul (1024 * 1024 * 1024) st0) as (H1 & H2 & H3);
        [lia | cbn; tauto |].
      cbv zeta in H1, H2, H3.
      split; [exact H1 | split; [exact (f_equal trace H2) | exact H3]]. }
    destruct (negb (is_char (deref rest) "b") && negb (is_char (deref rest) "B")
              && negb (Ascii.eqb (deref rest) zero_char)).
    { cbn [fst snd]. split; [now left|]. split; reflexivity. }
    destruct (Hmul 1 st0) as (H1 & H2 & H3); [lia | cbn; tauto |].
    cbv zeta in H1, H2, H3.
      split; [exact H1 | split; [exact (f_equal trace H2) | exact H3]].
Qed.

(** A suffix without a number is 0 bytes, which the command line parser
    refuses. *)
Lemma parse_memory_never_wraps_k :
  fst (parse_memory (Some "k") init) = 0.
Proof.
  destruct (parse_memory_never_wraps "k" init) as (_ & _ & _ & Hzero).
  apply Hzero. reflexivity.
Defined.

(** A minus sign is read by strtoull and negates in 64 bits: -1 is taken
    as 2^64 - 1 bytes, and a string without a number gives 0. *)
Example parse_memory_minus_one :
  fst (parse_memory (Some "-1") init) = 2 ^ 64 - 1 /\
  fst (parse_memory (Some " +5k") init) = 5120 /\
  fst (parse_memory (Some "-1k") init) = 0 /\
  fst (parse_memory (Some "k") init) = 0 /\
  fst (parse_memory (Some "") init) = 0.
Proof. repeat split. Qed.

(* ================================================================== *)
(** * microbox_bind_mount_dev and its device allowlist (fs.c)          *)
(* ================================================================== *)

Module DevFacts.
Import Libc Data Sys Utils Fs Observe Logic Rules TraceProps Frame FsSpec MountSpec
       DevSpec.

Lemma in_middle {A} (x : A) a b : In x (a ++ x :: b).
Proof. apply in_or_app. right. now left. Qed.

(** Find an event in a trace put together with [++] and [::]. *)
Ltac find_event :=
  repeat first [rewrite in_app_iff | progress cbn [In]]; solve [auto 20].

(** No successful mount of the tmpfs on <base>/dev/shm is in a trace made
    of parts without mounts, of other calls and of mounts that failed. *)
Ltac no_shm_mount :=
  let r := fresh "r" in let Hr := fresh "Hr" in let Hin := fresh "Hin" in
  intros r Hr Hin; unfold dev_shm_call in Hin;
  repeat (rewrite in_app_iff in Hin || cbn [In] in Hin);
  repeat match goal with
    | H : _ \/ _ |- _ => destruct H
    | H : False |- _ => contradiction
    | H : In _ ?l, F : Forall not_mount ?l |- _ =>
        rewrite Forall_forall in F; apply F in H; discriminate H
    | H : (_, _) = (_, _) |- _ =>
        first [ congruence | apply (f_equal snd) in H; cbn [snd] in H; lia ]
    end.

Ltac settle_and :=
  repeat match goal with
    | H : false && _ = _ |- _ => cbn [andb] in H
    | H : true && _ = _ |- _ => cbn [andb] in H
    end;
  try discriminate.

Section Run.
Variable K : kernel.

(** The first part either goes through, with the four steps done, or
    returns with no successful mount on <base>/dev/shm. *)
Lemma dev_filesystems_steps base before e :
  wp (dev_filesystems K base) (st before [] e)
     (fun res s' => exists added e', s' = st before added e' /\
        ((res = None -> dev_steps_ok base added) /\
         (res <> None -> forall r, 0 <= r -> ~ In (dev_shm_call base, r) added))).
Proof.
  unfold dev_filesystems. cbv zeta.
  repeat first [ wp_step | wp_branch
               | use_only (MountFacts.mkdirp_quiet K (snprintf PATH_MAX (base +++ "/dev")))
               | use_only (MountFacts.mkdirp_quiet K (snprintf PATH_MAX (base +++ "/dev/pts")))
               | use_only (MountFacts.mkdirp_quiet K (snprintf PATH_MAX (base +++ "/dev/shm"))) ].
  all: wp_done; forget_oracle; settle_and; reflect_hyps.
  all: split; [intros Hres; try discriminate Hres | intros Hres; try congruence].
  all: try no_shm_mount.
  all: unfold dev_steps_ok, dev_tmpfs_call, devpts_call, ptmx_call, dev_shm_call.
  all: repeat split; eexists; (split; [|find_event]); try lia.
Qed.

(** microbox_bind_mount begins with the stat of the host path. *)
Lemma microbox_bind_mount_first base spec before e :
  wp (microbox_bind_mount K base spec) (st before [] e)
     (fun _ s' => exists added e', s' = st before added e' /\
                  exists r rest, added = (Stat (host spec), r) :: rest).
Proof.
  unfold microbox_bind_mount.
  repeat first [ wp_step | wp_branch
               | use_only (MountFacts.mkdirp_quiet K (snprintf PATH_MAX (base +++ dest spec)))
               | use_only (MountFacts.mkdirp_quiet K
                             (dirname (snprintf PATH_MAX (base +++ dest spec))))
               | match goal with
                 | |- wp (match mode spec with MNT_RO => _ | MNT_RW => _ end) _ _ =>
                     destruct (mode spec) eqn:?
                 end ].
  all: wp_done; eexists _, _; reflexivity.
Qed.

(** The loop calls microbox_bind_mount for every device. *)
Lemma bind_mount_devices_tried base devs : forall before e,
  wp (bind_mount_devices K base devs) (st before [] e)
     (fun _ s' => exists added e', s' = st before added e' /\
                  Forall (device_tried added) devs).
Proof.
  induction devs as [|d devs IH]; intros before e; cbn [bind_mount_devices].
  - wp_step. wp_done. constructor.
  - apply wp_bind.
    use_frame (microbox_bind_mount_first base {| host := d; dest := d; mode := MNT_RW |}).
    match goal with
    | H : exists _ _, _ |- _ => destruct H as (r & rest & ->)
    end.
    cbn [host].
    use_frame (IH).
    wp_done. constructor.
    + exists r. now left.
    + eapply Forall_impl; [|eassumption].
      intros d' (r' & Hin). exists r'. cbn [app In]. right.
      apply in_or_app. now right.
Qed.

Lemma microbox_bind_mount_dev_steps base before e :
  wp (microbox_bind_mount_dev K base) (st before [] e)
     (fun rc s' => exists added e', s' = st before added e' /\
        (dev_steps_ok base added ->
         rc = 0 /\
         exists pre dev,
           added = pre ++ dev /\ dev_steps_ok base pre /\
           Forall (device_tried dev) dev_dirs)).
Proof.
  unfold microbox_bind_mount_dev, and_then. apply wp_bind.
  use_frame (dev_filesystems_steps base).
  match goal with
  | H : _ /\ _ |- _ => destruct H as [Hok Hfail]
  end.
  destruct a as [rc|].
  - wp_step. wp_done. intros (_ & _ & _ & r & Hr & Hin).
    exfalso. exact (Hfail ltac:(discriminate) r Hr Hin).
  - specialize (Hok eq_refl). apply wp_bind.
    use_frame (bind_mount_devices_tried base dev_dirs).
    wp_step. wp_done. intros _. split; [reflexivity|].
    eexists _, _. split; [reflexivity|]. split; assumption.
Qed.

(** ** On a kernel whose mkdir and stat answer 0 or an error, a failure of
    the first part gives a negative result *)

Hypothesis Hdirs : dirs_answer K.

Ltac know_dirs :=
  repeat match goal with
    | H : ?r = k_ret K ?h (Mkdir ?p ?m) |- _ =>
        let Hle := fresh "Hle" in
        assert (Hle : r <= 0) by (rewrite H; apply (proj1 Hdirs)); clear H
    | H : ?r = k_ret K ?h (Stat ?p) |- _ =>
        let Hle := fresh "Hle" in
        assert (Hle : r <= 0) by (rewrite H; apply (proj2 Hdirs)); clear H
    end.

Lemma maybe_mkdir_errno path mode before e :
  wp (maybe_mkdir K path mode) (st before [] e)
     (fun rc s' => exists added e', s' = st before added e' /\
                   (rc = 0 \/ rc = -1 /\ 0 < e')).
Proof.
  unfold maybe_mkdir. wp_go.
  all: wp_done; know_dirs; forget_oracle; reflect_hyps.
  all: first [left; reflexivity | right; split; [reflexivity|]; unfold ENOTDIR; lia
             | exfalso; lia].
Qed.

Lemma mkdirp_loop_errno path rest : forall i before e,
  wp (mkdirp_loop K path rest i) (st before [] e)
     (fun rc s' => exists added e', s' = st before added e' /\
                   (rc = 0 \/ rc = -1 /\ 0 < e')).
Proof.
  induction rest as [|c rest IH]; intros i before e; cbn [mkdirp_loop].
  - wp_step. wp_done. now left.
  - destruct (Ascii.eqb c "/"); [|apply IH].
    apply wp_bind.
    apply (SpawnFacts.wp_frame_errno _ _ (maybe_mkdir_errno (substring 0 i path) 511)).
    intros a added e' Ha. cbn [app].
    wp_branch.
    + wp_step. wp_done. reflect_hyps. right. split; [reflexivity | lia].
    + apply (SpawnFacts.wp_frame_errno _ _ (IH (S i))).
      intros a2 added2 e2 Ha2. wp_done. exact Ha2.
Qed.

Lemma mkdirp_errno path before e :
  wp (mkdirp K path) (st before [] e)
     (fun rc s' => exists added e', s' = st before added e' /\
                   (rc = 0 \/ rc = -1 /\ 0 < e')).
Proof.
  unfold mkdirp. wp_step. wp_step. apply wp_bind.
  apply (SpawnFacts.wp_frame_errno _ _
           (mkdirp_loop_errno path
              (match path with String _ t => t | EmptyString => EmptyString end) 1)).
  intros a added e' Ha. cbn [app].
  wp_branch.
  - wp_step. wp_done. reflect_hyps. right. split; [reflexivity | lia].
  - apply wp_bind.
    apply (SpawnFacts.wp_frame_errno _ _ (maybe_mkdir_errno path 511)).
    intros a2 added2 e2 Ha2.
    wp_branch; wp_step; wp_done; reflect_hyps.
    + right. split; [reflexivity | lia].
    + left. reflexivity.
Qed.

Lemma dev_filesystems_negative base before e :
  wp (dev_filesystems K base) (st before [] e)
     (fun res s' => exists added e', s' = st before added e' /\
                    forall rc, res = Some rc -> rc < 0).
Proof.
  unfold dev_filesystems. cbv zeta.
  repeat first
    [ wp_step | wp_branch
    | apply (SpawnFacts.wp_frame_errno _ _
               (mkdirp_errno (snprintf PATH_MAX (base +++ "/dev"))));
      intros ? ? ? ?; cbn [app]; rewrite <- ?app_assoc; cbn [app]
    | apply (SpawnFacts.wp_frame_errno _ _
               (mkdirp_errno (snprintf PATH_MAX (base +++ "/dev/pts"))));
      intros ? ? ? ?; cbn [app]; rewrite <- ?app_assoc; cbn [app]
    | apply (SpawnFacts.wp_frame_errno _ _
               (mkdirp_errno (snprintf PATH_MAX (base +++ "/dev/shm"))));
      intros ? ? ? ?; cbn [app]; rewrite <- ?app_assoc; cbn [app] ].
  all: wp_done; forget_oracle; settle_and; reflect_hyps.
  all: intros rc0 Hrc; try discriminate Hrc; injection Hrc as <-; lia.
Qed.

Lemma dev_filesystems_both base before e :
  wp (dev_filesystems K base) (st before [] e)
     (fun res s' => exists added e', s' = st before added e' /\
        (((res = None -> dev_steps_ok base added) /\
          (res <> None -> forall r, 0 <= r -> ~ In (dev_shm_call base, r) added)) /\
         (forall rc, res = Some rc -> rc < 0))).
Proof.
  exact (MountFacts.wp_both _ _ _ _ _
           (dev_filesystems_steps base before e)
           (dev_filesystems_negative base before e)).
Qed.

Lemma microbox_bind_mount_dev_zero base before e :
  wp (microbox_bind_mount_dev K base) (st before [] e)
     (fun rc s' => exists added e', s' = st before added e' /\
                   (rc = 0 -> dev_steps_ok base added)).
Proof.
  unfold microbox_bind_mount_dev, and_then. apply wp_bind.
  use_frame (dev_filesystems_both base).
  match goal with
  | H : _ /\ _ |- _ => destruct H as [[Hok _] Hneg]
  end.
  destruct a as [rc|].
  - wp_step. wp_done. intros ->. specialize (Hneg 0 eq_refl). lia.
  - specialize (Hok eq_refl). apply wp_bind.
    use_only (FsFacts.bind_mount_devices_setup K base dev_dirs).
    wp_step. wp_done. intros _.
    destruct Hok as ((r1 & H1 & I1) & (r2 & H2 & I2) & (r3 & H3 & I3) & (r4 & H4 & I4)).
    unfold dev_steps_ok.
    split; [exists r1 | split; [exists r2 | split; [exists r3 | exists r4]]];
      (split; [assumption | apply in_or_app; now left]).
Qed.

End Run.
End DevFacts.

Import Libc Data Sys Fs Observe DevSpec Examples.

(** C10: when the tmpfs, devpts, ptmx symlink and shm steps of
    microbox_bind_mount_dev have succeeded, the function returns 0
    whatever the bind mounts of the devices answer: the steps are
    followed by the calls of microbox_bind_mount for /dev/null, /dev/zero,
    /dev/random, /dev/urandom and /dev/tty, and nothing of what these
    return reaches the result.  On a kernel whose mkdir and stat answer 0
    or an error, the result is 0 only when the four steps have
    succeeded. *)
Theorem microbox_bind_mount_dev_result K base s :
  let rc := fst (microbox_bind_mount_dev K base s) in
  let ext := emitted (microbox_bind_mount_dev K base) s in
  (dev_steps_ok base ext ->
   rc = 0 /\
   exists pre dev,
     ext = pre ++ dev /\ dev_steps_ok base pre /\
     Forall (device_tried dev) dev_dirs) /\
  (dirs_answer K -> rc = 0 -> dev_steps_ok base ext).
Proof.
  cbv zeta. split.
  - run_of (DevFacts.microbox_bind_mount_dev_steps K base) s. exact Hpost.
  - intros Hdirs.
    run_of (DevFacts.microbox_bind_mount_dev_zero K Hdirs base) s. exact Hpost.
Qed.

(** Every bind mount is refused (EACCES), everything else succeeds: the
    four steps are done, each of the five device bind mounts fails, the
    mount calls are in the trace with their error, and
    microbox_bind_mount_dev returns 0. *)
Lemma microbox_bind_mount_dev_bind_fails :
  map (fun d => fst (microbox_bind_mount K_bind_fails "/box"
                       {| host := d; dest := d; mode := MNT_RW |} init))
      dev_dirs
  = [-1; -1; -1; -1; -1] /\
  fst (microbox_bind_mount_dev K_bind_fails "/box" init) = 0 /\
  filter (fun ev => snd ev <? 0)
         (emitted (microbox_bind_mount_dev K_bind_fails "/box") init)
  = map (fun d => (device_bind_call "/box" d, -13)) dev_dirs /\
  dev_steps_ok "/box" (emitted (microbox_bind_mount_dev K_ok "/box") init).
Proof.
  destruct (microbox_bind_mount_dev_result K_bind_fails "/box" init) as [Hok _].
  destruct (microbox_bind_mount_dev_result K_ok "/box" init) as [_ Hzero].
  split; [vm_compute; reflexivity|]. split; [|split].
  - apply Hok.
    repeat split; exists 0; (split; [lia|]); vm_compute; auto 20.
  - vm_compute. reflexivity.
  - apply Hzero; [|reflexivity].
    split; intros; cbn; [destruct p; cbn; lia | lia].
Defined.
